(** * Signal copier: parser, pip calculator, risk sizing and trade lifecycle

    Shallow embedding of [run.py] (Telegram signal copier for MetaTrader).

    Text is modelled as Rocq strings read as ASCII text (code points below
    128); characters above that range are carried along as ordinary letters
    without case.  Python's [float] is IEEE-754 binary64: a finite value is
    carried as the exact rational it denotes and every arithmetic operation
    rounds the exact result to the nearest binary64 value, ties to even.
    The sign of a zero is not kept: no operation of this program observes it
    (the values are rounded, floored, compared, or printed to count the
    characters after the decimal point). *)

From Stdlib Require Import ZArith QArith Qround Qabs Qpower Lqa Lia.
From Stdlib Require Import List String Ascii Bool.
Import ListNotations.

Open Scope Q_scope.

(* ================================================================== *)
(** ** Python exceptions and results *)

Inductive exn : Type :=
| ValueError
| OverflowError
| ZeroDivisionError
| TypeError
| IndexError
| KeyError
| VenueError (msg : string).

Inductive result (A : Type) : Type :=
| Ok (a : A)
| Raise (e : exn).

Arguments Ok {A} a.
Arguments Raise {A} e.

Definition rbind {A B : Type} (r : result A) (k : A -> result B) : result B :=
  match r with
  | Ok a => k a
  | Raise e => Raise e
  end.

Notation "x <- r ;; k" := (rbind r (fun x => k))
  (at level 61, r at next level, right associativity).

(* ================================================================== *)
(** ** binary64 arithmetic *)

Module B64.

(** Precision, smallest exponent of the last place, and overflow bound. *)
Definition prec : Z := 53.
Definition emin : Z := -1074.
Definition emax : Z := 1024.

Inductive pyfloat : Type :=
| FFin (q : Q)
| FInf (neg : bool)
| FNaN.

Definition pow2 (e : Z) : Q := Qpower 2 e.

(** Round a rational to the nearest integer, ties to the even one. *)
Definition rne (q : Q) : Z :=
  let f := Qfloor q in
  match Qcompare (q - inject_Z f) (1 # 2) with
  | Lt => f
  | Gt => (f + 1)%Z
  | Eq => if Z.even f then f else (f + 1)%Z
  end.

(** Binary exponent of a positive rational: [2^e <= q < 2^(e+1)]. *)
Definition Qlog2 (q : Q) : Z :=
  let e0 := (Z.log2 (Qnum q) - Z.log2 (Zpos (Qden q)))%Z in
  if Qle_bool (pow2 e0) q then e0 else (e0 - 1)%Z.

(** Exponent of the unit in the last place for a positive rational. *)
Definition ulp_exp (a : Q) : Z := Z.max (Qlog2 a - (prec - 1)) emin.

(** Nearest point of the binary64 grid to a positive rational (exponent
    range unbounded above). *)
Definition round_pos (a : Q) : Q :=
  let s := ulp_exp a in
  inject_Z (rne (a / pow2 s)) * pow2 s.

(** Correct rounding of an exact rational result to binary64. *)
Definition round64 (q : Q) : pyfloat :=
  match Qcompare q 0 with
  | Eq => FFin 0
  | Gt => let v := round_pos q in
          if Qle_bool (pow2 emax) v then FInf false else FFin (Qred v)
  | Lt => let v := round_pos (- q) in
          if Qle_bool (pow2 emax) v then FInf true else FFin (Qred (- v))
  end.

(** The five ways [round64] answers, by the sign of the exact value and
    whether its rounding reaches the overflow bound. *)
Inductive round64_view (q : Q) : pyfloat -> Prop :=
| RV_zero : q == 0 -> round64_view q (FFin 0)
| RV_pos_inf : 0 < q -> pow2 emax <= round_pos q -> round64_view q (FInf false)
| RV_pos_fin : 0 < q -> round_pos q < pow2 emax ->
    round64_view q (FFin (Qred (round_pos q)))
| RV_neg_inf : q < 0 -> pow2 emax <= round_pos (- q) ->
    round64_view q (FInf true)
| RV_neg_fin : q < 0 -> round_pos (- q) < pow2 emax ->
    round64_view q (FFin (Qred (- round_pos (- q)))).

(** A float literal of the source, such as [0.0001]. *)
Definition lit (q : Q) : pyfloat := round64 q.

Definition Qneg_bool (q : Q) : bool := negb (Qle_bool 0 q).
Definition Qzero_bool (q : Q) : bool := Qeq_bool q 0.

Definition fsub (x y : pyfloat) : pyfloat :=
  match x, y with
  | FNaN, _ | _, FNaN => FNaN
  | FInf a, FInf b => if Bool.eqb a b then FNaN else FInf a
  | FInf a, FFin _ => FInf a
  | FFin _, FInf b => FInf (negb b)
  | FFin p, FFin q => round64 (p - q)
  end.

Definition fmul (x y : pyfloat) : pyfloat :=
  match x, y with
  | FNaN, _ | _, FNaN => FNaN
  | FInf a, FInf b => FInf (xorb a b)
  | FInf a, FFin q | FFin q, FInf a =>
      if Qzero_bool q then FNaN else FInf (xorb a (Qneg_bool q))
  | FFin p, FFin q => round64 (p * q)
  end.

(** IEEE division by a divisor that is not zero. *)
Definition fdiv (x y : pyfloat) : pyfloat :=
  match x, y with
  | FNaN, _ | _, FNaN => FNaN
  | FInf _, FInf _ => FNaN
  | FInf a, FFin q => FInf (xorb a (Qneg_bool q))
  | FFin _, FInf _ => FFin 0
  | FFin p, FFin q => round64 (p / q)
  end.

Definition is_zero (x : pyfloat) : bool :=
  match x with
  | FFin q => Qzero_bool q
  | _ => false
  end.

(** [x <= y] on floats, false as soon as a NaN is involved. *)
Definition fle (x y : pyfloat) : Prop :=
  match x, y with
  | FNaN, _ | _, FNaN => False
  | FInf true, _ => True
  | _, FInf false => True
  | FInf false, _ => False
  | _, FInf true => False
  | FFin p, FFin q => p <= q
  end.

(** [x == y] on floats. *)
Definition feq (x y : pyfloat) : Prop :=
  match x, y with
  | FFin p, FFin q => p == q
  | FInf a, FInf b => a = b
  | _, _ => False
  end.

(** Python's [x / y] on floats. *)
Definition truediv (x y : pyfloat) : result pyfloat :=
  if is_zero y then Raise ZeroDivisionError else Ok (fdiv x y).

(** [float(n)] for a Python int, as done when an int meets a float. *)
Definition of_int (n : Z) : result pyfloat :=
  match round64 (inject_Z n) with
  | FInf _ => Raise OverflowError
  | f => Ok f
  end.

(** [x / n] and [x * n] with a float on the left and an int on the right. *)
Definition truediv_int (x : pyfloat) (n : Z) : result pyfloat :=
  y <- of_int n ;; truediv x y.

Definition mul_int (x : pyfloat) (n : Z) : result pyfloat :=
  y <- of_int n ;; Ok (fmul x y).

(** [a / b] on two Python ints: the correctly rounded quotient. *)
Definition int_truediv (a b : Z) : result pyfloat :=
  if (b =? 0)%Z then Raise ZeroDivisionError
  else match round64 (inject_Z a / inject_Z b) with
       | FInf _ => Raise OverflowError
       | f => Ok f
       end.

(** [round(x)] with one argument: an int, ties to even. *)
Definition py_round (x : pyfloat) : result Z :=
  match x with
  | FFin q => Ok (rne q)
  | FInf _ => Raise OverflowError
  | FNaN => Raise ValueError
  end.

(** [math.floor(x)]. *)
Definition math_floor (x : pyfloat) : result Z :=
  match x with
  | FFin q => Ok (Qfloor q)
  | FInf _ => Raise OverflowError
  | FNaN => Raise ValueError
  end.

End B64.

(* ================================================================== *)
(** ** Python text operations (ASCII) *)

Module Py.

Definition text := list ascii.

Definition code (c : ascii) : nat := nat_of_ascii c.

Definition between (lo hi : nat) (c : ascii) : bool :=
  (lo <=? code c)%nat && (code c <=? hi)%nat.

(** [str.isspace] on one character: TAB, LF, VT, FF, CR, FS, GS, RS, US, SP. *)
Definition is_space (c : ascii) : bool :=
  between 9 13 c || between 28 32 c.

(** Line boundaries of [str.splitlines]. *)
Definition is_linebreak (c : ascii) : bool :=
  between 10 13 c || between 28 30 c.

Definition is_digit (c : ascii) : bool := between 48 57 c.

Definition lower_char (c : ascii) : ascii :=
  if between 65 90 c then ascii_of_nat (code c + 32) else c.

Definition upper_char (c : ascii) : ascii :=
  if between 97 122 c then ascii_of_nat (code c - 32) else c.

Definition lower (s : text) : text := map lower_char s.
Definition upper (s : text) : text := map upper_char s.

Fixpoint lstrip (s : text) : text :=
  match s with
  | c :: r => if is_space c then lstrip r else s
  | [] => []
  end.

Definition strip (s : text) : text := rev (lstrip (rev (lstrip s))).

(** [s.splitlines()]: CR LF counts as one boundary and a final boundary
    opens no further line.  [cur] is the current line, reversed. *)
Fixpoint splitlines_from (cur : text) (s : text) : list text :=
  match s with
  | [] => match cur with [] => [] | _ => [rev cur] end
  | c :: r =>
      if is_linebreak c then
        match code c, r with
        | 13%nat, c' :: r' =>
            if (code c' =? 10)%nat
            then rev cur :: splitlines_from [] r'
            else rev cur :: splitlines_from [] r
        | _, _ => rev cur :: splitlines_from [] r
        end
      else splitlines_from (c :: cur) r
  end.

Definition splitlines (s : text) : list text := splitlines_from [] s.

(** [s.split()]: the maximal runs of characters that are not spaces. *)
Fixpoint split_from (cur : text) (s : text) : list text :=
  match s with
  | [] => match cur with [] => [] | _ => [rev cur] end
  | c :: r =>
      if is_space c then
        match cur with
        | [] => split_from [] r
        | _ => rev cur :: split_from [] r
        end
      else split_from (c :: cur) r
  end.

Definition split (s : text) : list text := split_from [] s.

Definition char_eqb (a b : ascii) : bool := Ascii.eqb a b.

Fixpoint text_eqb (a b : text) : bool :=
  match a, b with
  | [], [] => true
  | x :: a', y :: b' => char_eqb x y && text_eqb a' b'
  | _, _ => false
  end.

(** [s.startswith(p)]. *)
Fixpoint startswith (p s : text) : bool :=
  match p, s with
  | [], _ => true
  | x :: p', y :: s' => char_eqb x y && startswith p' s'
  | _ :: _, [] => false
  end.

(** [p in s] for two strings. *)
Fixpoint contains (p s : text) : bool :=
  startswith p s ||
  match s with
  | [] => false
  | _ :: s' => contains p s'
  end.

(** [x in l] for a string and a list of strings. *)
Definition mem (x : text) (l : list text) : bool := existsb (text_eqb x) l.

(** [l[-1]], an [IndexError] on the empty list being [None]. *)
Fixpoint last_item (l : list text) : option text :=
  match l with
  | [] => None
  | [x] => Some x
  | _ :: r => last_item r
  end.

(** Text up to the first occurrence of [sep], and the text after it. *)
Fixpoint cut_at (sep : ascii) (s : text) : text * option text :=
  match s with
  | [] => ([], None)
  | c :: r =>
      if char_eqb c sep then ([], Some r)
      else let '(a, b) := cut_at sep r in (c :: a, b)
  end.

(** [s.split(sep)[1]] when [sep] occurs in [s]. *)
Definition second_field (sep : ascii) (s : text) : option text :=
  match snd (cut_at sep s) with
  | Some r => Some (fst (cut_at sep r))
  | None => None
  end.

Definition lit (s : string) : text := list_ascii_of_string s.

End Py.

(* ================================================================== *)
(** ** Conversions between text and floats: [float(s)] and [repr(x)] *)

Module Conv.
Import B64 Py.

Definition digit_val (c : ascii) : Z := Z.of_nat (code c - 48).

Definition digits_val (ds : text) : Z :=
  fold_left (fun acc c => (acc * 10 + digit_val c)%Z) ds 0%Z.

Fixpoint span_digits (s : text) : text * text :=
  match s with
  | c :: r =>
      if is_digit c then let '(d, r') := span_digits r in (c :: d, r')
      else ([], s)
  | [] => ([], [])
  end.

Definition is_char (n : nat) (c : ascii) : bool := (code c =? n)%nat.

(** Optional sign: [true] for a minus. *)
Definition take_sign (s : text) : bool * text :=
  match s with
  | c :: r =>
      if is_char 45 c then (true, r)
      else if is_char 43 c then (false, r)
      else (false, s)
  | [] => (false, [])
  end.

(** Underscores are accepted between two digits only, and dropped. *)
Fixpoint drop_underscores (prev : ascii) (s : text) : option text :=
  match s with
  | [] => if is_char 95 prev then None else Some []
  | c :: r =>
      if is_char 95 c then
        if is_digit prev then drop_underscores c r else None
      else if is_char 95 prev && negb (is_digit c) then None
      else option_map (cons c) (drop_underscores c r)
  end.

Definition is_nil (s : text) : bool :=
  match s with [] => true | _ => false end.

(** [digits [. digits] [(e|E) [sign] digits]] with a digit in the mantissa:
    the exact decimal value. *)
Definition parse_decimal (s : text) : option Q :=
  let '(ip, r1) := span_digits s in
  let '(fp, r2) :=
    match r1 with
    | c :: r => if is_char 46 c then span_digits r else ([], r1)
    | [] => ([], r1)
    end in
  if is_nil ip && is_nil fp then None
  else
    let m := digits_val (ip ++ fp) in
    let shift := Z.of_nat (List.length fp) in
    match r2 with
    | [] => Some (inject_Z m * Qpower 10 (- shift))
    | c :: r3 =>
        if is_char 101 c || is_char 69 c then
          let '(eneg, r4) := take_sign r3 in
          let '(ed, r5) := span_digits r4 in
          if is_nil ed || negb (is_nil r5) then None
          else
            let e := digits_val ed in
            let e := if eneg then (- e)%Z else e in
            Some (inject_Z m * Qpower 10 (e - shift))
        else None
    end.

Definition parse_special (s : text) : option pyfloat :=
  let l := lower s in
  if text_eqb l (lit "inf") || text_eqb l (lit "infinity") then Some (FInf false)
  else if text_eqb l (lit "nan") then Some FNaN
  else None.

Definition fneg (x : pyfloat) : pyfloat :=
  match x with
  | FFin q => FFin (Qred (- q))
  | FInf b => FInf (negb b)
  | FNaN => FNaN
  end.

(** [float(s)] on a string: [ValueError] when [s] is not a number. *)
Definition py_float (s : text) : result pyfloat :=
  match drop_underscores zero (strip s) with
  | None => Raise ValueError
  | Some t =>
      let '(neg, body) := take_sign t in
      match parse_special body with
      | Some x => Ok (if neg then fneg x else x)
      | None =>
          match parse_decimal body with
          | Some q => Ok (round64 (if neg then - q else q))
          | None => Raise ValueError
          end
      end
  end.

(** Decimal exponent of a positive rational: [10^k <= a < 10^(k+1)]. *)
Fixpoint log10_up (fuel : nat) (n k : Z) : Z :=
  match fuel with
  | O => k
  | S f => if (n <? 10)%Z then k else log10_up f (n / 10)%Z (k + 1)%Z
  end.

Fixpoint log10_down (fuel : nat) (a : Q) (k : Z) : Z :=
  match fuel with
  | O => k
  | S f =>
      let a' := Qred (a * 10) in
      if Qle_bool 1 a' then (k - 1)%Z else log10_down f a' (k - 1)%Z
  end.

Definition Qlog10 (a : Q) : Z :=
  if Qle_bool 1 a
  then log10_up (S (Z.to_nat (Z.log2 (Qfloor a)))) (Qfloor a) 0
  else log10_down (S (Z.to_nat (Z.log2 (Zpos (Qden a))))) a 0.

Definition same_value (x : pyfloat) (a : Q) : bool :=
  match x with
  | FFin q => Qeq_bool q a
  | _ => false
  end.

(** The [n]-digit decimals just below and just above [a]: the one that
    reads back as [a], the nearer one if both do.  The result is the integer
    of the digits and the power of ten it is scaled by. *)
Definition candidate (a : Q) (k : Z) (n : Z) : option (Z * Z) :=
  let p := (k + 1 - n)%Z in
  let scale := Qpower 10 p in
  let t := a / scale in
  let lo := Qfloor t in
  let hi := (lo + 1)%Z in
  let ok_lo := same_value (round64 (inject_Z lo * scale)) a in
  let ok_hi := same_value (round64 (inject_Z hi * scale)) a in
  match ok_lo, ok_hi with
  | true, false => Some (lo, p)
  | false, true => Some (hi, p)
  | false, false => None
  | true, true =>
      match Qcompare (t - inject_Z lo) (1 # 2) with
      | Lt => Some (lo, p)
      | Gt => Some (hi, p)
      | Eq => Some (if Z.even lo then lo else hi, p)
      end
  end.

(** Shortest decimal that reads back as [a], tried from 1 to 17 digits. *)
Fixpoint shortest_from (fuel : nat) (a : Q) (k : Z) (n : Z) : Z * Z :=
  match fuel with
  | O => (Qfloor (a / Qpower 10 (k + 1 - n)), (k + 1 - n)%Z)
  | S f =>
      match candidate a k n with
      | Some r => r
      | None => shortest_from f a k (n + 1)%Z
      end
  end.

Definition digit_char (d : Z) : ascii := ascii_of_nat (48 + Z.to_nat d).

Fixpoint Z_digits (fuel : nat) (n : Z) (acc : text) : text :=
  match fuel with
  | O => acc
  | S f =>
      let acc' := digit_char (n mod 10) :: acc in
      if (n <? 10)%Z then acc' else Z_digits f (n / 10)%Z acc'
  end.

(** Decimal digits of a non-negative int, as [str(n)] gives them. *)
Definition Z_text (n : Z) : text := Z_digits (S (Z.to_nat (Z.log2 n))) n [].

Fixpoint drop_zeros (s : text) : text :=
  match s with
  | c :: r => if is_char 48 c then drop_zeros r else s
  | [] => []
  end.

Definition rstrip_zeros (s : text) : text := rev (drop_zeros (rev s)).

Definition zeros (n : Z) : text := repeat (ascii_of_nat 48) (Z.to_nat n).

(** Digits without trailing zeros and the position of the decimal point
    counted from the left of the digits. *)
Definition shortest_digits (a : Q) : text * Z :=
  let k := Qlog10 a in
  let '(c, p) := shortest_from 17 a k 1 in
  let ds := Z_text c in
  (rstrip_zeros ds, (Z.of_nat (List.length ds) + p)%Z).

(** Layout of [repr]: exponent form when the point lies more than 16 places
    right or 4 or more places left of the digits, else positional with [.0]
    added to whole numbers. *)
Definition format_repr (ds : text) (decpt : Z) : text :=
  if (decpt <=? -4)%Z || (16 <? decpt)%Z then
    let e := (decpt - 1)%Z in
    let mant :=
      match ds with
      | [] => []
      | d :: [] => [d]
      | d :: r => d :: lit "." ++ r
      end in
    let et := Z_text (Z.abs e) in
    let et := match et with [_] => lit "0" ++ et | _ => et end in
    mant ++ lit "e" ++ (if (e <? 0)%Z then lit "-" else lit "+") ++ et
  else if (decpt <=? 0)%Z then
    lit "0." ++ zeros (- decpt) ++ ds
  else
    let n := Z.of_nat (List.length ds) in
    if (n <=? decpt)%Z then ds ++ zeros (decpt - n) ++ lit ".0"
    else firstn (Z.to_nat decpt) ds ++ lit "." ++ skipn (Z.to_nat decpt) ds.

(** [repr(x)], which is also [str(x)] and [f"{x}"]. *)
Definition float_repr (x : pyfloat) : text :=
  match x with
  | FNaN => lit "nan"
  | FInf false => lit "inf"
  | FInf true => lit "-inf"
  | FFin q =>
      match Qcompare q 0 with
      | Eq => lit "0.0"
      | Gt => let '(ds, decpt) := shortest_digits q in format_repr ds decpt
      | Lt => let '(ds, decpt) := shortest_digits (- q) in
              lit "-" ++ format_repr ds decpt
      end
  end.

End Conv.

(* ================================================================== *)
(** ** The bot: data, parser, pip multiplier *)

Module Bot.
Import B64 Py Conv.

(** Allowed symbols, in the order of the source. *)
Definition SYMBOLS : list text :=
  map lit
    ["AUDCAD"; "AUDCHF"; "AUDJPY"; "AUDNZD"; "AUDUSD"; "CADCHF"; "CADJPY";
     "CHFJPY"; "EURAUD"; "EURCAD"; "EURCHF"; "EURGBP"; "EURJPY"; "EURNZD";
     "EURUSD"; "GBPAUD"; "GBPCAD"; "GBPCHF"; "GBPJPY"; "GBPNZD"; "GBPUSD";
     "NOW"; "NZDCAD"; "NZDCHF"; "NZDJPY"; "NZDUSD"; "USDCAD"; "USDCHF";
     "USDJPY"; "XAGUSD"; "XAUUSD"]%string.

(** Default of the environment variable [RISK_FACTOR]. *)
Definition RISK_FACTOR_default : pyfloat := B64.lit (1 # 100).

(** [trade["Entry"]] holds a float or the string ['NOW']. *)
Inductive entry_value : Type :=
| EStr (s : text)
| ENum (x : pyfloat).

(** The trade dict.  [PositionSize] is absent until the risk step sets it. *)
Record Trade : Type := mkTrade {
  OrderType : text;
  Symbol : text;
  Entry : entry_value;
  StopLoss : pyfloat;
  TP : list pyfloat;
  RiskFactor : pyfloat;
  PositionSize : option pyfloat
}.

(** A dict returned by [parse_signal]: [None] is the empty dict [{}]. *)
Definition Dict : Type := option Trade.

(** Lines 72-86: the order type read off the lower-cased first line. *)
Definition order_type_of (first : text) : option text :=
  if contains (lit "buy limit") first then Some (lit "Buy Limit")
  else if contains (lit "sell limit") first then Some (lit "Sell Limit")
  else if contains (lit "buy stop") first then Some (lit "Buy Stop")
  else if contains (lit "sell stop") first then Some (lit "Sell Stop")
  else if startswith (lit "buy") first then Some (lit "Buy")
  else if startswith (lit "sell") first then Some (lit "Sell")
  else None.

(** [line.split()[-1]]. *)
Definition last_word (line : text) : result text :=
  match last_item (split line) with
  | Some w => Ok w
  | None => Raise IndexError
  end.

(** [lines[i]] for an index known to be in range; the empty text otherwise. *)
Definition line_at (lines : list text) (i : nat) : text := nth i lines [].

(** The non-blank lines of the message, each stripped. *)
Definition signal_lines (signal_text : text) : list text :=
  map strip
    (filter (fun l => negb (is_nil (strip l))) (splitlines signal_text)).

(** [try: ... except Exception: return {}]. *)
Definition or_empty {A : Type} (r : result A) (k : A -> result Dict)
  : result Dict :=
  match r with
  | Ok a => k a
  | Raise _ => Ok None
  end.

Definition parse_entry (entry_raw : text) : result entry_value :=
  if negb (text_eqb entry_raw (lit "NOW"))
  then x <- py_float entry_raw ;; Ok (ENum x)
  else Ok (EStr entry_raw).

Definition parse_tp_list (lines : list text) : result (list pyfloat) :=
  w1 <- last_word (line_at lines 3) ;;
  tp1 <- py_float w1 ;;
  if (4 <? List.length lines)%nat then
    w2 <- last_word (line_at lines 4) ;;
    tp2 <- py_float w2 ;;
    Ok [tp1; tp2]
  else Ok [tp1].

(** [parse_signal]: the trade dict, or [{}] when the text is not a signal. *)
Definition parse_signal (RISK_FACTOR : pyfloat) (signal_text : text)
  : result Dict :=
  let lines := signal_lines signal_text in
  match lines with
  | [] => Ok None
  | line0 :: _ =>
      let first := lower line0 in
      match order_type_of first with
      | None => Ok None
      | Some order_type =>
          last0 <- last_word line0 ;;
          let symbol := upper last0 in
          if negb (mem symbol SYMBOLS) then Ok None
          else if (List.length lines <? 4)%nat then Ok None
          else
            last1 <- last_word (line_at lines 1) ;;
            let entry_raw := upper last1 in
            or_empty (parse_entry entry_raw) (fun entry =>
            or_empty (w <- last_word (line_at lines 2) ;; py_float w)
              (fun stoploss =>
            or_empty (parse_tp_list lines) (fun tp_list =>
              Ok (Some {| OrderType := order_type;
                          Symbol := symbol;
                          Entry := entry;
                          StopLoss := stoploss;
                          TP := tp_list;
                          RiskFactor := RISK_FACTOR;
                          PositionSize := None |}))))
      end
  end.

(** Characters after the decimal point of [f"{x}"], when there is a point. *)
Definition decimals_of (x : pyfloat) : option nat :=
  option_map (@List.length ascii) (second_field "."%char (float_repr x)).

(** [_get_multiplier]: price difference of one pip. *)
Definition _get_multiplier (symbol : text) (entry_value : entry_value)
  : pyfloat :=
  if text_eqb symbol (lit "XAUUSD") then B64.lit (1 # 10)
  else if text_eqb symbol (lit "XAGUSD") then B64.lit (1 # 1000)
  else
    match entry_value with
    | EStr _ => B64.lit (1 # 10000)
    | ENum x =>
        match decimals_of x with
        | Some decimals =>
            if (3 <=? decimals)%nat then B64.lit (1 # 100)
            else B64.lit (1 # 10000)
        | None => B64.lit (1 # 10000)
        end
    end.

(* ------------------------------------------------------------------ *)
(** ** Risk sizing (lines 225-245 of [connect_and_process]) *)

(** [x - trade["Entry"]]: a [TypeError] while the entry is still a string. *)
Definition sub_entry (x : pyfloat) (e : entry_value) : result pyfloat :=
  match e with
  | ENum y => Ok (fsub x y)
  | EStr _ => Raise TypeError
  end.

(** [abs(round((price - trade["Entry"]) / multiplier))]. *)
Definition pips_between (price : pyfloat) (entry : entry_value)
    (multiplier : pyfloat) : result Z :=
  d <- sub_entry price entry ;;
  r <- truediv d multiplier ;;
  n <- py_round r ;;
  Ok (Z.abs n).

(** Lines 238-239: [((balance * risk) / stop_loss_pips) / 10]. *)
Definition raw_pos_size (balance risk : pyfloat) (stop_loss_pips : Z)
  : result pyfloat :=
  a <- truediv_int (fmul balance risk) stop_loss_pips ;;
  truediv_int a 10.

(** Line 240: [math.floor(pos_size * 100) / 100]. *)
Definition floor_two_decimals (pos_size : pyfloat) : result pyfloat :=
  c <- mul_int pos_size 100 ;;
  n <- math_floor c ;;
  int_truediv n 100.

(** The position size of lines 238-240. *)
Definition pos_size_of (balance risk : pyfloat) (stop_loss_pips : Z)
  : result pyfloat :=
  pos_size <- raw_pos_size balance risk stop_loss_pips ;;
  floor_two_decimals pos_size.

(** The list comprehension of lines 244-245. *)
Fixpoint tp_pips_of (tps : list pyfloat) (entry : entry_value)
    (multiplier : pyfloat) : result (list Z) :=
  match tps with
  | [] => Ok []
  | tp :: rest =>
      p <- pips_between tp entry multiplier ;;
      ps <- tp_pips_of rest entry multiplier ;;
      Ok (p :: ps)
  end.

(* ------------------------------------------------------------------ *)
(** ** The venue, the replies, and the effects of a handler *)

Inductive venue_op : Type :=
| create_market_buy_order
| create_market_sell_order
| create_limit_buy_order
| create_limit_sell_order
| create_stop_buy_order
| create_stop_sell_order.

(** Arguments of one order call; market orders carry no opening price. *)
Record order_request : Type := mkOrder {
  o_op : venue_op;
  o_symbol : text;
  o_volume : pyfloat;
  o_open : option entry_value;
  o_stop_loss : pyfloat;
  o_take_profit : pyfloat
}.

(** Replies sent with [reply_text], by their place in the source. *)
Inductive message : Type :=
| MsgConnected                      (* line 214 *)
| MsgMultiplierZero                 (* line 228 *)
| MsgZeroStop                       (* line 234 *)
| MsgTable (t : Trade) (balance : pyfloat)
           (stop_loss_pips : Z) (tp_pips : list Z)   (* line 250 *)
| MsgEntering                       (* line 254 *)
| MsgExecuted                       (* line 282 *)
| MsgTradeError (e : exn)           (* line 286 *)
| MsgConnectionError (e : exn)      (* line 290 *)
| MsgNotAuthorized
| MsgAskTrade                       (* line 331 *)
| MsgAskCalculate                   (* line 341 *)
| MsgParsed                         (* lines 353, 375 *)
| MsgParseError                     (* lines 356, 378 *)
| MsgAskDecision                    (* line 385 *)
| MsgNoPending                      (* line 392 *)
| MsgCancelled.                     (* line 402 *)

(** What a run does that the outside can see, in order: the replies to the
    user and the calls to the venue, each recorded when it is made. *)
Inductive event : Type :=
| Reply (m : message)
| GetAccount
| Deploy
| WaitConnected
| Connect
| WaitSynchronized
| GetAccountInformation
| GetPrice (symbol : text)
| Submit (r : order_request).

(** Answers of the venue during one run.  An order call is answered from
    its position in the run and its arguments. *)
Record Venue : Type := mkVenue {
  get_account : result text;
  deploy : result unit;
  wait_connected : result unit;
  connect : result unit;
  wait_synchronized : result unit;
  get_account_information : result pyfloat;
  get_symbol_price : text -> result (pyfloat * pyfloat);
  create_order : nat -> order_request -> result text
}.

(** The trade dict is shared with the caller and changed in place; events
    accumulate; both survive an exception. *)
Record St : Type := mkSt {
  st_trade : Trade;
  st_out : list event
}.

Definition M (A : Type) : Type := St -> St * result A.

Definition ret {A : Type} (a : A) : M A := fun s => (s, Ok a).

Definition bind {A B : Type} (m : M A) (k : A -> M B) : M B :=
  fun s =>
    match m s with
    | (s', Ok a) => k a s'
    | (s', Raise e) => (s', Raise e)
    end.

Notation "x <~ m ;; k" := (bind m (fun x => k))
  (at level 61, m at next level, right associativity).
Notation "m ;;; k" := (bind m (fun _ => k))
  (at level 61, right associativity).

Definition lift {A : Type} (r : result A) : M A := fun s => (s, r).

Definition try_except {A : Type} (m : M A) (h : exn -> M A) : M A :=
  fun s =>
    match m s with
    | (s', Raise e) => h e s'
    | r => r
    end.

Definition emit (ev : event) : M unit :=
  fun s => (mkSt (st_trade s) (st_out s ++ [ev]), Ok tt).

Definition reply_text (m : message) : M unit := emit (Reply m).

(** A venue call: recorded, then answered or failed. *)
Definition call {A : Type} (ev : event) (answer : result A) : M A :=
  emit ev ;;; lift answer.

Definition get_trade : M Trade := fun s => (s, Ok (st_trade s)).

Definition set_trade (t : Trade) : M unit :=
  fun s => (mkSt t (st_out s), Ok tt).

Definition set_Entry (e : entry_value) : M unit :=
  t <~ get_trade ;;
  set_trade {| OrderType := OrderType t; Symbol := Symbol t; Entry := e;
               StopLoss := StopLoss t; TP := TP t;
               RiskFactor := RiskFactor t; PositionSize := PositionSize t |}.

Definition set_PositionSize (p : pyfloat) : M unit :=
  t <~ get_trade ;;
  set_trade {| OrderType := OrderType t; Symbol := Symbol t;
               Entry := Entry t; StopLoss := StopLoss t; TP := TP t;
               RiskFactor := RiskFactor t; PositionSize := Some p |}.

(** Lines 217-222: a ['NOW'] entry becomes the bid for ["Buy"], the ask for
    every other order type. *)
Definition resolve_entry (v : Venue) : M unit :=
  trade <~ get_trade ;;
  match Entry trade with
  | EStr s =>
      if text_eqb (upper s) (lit "NOW") then
        symbol_price <~
          call (GetPrice (Symbol trade))
            (get_symbol_price v (Symbol trade)) ;;
        if text_eqb (OrderType trade) (lit "Buy")
        then set_Entry (ENum (fst symbol_price))
        else set_Entry (ENum (snd symbol_price))
      else ret tt
  | ENum _ => ret tt
  end.

(** One [for tp in trade["TP"]] loop: the orders go out one after the
    other, [i] counting the order calls of the run. *)
Fixpoint submit_each (v : Venue) (mk : pyfloat -> order_request)
    (i : nat) (tps : list pyfloat) (results : list text) : M (list text) :=
  match tps with
  | [] => ret results
  | tp :: rest =>
      res <~ call (Submit (mk tp)) (create_order v i (mk tp)) ;;
      submit_each v mk (S i) rest (results ++ [res])
  end.

(** Lines 256-283: the body of the inner [try]. *)
Definition submit_orders (v : Venue) : M unit :=
  trade <~ get_trade ;;
  share <~ lift (match PositionSize trade with
                 | Some p =>
                     truediv_int p
                       (Z.max 1 (Z.of_nat (List.length (TP trade))))
                 | None => Raise KeyError
                 end) ;;
  let market op tp :=
    mkOrder op (Symbol trade) share None (StopLoss trade) tp in
  let pending op tp :=
    mkOrder op (Symbol trade) share (Some (Entry trade)) (StopLoss trade) tp in
  let ot := OrderType trade in
  (if text_eqb ot (lit "Buy") then
     submit_each v (market create_market_buy_order) 0 (TP trade) []
   else if text_eqb ot (lit "Sell") then
     submit_each v (market create_market_sell_order) 0 (TP trade) []
   else if text_eqb ot (lit "Buy Limit") then
     submit_each v (pending create_limit_buy_order) 0 (TP trade) []
   else if text_eqb ot (lit "Sell Limit") then
     submit_each v (pending create_limit_sell_order) 0 (TP trade) []
   else if text_eqb ot (lit "Buy Stop") then
     submit_each v (pending create_stop_buy_order) 0 (TP trade) []
   else if text_eqb ot (lit "Sell Stop") then
     submit_each v (pending create_stop_sell_order) 0 (TP trade) []
   else ret []) ;;;
  reply_text MsgExecuted.

(** Lines 254-286: the orders of one trade inside their own [try]; what
    goes wrong there is reported and goes no further. *)
Definition enter_stage (v : Venue) : M unit :=
  reply_text MsgEntering ;;;
  try_except (submit_orders v) (fun e => reply_text (MsgTradeError e)).

(** Lines 224-286: sizing, the table, and the orders when asked for. *)
Definition size_and_trade (v : Venue) (balance : pyfloat)
    (enter_trade : bool) : M unit :=
  trade <~ get_trade ;;
  let multiplier := _get_multiplier (Symbol trade) (Entry trade) in
  if is_zero multiplier then reply_text MsgMultiplierZero
  else
    stop_loss_pips <~
      lift (pips_between (StopLoss trade) (Entry trade) multiplier) ;;
    if (stop_loss_pips =? 0)%Z then reply_text MsgZeroStop
    else
      pos_size <~
        lift (pos_size_of balance (RiskFactor trade) stop_loss_pips) ;;
      set_PositionSize pos_size ;;;
      tp_pips <~ lift (tp_pips_of (TP trade) (Entry trade) multiplier) ;;
      trade' <~ get_trade ;;
      reply_text (MsgTable trade' balance stop_loss_pips tp_pips) ;;;
      if enter_trade then enter_stage v else ret tt.

Definition is_deployed (state : text) : bool :=
  text_eqb state (lit "DEPLOYED") || text_eqb state (lit "DEPLOYING").

(** [connect_and_process(update, trade, enter_trade)]. *)
Definition connect_and_process (v : Venue) (enter_trade : bool) : M unit :=
  try_except
    (state <~ call GetAccount (get_account v) ;;
     (if negb (is_deployed state)
      then call Deploy (deploy v)
      else ret tt) ;;;
     call WaitConnected (wait_connected v) ;;;
     call Connect (connect v) ;;;
     call WaitSynchronized (wait_synchronized v) ;;;
     balance <~ call GetAccountInformation (get_account_information v) ;;
     reply_text MsgConnected ;;;
     resolve_entry v ;;;
     size_and_trade v balance enter_trade)
    (fun e => reply_text (MsgConnectionError e)).

(** Run [connect_and_process] on the pending trade: the trade as the run
    leaves it and the events of the run. *)
Definition run_connect (v : Venue) (trade : Trade) (enter_trade : bool)
  : Trade * list event :=
  let '(s, _) := connect_and_process v enter_trade (mkSt trade []) in
  (st_trade s, st_out s).

(* ------------------------------------------------------------------ *)
(** ** Conversation handlers *)

Inductive conv_state : Type := CALCULATE | TRADE | DECISION | END.

(** Outcome of a handler: [context.user_data["trade"]], the events, and the
    state handed back to the conversation. *)
Record outcome : Type := mkOutcome {
  user_trade : option Trade;
  events : list event;
  next : conv_state
}.

Definition trade_entry (authorized : bool) (pending : option Trade)
  : outcome :=
  if negb authorized then mkOutcome pending [Reply MsgNotAuthorized] END
  else mkOutcome None [Reply MsgAskTrade] TRADE.

Definition calculate_entry (authorized : bool) (pending : option Trade)
  : outcome :=
  if negb authorized then mkOutcome pending [Reply MsgNotAuthorized] END
  else mkOutcome None [Reply MsgAskCalculate] CALCULATE.

(** Lines 347-359 and 369-381: parse the message unless a trade is pending;
    [inr] carries the reply of the [except] branch. *)
Definition take_trade (RISK_FACTOR : pyfloat) (pending : option Trade)
    (message_text : text) : Trade * list event + list event :=
  match pending with
  | Some t => inl (t, [])
  | None =>
      match parse_signal RISK_FACTOR message_text with
      | Ok (Some t) => inl (t, [Reply MsgParsed])
      | Ok None => inr [Reply MsgParseError]
      | Raise _ => inr [Reply MsgParseError]
      end
  end.

Definition place_trade_handler (RISK_FACTOR : pyfloat) (v : Venue)
    (pending : option Trade) (message_text : text) : outcome :=
  match take_trade RISK_FACTOR pending message_text with
  | inr evs => mkOutcome None evs TRADE
  | inl (t, evs) =>
      let '(_, evs') := run_connect v t true in
      mkOutcome None (evs ++ evs') END
  end.

Definition calculate_trade_handler (RISK_FACTOR : pyfloat) (v : Venue)
    (pending : option Trade) (message_text : text) : outcome :=
  match take_trade RISK_FACTOR pending message_text with
  | inr evs => mkOutcome None evs CALCULATE
  | inl (t, evs) =>
      let '(t', evs') := run_connect v t false in
      mkOutcome (Some t') (evs ++ evs' ++ [Reply MsgAskDecision]) DECISION
  end.

Definition yes_handler (v : Venue) (pending : option Trade) : outcome :=
  match pending with
  | None => mkOutcome None [Reply MsgNoPending] END
  | Some t =>
      let '(_, evs) := run_connect v t true in
      mkOutcome None evs END
  end.

Definition cancel_handler (pending : option Trade) : outcome :=
  mkOutcome None [Reply MsgCancelled] END.

End Bot.

(* ================================================================== *)
(** ** The specification's vocabulary, for comparison with the code *)

Module Spec.
Import B64 Py Conv Bot.

(** Section 4.1: how a pattern is looked for in line 1. *)
Inductive match_kind : Type := Substring | Prefix.

(** Section 4.1: the patterns in their order of precedence, each with the
    order type it selects. *)
Definition order_rules : list (match_kind * string * string) :=
  [ (Substring, "buy limit", "Buy Limit");
    (Substring, "sell limit", "Sell Limit");
    (Substring, "buy stop", "Buy Stop");
    (Substring, "sell stop", "Sell Stop");
    (Prefix, "buy", "Buy");
    (Prefix, "sell", "Sell") ]%string.

(** Match without regard to letter case. *)
Definition matches (k : match_kind) (pattern : string) (line : text) : bool :=
  match k with
  | Substring => contains (lower (lit pattern)) (lower line)
  | Prefix => startswith (lower (lit pattern)) (lower line)
  end.

(** The order type of the first rule that matches. *)
Fixpoint first_rule (rules : list (match_kind * string * string))
    (line : text) : option text :=
  match rules with
  | [] => None
  | (k, pattern, name) :: rest =>
      if matches k pattern line then Some (lit name)
      else first_rule rest line
  end.

Definition spec_order_type (line1 : text) : option text :=
  first_rule order_rules line1.

(** Section 4.1: the kinds of parse error. *)
Inductive ParseError : Type :=
| InsufficientLines
| UnknownOrderType
| UnknownSymbol
| InvalidEntry
| InvalidStopLoss
| InvalidTakeProfit.

(** Last token of a line, empty for a blank line. *)
Definition last_token (line : text) : text :=
  match last_item (split line) with
  | Some w => w
  | None => []
  end.

(** A token that reads as a number. *)
Definition is_number (w : text) : bool :=
  match py_float w with
  | Ok _ => true
  | Raise _ => false
  end.

(** Section 4.1, lines 2 to 5: the entry is the sentinel or a number, the
    stop loss is a number, the first take-profit is a number and so is the
    second when there is a fifth line. *)
Definition entry_ok (lines : list text) : bool :=
  let entry := upper (last_token (line_at lines 1)) in
  text_eqb entry (lit "NOW") || is_number entry.

Definition stop_loss_ok (lines : list text) : bool :=
  is_number (last_token (line_at lines 2)).

Definition take_profits_ok (lines : list text) : bool :=
  is_number (last_token (line_at lines 3))
  && ((List.length lines <=? 4)%nat
      || is_number (last_token (line_at lines 4))).

(** Section 4.1 read as a classifier: the element of the signal that is
    missing or invalid, if any. *)
Definition spec_parse_error (signal_text : text) : option ParseError :=
  let lines := signal_lines signal_text in
  if (List.length lines <? 4)%nat then Some InsufficientLines
  else
    match spec_order_type (line_at lines 0) with
    | None => Some UnknownOrderType
    | Some _ =>
        if negb (mem (upper (last_token (line_at lines 0))) SYMBOLS)
        then Some UnknownSymbol
        else if negb (entry_ok lines) then Some InvalidEntry
        else if negb (stop_loss_ok lines) then Some InvalidStopLoss
        else if negb (take_profits_ok lines) then Some InvalidTakeProfit
        else None
    end.

(** Index and exception of the first order call the venue rejects, the
    calls being numbered from [i]. *)
Fixpoint first_failure (v : Venue) (mk : pyfloat -> order_request)
    (i : nat) (tps : list pyfloat) : option (nat * exn) :=
  match tps with
  | [] => None
  | tp :: rest =>
      match create_order v i (mk tp) with
      | Raise e => Some (O, e)
      | Ok _ =>
          match first_failure v mk (S i) rest with
          | Some (k, e) => Some (S k, e)
          | None => None
          end
      end
  end.

(** The venue operation of an order type, [None] for any other string. *)
Definition op_of (order_type : text) : option venue_op :=
  if text_eqb order_type (lit "Buy") then Some create_market_buy_order
  else if text_eqb order_type (lit "Sell") then Some create_market_sell_order
  else if text_eqb order_type (lit "Buy Limit")
  then Some create_limit_buy_order
  else if text_eqb order_type (lit "Sell Limit")
  then Some create_limit_sell_order
  else if text_eqb order_type (lit "Buy Stop") then Some create_stop_buy_order
  else if text_eqb order_type (lit "Sell Stop")
  then Some create_stop_sell_order
  else None.

Definition is_market (op : venue_op) : bool :=
  match op with
  | create_market_buy_order | create_market_sell_order => true
  | _ => false
  end.

(** The order ticket of one take-profit: its own call, sized [share]. *)
Definition ticket (t : Trade) (op : venue_op) (share : pyfloat)
    (tp : pyfloat) : order_request :=
  mkOrder op (Symbol t) share
    (if is_market op then None else Some (Entry t)) (StopLoss t) tp.

(** The take-profits whose order goes out: all of them, or those up to and
    including the first one the venue rejects. *)
Definition submitted (v : Venue) (mk : pyfloat -> order_request)
    (tps : list pyfloat) : list pyfloat :=
  match first_failure v mk 0 tps with
  | None => tps
  | Some (k, _) => firstn (S k) tps
  end.

(** The one reply that closes the submission. *)
Definition closing_message (v : Venue) (mk : pyfloat -> order_request)
    (tps : list pyfloat) : message :=
  match first_failure v mk 0 tps with
  | None => MsgExecuted
  | Some (_, e) => MsgTradeError e
  end.

Definition with_entry (t : Trade) (e : entry_value) : Trade :=
  {| OrderType := OrderType t; Symbol := Symbol t; Entry := e;
     StopLoss := StopLoss t; TP := TP t; RiskFactor := RiskFactor t;
     PositionSize := PositionSize t |}.

Definition with_position_size (t : Trade) (p : pyfloat) : Trade :=
  {| OrderType := OrderType t; Symbol := Symbol t; Entry := Entry t;
     StopLoss := StopLoss t; TP := TP t; RiskFactor := RiskFactor t;
     PositionSize := Some p |}.

(** The market-now sentinel. *)
Definition is_sentinel (e : entry_value) : bool :=
  match e with
  | EStr s => text_eqb (upper s) (lit "NOW")
  | ENum _ => false
  end.

(** The quote a sentinel entry is replaced by. *)
Definition quote_for (order_type : text) (bid ask : pyfloat) : pyfloat :=
  if text_eqb order_type (lit "Buy") then bid else ask.

(** The venue calls that bring the connection up once the account is
    fetched in state [state], each with its answer. *)
Definition connection_steps (v : Venue) (state : text)
  : list (event * result unit) :=
  (if is_deployed state then [] else [(Deploy, deploy v)])
  ++ [(WaitConnected, wait_connected v);
      (Connect, connect v);
      (WaitSynchronized, wait_synchronized v)].

(** The calls made, up to and including the first that fails, and its
    exception. *)
Fixpoint first_raise (steps : list (event * result unit))
  : list event * option exn :=
  match steps with
  | [] => ([], None)
  | (ev, Ok _) :: rest =>
      let '(evs, r) := first_raise rest in (ev :: evs, r)
  | (ev, Raise e) :: _ => ([ev], Some e)
  end.

(** The calls of a connection that comes up. *)
Definition up_events (state : text) : list event :=
  [GetAccount]
  ++ (if is_deployed state then [] else [Deploy])
  ++ [WaitConnected; Connect; WaitSynchronized; GetAccountInformation].

(** The connection is up and the venue reports [balance]. *)
Definition connected (v : Venue) (state : text) (balance : pyfloat) : Prop :=
  get_account v = Ok state
  /\ snd (first_raise (connection_steps v state)) = None
  /\ get_account_information v = Ok balance.

(** The ways a run is cut short: a venue call fails, or the stop loss is no
    pip away from the entry.  [Aborts v t pre msg]: the events [pre] happen,
    then the diagnostic [msg]. *)
Inductive Aborts (v : Venue) (t : Trade) : list event -> message -> Prop :=
| Abort_account e :
    get_account v = Raise e ->
    Aborts v t [GetAccount] (MsgConnectionError e)
| Abort_connection state evs e :
    get_account v = Ok state ->
    first_raise (connection_steps v state) = (evs, Some e) ->
    Aborts v t (GetAccount :: evs) (MsgConnectionError e)
| Abort_balance state e :
    get_account v = Ok state ->
    snd (first_raise (connection_steps v state)) = None ->
    get_account_information v = Raise e ->
    Aborts v t (up_events state) (MsgConnectionError e)
| Abort_quote state balance e :
    connected v state balance ->
    is_sentinel (Entry t) = true ->
    get_symbol_price v (Symbol t) = Raise e ->
    Aborts v t
      (up_events state ++ [Reply MsgConnected; GetPrice (Symbol t)])
      (MsgConnectionError e)
| Abort_zero_stop state balance x :
    connected v state balance ->
    Entry t = ENum x ->
    pips_between (StopLoss t) (ENum x) (_get_multiplier (Symbol t) (ENum x))
    = Ok 0%Z ->
    Aborts v t (up_events state ++ [Reply MsgConnected]) MsgZeroStop
| Abort_zero_stop_now state balance bid ask :
    connected v state balance ->
    is_sentinel (Entry t) = true ->
    get_symbol_price v (Symbol t) = Ok (bid, ask) ->
    let x := quote_for (OrderType t) bid ask in
    pips_between (StopLoss t) (ENum x) (_get_multiplier (Symbol t) (ENum x))
    = Ok 0%Z ->
    Aborts v t
      (up_events state ++ [Reply MsgConnected; GetPrice (Symbol t)])
      MsgZeroStop.

Definition is_submit (ev : event) : bool :=
  match ev with
  | Submit _ => true
  | _ => false
  end.

Definition is_table (ev : event) : bool :=
  match ev with
  | Reply (MsgTable _ _ _ _) => true
  | _ => false
  end.

End Spec.

(* ================================================================== *)
(** ** Concrete signals and venues *)

Module Scenarios.
Import B64 Py Conv Bot.
Local Open Scope string_scope.

Definition nl : string := String "010" EmptyString.

(** A message made of the given lines. *)
Definition signal (ls : list string) : text := lit (String.concat nl ls).

(** The float a decimal literal denotes. *)
Definition num (q : Q) : pyfloat := B64.lit q.

(** A venue that is up, reports [balance], quotes [bid]/[ask], and answers
    order call [i] with [answer i]. *)
Definition venue (balance bid ask : pyfloat) (answer : nat -> result text)
  : Venue :=
  {| get_account := Ok (lit "DEPLOYED");
     deploy := Ok tt;
     wait_connected := Ok tt;
     connect := Ok tt;
     wait_synchronized := Ok tt;
     get_account_information := Ok balance;
     get_symbol_price := fun _ => Ok (bid, ask);
     create_order := fun i _ => answer i |}.

Definition accept_all (i : nat) : result text := Ok (lit "TRADE_RETCODE_DONE").

(** The first order call is rejected, later ones would be accepted. *)
Definition reject_first (i : nat) : result text :=
  match i with
  | O => Raise (VenueError "rejected")
  | S _ => Ok (lit "TRADE_RETCODE_DONE")
  end.

(** A venue whose account cannot be reached. *)
Definition venue_down : Venue :=
  {| get_account := Raise (VenueError "unreachable");
     deploy := Ok tt;
     wait_connected := Ok tt;
     connect := Ok tt;
     wait_synchronized := Ok tt;
     get_account_information := Ok (num 10000);
     get_symbol_price := fun _ => Ok (num (11 # 10), num (12 # 10));
     create_order := fun i _ => accept_all i |}.

Definition scenario_A : text :=
  signal ["BUY GBPUSD"; "Entry 1.2500"; "SL 1.2450"; "TP 1.2600"].

Definition two_targets : text :=
  signal ["BUY GBPUSD"; "Entry 1.2500"; "SL 1.2450"; "TP 1.2600";
          "TP 1.2700"].

Definition zero_stop : text :=
  signal ["BUY GBPUSD"; "Entry 1.2500"; "SL 1.2500"; "TP 1.2600"].

Definition buy_limit_now : text :=
  signal ["BUY LIMIT GBPUSD"; "Entry NOW"; "SL 1.2450"; "TP 1.2600"].

Definition buy_now_symbol : text :=
  signal ["BUY NOW"; "Entry 1.1"; "SL 1.0"; "TP 1.2"].

Definition no_order_type : text :=
  signal ["HOLD GBPUSD"; "Entry 1.2500"; "SL 1.2450"; "TP 1.2600"].

Definition bad_stop_loss : text :=
  signal ["BUY GBPUSD"; "Entry 1.2500"; "SL none"; "TP 1.2600"].

Definition exponent_entry : text :=
  signal ["BUY EURUSD"; "Entry 1.5e16"; "SL 1"; "TP 2"].

Definition small_entry : text :=
  signal ["BUY EURUSD"; "Entry 0.00005"; "SL 1"; "TP 2"].

(** The trade dict [parse_signal] returns, when it returns one. *)
Definition parsed (signal_text : text) : option Trade :=
  match parse_signal RISK_FACTOR_default signal_text with
  | Ok d => d
  | Raise _ => None
  end.

(** The trade of a signal, for signals that parse. *)
Definition trade_of (signal_text : text) : Trade :=
  match parsed signal_text with
  | Some t => t
  | None => mkTrade [] [] (EStr []) FNaN [] FNaN None
  end.

(** A venue that is up with a balance of 10000 and accepts every order. *)
Definition venue_up : Venue :=
  venue (num 10000) (num (11 # 10)) (num (12 # 10)) accept_all.

(** The same venue rejecting the first order call of a run. *)
Definition venue_rejecting_first : Venue :=
  venue (num 10000) (num (11 # 10)) (num (12 # 10)) reject_first.

End Scenarios.

(* ================================================================== *)
(** ** The shape of a run of [connect_and_process] *)

Module Trace.
Import B64 Py Conv Bot.

Definition is_reply (ev : event) : bool :=
  match ev with
  | Reply _ => true
  | _ => false
  end.

Definition is_quote (ev : event) : bool :=
  match ev with
  | GetPrice _ => true
  | _ => false
  end.

(** The calls of lines 199-213. *)
Definition is_connection_call (ev : event) : bool :=
  match ev with
  | GetAccount | Deploy | WaitConnected | Connect | WaitSynchronized
  | GetAccountInformation => true
  | _ => false
  end.

(** The order requests among the events, in the order they were sent. *)
Fixpoint orders (evs : list event) : list order_request :=
  match evs with
  | [] => []
  | Submit r :: rest => r :: orders rest
  | _ :: rest => orders rest
  end.

(** The reply that closes the inner [try]: line 282 or line 286. *)
Inductive Closing : message -> Prop :=
| Closing_executed : Closing MsgExecuted
| Closing_error (e : exn) : Closing (MsgTradeError e).

(** Lines 217-222: the trade after the entry is resolved and the call this
    took. *)
Inductive Resolved (v : Venue) (t : Trade) : Trade -> list event -> Prop :=
| Resolved_kept :
    Spec.is_sentinel (Entry t) = false ->
    Resolved v t t []
| Resolved_quoted (bid ask : pyfloat) :
    Spec.is_sentinel (Entry t) = true ->
    get_symbol_price v (Symbol t) = Ok (bid, ask) ->
    Resolved v t
      (Spec.with_entry t (ENum (Spec.quote_for (OrderType t) bid ask)))
      [GetPrice (Symbol t)].

(** Lines 225-245 when nothing fails: the distance of the stop loss in
    pips, the position size, and the distance of each take-profit. *)
Definition Sized (t : Trade) (balance : pyfloat) (stop_loss_pips : Z)
    (pos_size : pyfloat) (tp_pips : list Z) : Prop :=
  let multiplier := _get_multiplier (Symbol t) (Entry t) in
  pips_between (StopLoss t) (Entry t) multiplier = Ok stop_loss_pips
  /\ stop_loss_pips <> 0%Z
  /\ pos_size_of balance (RiskFactor t) stop_loss_pips = Ok pos_size
  /\ tp_pips_of (TP t) (Entry t) multiplier = Ok tp_pips.

(** Lines 224-286, started on the trade [t] with its entry resolved: the
    trade as the run leaves it and the events up to the end of the run. *)
Inductive SizingTail (t : Trade) (balance : pyfloat) (enter_trade : bool)
  : Trade -> list event -> Prop :=
| Tail_zero_stop :
    SizingTail t balance enter_trade t [Reply MsgZeroStop]
| Tail_error (e : exn) :
    SizingTail t balance enter_trade t [Reply (MsgConnectionError e)]
| Tail_error_sized (p : pyfloat) (e : exn) :
    SizingTail t balance enter_trade (Spec.with_position_size t p)
      [Reply (MsgConnectionError e)]
| Tail_table (pips : Z) (p : pyfloat) (tp_pips : list Z) :
    Sized t balance pips p tp_pips ->
    enter_trade = false ->
    let t' := Spec.with_position_size t p in
    SizingTail t balance enter_trade t'
      [Reply (MsgTable t' balance pips tp_pips)]
| Tail_orders (pips : Z) (p : pyfloat) (tp_pips : list Z)
    (op : venue_op) (share : pyfloat) (k : nat) (closing : message) :
    Sized t balance pips p tp_pips ->
    enter_trade = true ->
    k = O
    \/ (Spec.op_of (OrderType t) = Some op
        /\ truediv_int p (Z.max 1 (Z.of_nat (List.length (TP t))))
           = Ok share) ->
    Closing closing ->
    let t' := Spec.with_position_size t p in
    SizingTail t balance enter_trade t'
      (Reply (MsgTable t' balance pips tp_pips)
       :: Reply MsgEntering
       :: map (fun tp => Submit (Spec.ticket t' op share tp))
            (firstn k (TP t))
       ++ [Reply closing]).

(** A whole run on the trade [t]: the trade it leaves and its events. *)
Inductive RunShape (v : Venue) (t : Trade) (enter_trade : bool)
  : Trade -> list event -> Prop :=
| Run_down (state : text) (calls rest : list event) (e : exn) :
    calls ++ rest = Spec.up_events state ->
    calls <> [] ->
    RunShape v t enter_trade t (calls ++ [Reply (MsgConnectionError e)])
| Run_quote_fails (state : text) (e : exn) :
    Spec.is_sentinel (Entry t) = true ->
    get_symbol_price v (Symbol t) = Raise e ->
    RunShape v t enter_trade t
      (Spec.up_events state
       ++ [Reply MsgConnected; GetPrice (Symbol t);
           Reply (MsgConnectionError e)])
| Run_up (state : text) (balance : pyfloat) (t1 : Trade)
    (quote : list event) (t' : Trade) (tail : list event) :
    get_account_information v = Ok balance ->
    Resolved v t t1 quote ->
    SizingTail t1 balance enter_trade t' tail ->
    RunShape v t enter_trade t'
      (Spec.up_events state ++ Reply MsgConnected :: quote ++ tail).

End Trace.

(* ================================================================== *)
(** ** The application: the handlers as [main] registers them *)

Module App.
Import B64 Py Conv Bot.

(** The commands the application registers, and any other one. *)
Inductive command : Type :=
| start | help | trade | calculate | yes | no | cancel | other_command.

(** An incoming message: a command, a text that is not a command, or
    anything else (a photo, a sticker, ...). *)
Inductive content : Type :=
| Cmd (c : command)
| Txt (message_text : text)
| NoText.

(** An update of the user: the chat it comes from, whether the sender's
    username is [TELEGRAM_USER] at that moment, and the message. *)
Record update : Type := mkUpdate {
  chat : nat;
  authorized : bool;
  body : content
}.

Definition command_eqb (a b : command) : bool :=
  match a, b with
  | start, start | help, help | trade, trade | calculate, calculate
  | yes, yes | no, no | cancel, cancel | other_command, other_command => true
  | _, _ => false
  end.

(** [CommandHandler(name, ...)] and
    [MessageHandler(filters.TEXT & ~filters.COMMAND, ...)]. *)
Inductive handler_filter : Type :=
| CommandHandler (c : command)
| TextHandler.

Definition accepts (f : handler_filter) (b : content) : bool :=
  match f, b with
  | CommandHandler c, Cmd c' => command_eqb c c'
  | TextHandler, Txt _ => true
  | _, _ => false
  end.

Inductive callback : Type :=
| cb_start_command
| cb_help_command
| cb_unknown_command
| cb_trade_entry
| cb_calculate_entry
| cb_place_trade_handler
| cb_calculate_trade_handler
| cb_yes_handler
| cb_cancel_handler.

(** Lines 420-430: the tables of the [ConversationHandler]. *)
Definition entry_points : list (handler_filter * callback) :=
  [(CommandHandler trade, cb_trade_entry);
   (CommandHandler calculate, cb_calculate_entry)].

Definition states (s : conv_state) : list (handler_filter * callback) :=
  match s with
  | TRADE => [(TextHandler, cb_place_trade_handler)]
  | CALCULATE => [(TextHandler, cb_calculate_trade_handler)]
  | DECISION => [(CommandHandler yes, cb_yes_handler);
                 (CommandHandler no, cb_cancel_handler)]
  | END => []
  end.

Definition fallbacks : list (handler_filter * callback) :=
  [(CommandHandler cancel, cb_cancel_handler)].

(** The first handler of a list that accepts the message. *)
Fixpoint first_match (handlers : list (handler_filter * callback))
    (b : content) : option callback :=
  match handlers with
  | [] => None
  | (f, cb) :: rest => if accepts f b then Some cb else first_match rest b
  end.

(** The handler a conversation picks.  With no conversation open ([END])
    only the entry points are tried; inside one, the handlers of its state,
    then the fallbacks (no re-entry). *)
Definition conversation_handler (state : conv_state) (b : content)
  : option callback :=
  match state with
  | END => first_match entry_points b
  | _ =>
      match first_match (states state) b with
      | Some cb => Some cb
      | None => first_match fallbacks b
      end
  end.

(** Lines 416-435: the handlers are tried in the order [main] adds them and
    the first that accepts the update handles it; an update none accepts is
    dropped. *)
Definition dispatch (state : conv_state) (b : content) : option callback :=
  if accepts (CommandHandler start) b then Some cb_start_command
  else if accepts (CommandHandler help) b then Some cb_help_command
  else
    match conversation_handler state b with
    | Some cb => Some cb
    | None => if accepts TextHandler b then Some cb_unknown_command else None
    end.

(** What the application does that the outside can see: the events of the
    conversation, and the replies of the three handlers outside it. *)
Inductive app_event : Type :=
| Conversation (ev : event)
| ReplyWelcome                      (* line 296 *)
| ReplyHelp                         (* line 312 *)
| ReplyUnknownCommand.              (* line 321 *)

(** [unknown_command]. *)
Definition unknown_command (authorized : bool) : list app_event :=
  if negb authorized then [Conversation (Reply MsgNotAuthorized)]
  else [ReplyUnknownCommand].

(** What is kept between the updates of one user: the state of the
    conversation in each chat (the conversation is kept per chat and user)
    and [context.user_data["trade"]] (kept per user). *)
Record session : Type := mkSession {
  conversations : nat -> conv_state;
  user_data_trade : option Trade
}.

Definition initial : session := mkSession (fun _ => END) None.

Definition set_state (conv : nat -> conv_state) (c : nat) (s : conv_state)
  : nat -> conv_state :=
  fun c' => if Nat.eqb c' c then s else conv c'.

(** The outcome of a conversation callback on the message. *)
Definition run_callback (RISK_FACTOR : pyfloat) (v : Venue) (cb : callback)
    (u : update) (pending : option Trade) : outcome :=
  let message_text :=
    match body u with
    | Txt m => m
    | _ => []
    end in
  match cb with
  | cb_trade_entry => trade_entry (authorized u) pending
  | cb_calculate_entry => calculate_entry (authorized u) pending
  | cb_place_trade_handler =>
      place_trade_handler RISK_FACTOR v pending message_text
  | cb_calculate_trade_handler =>
      calculate_trade_handler RISK_FACTOR v pending message_text
  | cb_yes_handler => yes_handler v pending
  | _ => cancel_handler pending
  end.

(** One update: the session after it and what the application did.  [v]
    holds the answers of the venue while the update is handled. *)
Definition handle (RISK_FACTOR : pyfloat) (s : session)
    (uv : update * Venue) : session * list app_event :=
  let '(u, v) := uv in
  match dispatch (conversations s (chat u)) (body u) with
  | None => (s, [])
  | Some cb_start_command => (s, [ReplyWelcome])
  | Some cb_help_command => (s, [ReplyHelp])
  | Some cb_unknown_command => (s, unknown_command (authorized u))
  | Some cb =>
      let o := run_callback RISK_FACTOR v cb u (user_data_trade s) in
      (mkSession (set_state (conversations s) (chat u) (next o))
         (user_trade o),
       map Conversation (events o))
  end.

(** The updates of a user, one after the other. *)
Fixpoint run (RISK_FACTOR : pyfloat) (s : session)
    (updates : list (update * Venue)) : session * list app_event :=
  match updates with
  | [] => (s, [])
  | uv :: rest =>
      let '(s1, evs1) := handle RISK_FACTOR s uv in
      let '(s2, evs2) := run RISK_FACTOR s1 rest in
      (s2, evs1 ++ evs2)
  end.

Definition is_venue_call (ev : app_event) : bool :=
  match ev with
  | Conversation (Reply _) => false
  | Conversation _ => true
  | _ => false
  end.

Definition is_order (ev : app_event) : bool :=
  match ev with
  | Conversation (Submit _) => true
  | _ => false
  end.

(** In the chat [c] a trade is pending exactly while the decision is
    awaited. *)
Definition pending_iff_decision (c : nat) (s : session) : Prop :=
  match conversations s c with
  | DECISION => user_data_trade s <> None
  | _ => user_data_trade s = None
  end.

End App.

(* ================================================================== *)
(** ** Texts of the ASCII range *)

Module Domain.
Import Py.

(** A character of the ASCII range.  On these characters [is_space],
    [is_linebreak], [lower_char], [upper_char] and the digits read by
    [py_float] are those of Python's [str.strip], [str.split],
    [str.splitlines], [str.lower], [str.upper] and [float]. *)
Definition is_ascii (c : ascii) : bool := (code c <? 128)%nat.

(** A text made of ASCII characters only. *)
Definition ascii_text (s : text) : Prop := forallb is_ascii s = true.

End Domain.

(* ================================================================== *)
(** ** Proof steps for the handlers *)

Import B64 Py Conv Bot.

Ltac run_steps :=
  unfold call;
  unfold set_Entry, set_PositionSize, reply_text;
  unfold bind, lift, ret, emit, get_trade, set_trade, try_except;
  cbn [st_trade st_out fst snd].

Ltac finish_run :=
  cbn [st_trade st_out]; rewrite <- ?app_assoc; reflexivity.

Ltac answer_of r :=
  destruct r as [[] | ?]; cbn [Spec.first_raise fst snd] in *;
  try discriminate.

(* ================================================================== *)
(** * Facts *)

(** ** Rounding to binary64 keeps the order *)

Lemma pow2_pos (e : Z) : 0 < pow2 e.
Proof. unfold pow2. apply Qpower_0_lt. reflexivity. Qed.

Lemma pow2_add (a b : Z) : pow2 (a + b) == pow2 a * pow2 b.
Proof. unfold pow2. apply Qpower_plus. discriminate. Qed.

Lemma pow2_le (a b : Z) : (a <= b)%Z -> pow2 a <= pow2 b.
Proof. intros H. unfold pow2. apply Qpower_le_compat_l; [exact H | discriminate]. Qed.

Lemma pow2_lt (a b : Z) : (a < b)%Z -> pow2 a < pow2 b.
Proof. intros H. unfold pow2. apply Qpower_lt_compat_l; [exact H | reflexivity]. Qed.

Lemma pow2_Z (n : Z) : (0 <= n)%Z -> pow2 n == inject_Z (2 ^ n).
Proof. intros H. unfold pow2. symmetry. apply (Zpower_Qpower 2 n H). Qed.

Lemma rne_cases (x : Q) : rne x = Qfloor x \/ rne x = (Qfloor x + 1)%Z.
Proof.
  unfold rne. destruct (Qcompare _ _); [destruct (Z.even _) | |]; auto.
Qed.

Lemma rne_Z (n : Z) : rne (inject_Z n) = n.
Proof.
  unfold rne. rewrite Qfloor_Z.
  destruct (Qcompare (inject_Z n - inject_Z n) (1 # 2)) eqn:C.
  - apply Qeq_alt in C. exfalso. lra.
  - reflexivity.
  - apply Qgt_alt in C. exfalso. lra.
Qed.

Lemma Qcompare_cases (x y : Q) :
  (Qcompare x y = Eq /\ x == y) \/ (Qcompare x y = Lt /\ x < y)
  \/ (Qcompare x y = Gt /\ y < x).
Proof.
  destruct (Qcompare x y) eqn:C.
  - left. split; [reflexivity | now apply Qeq_alt].
  - right; left. split; [reflexivity | now apply Qlt_alt].
  - right; right. split; [reflexivity | now apply Qgt_alt].
Qed.

Lemma rne_mono (x y : Q) : x <= y -> (rne x <= rne y)%Z.
Proof.
  intros Hxy.
  pose proof (Qfloor_resp_le _ _ Hxy) as Hf.
  destruct (Z.eq_dec (Qfloor x) (Qfloor y)) as [E | N].
  - unfold rne. rewrite <- E.
    destruct (Qcompare_cases (x - inject_Z (Qfloor x)) (1 # 2))
      as [[-> Cx] | [[-> Cx] | [-> Cx]]];
    destruct (Qcompare_cases (y - inject_Z (Qfloor x)) (1 # 2))
      as [[-> Cy] | [[-> Cy] | [-> Cy]]];
    try (destruct (Z.even (Qfloor x))); try lia; exfalso; lra.
  - destruct (rne_cases x) as [-> | ->]; destruct (rne_cases y) as [-> | ->]; lia.
Qed.

Lemma Qmake_times_den (p : Z) (q : positive) :
  (p # q) * inject_Z (Zpos q) == inject_Z p.
Proof. unfold Qeq, Qmult, inject_Z. simpl. lia. Qed.

Lemma Qlog2_bounds (p : Z) (q : positive) :
  (0 < p)%Z ->
  let e0 := (Z.log2 p - Z.log2 (Zpos q))%Z in
  pow2 (e0 - 1) < p # q /\ p # q < pow2 (e0 + 1).
Proof.
  intros Hp e0.
  set (n := Z.log2 p). set (d := Z.log2 (Zpos q)).
  assert (Hn : (0 <= n)%Z) by apply Z.log2_nonneg.
  assert (Hd : (0 <= d)%Z) by apply Z.log2_nonneg.
  destruct (Z.log2_spec p Hp) as [Hp1 Hp2]. fold n in Hp1, Hp2.
  destruct (Z.log2_spec (Zpos q) (Pos2Z.is_pos q)) as [Hq1 Hq2].
  fold d in Hq1, Hq2.
  rewrite Zle_Qle in Hp1, Hq1. rewrite Zlt_Qlt in Hp2, Hq2.
  rewrite <- !pow2_Z in Hp1, Hp2, Hq1, Hq2 by lia.
  pose proof (Qmake_times_den p q) as Ha.
  assert (Hapos : 0 < p # q) by (unfold Qlt; simpl; lia).
  set (a := p # q) in *. set (P := inject_Z p) in *.
  set (D := inject_Z (Zpos q)) in *.
  pose proof (pow2_pos d) as Hd0. pose proof (pow2_pos n) as Hn0.
  split.
  - assert (E : pow2 (e0 - 1) * pow2 (Z.succ d) == pow2 n).
    { rewrite <- pow2_add. unfold e0. fold n d.
      replace (n - d - 1 + Z.succ d)%Z with n by lia. reflexivity. }
    pose proof (pow2_pos (e0 - 1)) as Hx0.
    set (X := pow2 (e0 - 1)) in *. set (S1 := pow2 (Z.succ d)) in *.
    set (N := pow2 n) in *.
    destruct (Qlt_le_dec X a) as [L | L]; [exact L | exfalso].
    assert (a * D <= X * D) by (apply Qmult_le_compat_r; lra).
    assert (X * D < X * S1) by (apply Qmult_lt_l; lra).
    lra.
  - assert (E : pow2 (e0 + 1) * pow2 d == pow2 (Z.succ n)).
    { rewrite <- pow2_add. unfold e0. fold n d.
      replace (n - d + 1 + d)%Z with (Z.succ n) by lia. reflexivity. }
    pose proof (pow2_pos (e0 + 1)) as Hx0.
    set (X := pow2 (e0 + 1)) in *. set (S1 := pow2 d) in *.
    set (N := pow2 (Z.succ n)) in *.
    destruct (Qlt_le_dec a X) as [L | L]; [exact L | exfalso].
    assert (X * S1 <= a * S1) by (apply Qmult_le_compat_r; lra).
    assert (a * S1 <= a * D) by (apply Qmult_le_l; lra).
    lra.
Qed.

Lemma Qlog2_spec (a : Q) :
  0 < a -> pow2 (Qlog2 a) <= a /\ a < pow2 (Qlog2 a + 1).
Proof.
  intros Ha. destruct a as [p q].
  assert (Hp : (0 < p)%Z) by (unfold Qlt in Ha; simpl in Ha; lia).
  destruct (Qlog2_bounds p q Hp) as [B1 B2].
  unfold Qlog2. cbn [Qnum Qden].
  set (e0 := (Z.log2 p - Z.log2 (Zpos q))%Z) in *.
  destruct (Qle_bool (pow2 e0) (p # q)) eqn:C.
  - apply Qle_bool_iff in C. split; [exact C | exact B2].
  - assert (N : ~ pow2 e0 <= p # q).
    { intros H. apply Qle_bool_iff in H. congruence. }
    split; [apply Qlt_le_weak; exact B1 |].
    replace (e0 - 1 + 1)%Z with e0 by lia. apply Qnot_le_lt. exact N.
Qed.

Lemma Qlog2_mono (a b : Q) : 0 < a -> a <= b -> (Qlog2 a <= Qlog2 b)%Z.
Proof.
  intros Ha Hab.
  destruct (Qlog2_spec a Ha) as [A1 A2].
  destruct (Qlog2_spec b) as [B1 B2]; [lra |].
  destruct (Z_le_gt_dec (Qlog2 a) (Qlog2 b)) as [L | G]; [exact L | exfalso].
  assert (pow2 (Qlog2 b + 1) <= pow2 (Qlog2 a)) by (apply pow2_le; lia).
  lra.
Qed.

Lemma ulp_exp_mono (a b : Q) : 0 < a -> a <= b -> (ulp_exp a <= ulp_exp b)%Z.
Proof.
  intros Ha Hab. unfold ulp_exp. pose proof (Qlog2_mono a b Ha Hab). lia.
Qed.

(** Scaling by a power of two. *)
Lemma div_pow2_mul (a : Q) (s : Z) : a / pow2 s * pow2 s == a.
Proof. pose proof (pow2_pos s). field. lra. Qed.

Lemma round_pos_le_pow2 (a : Q) (k : Z) :
  0 < a -> a <= pow2 k -> (ulp_exp a <= k)%Z -> round_pos a <= pow2 k.
Proof.
  intros Ha Hk Hs. unfold round_pos. set (s := ulp_exp a) in *.
  pose proof (pow2_pos s) as Hs0.
  assert (E : pow2 k == inject_Z (2 ^ (k - s)) * pow2 s).
  { rewrite <- pow2_Z by lia. rewrite <- pow2_add.
    replace (k - s + s)%Z with k by lia. reflexivity. }
  rewrite E. apply Qmult_le_compat_r; [| lra].
  rewrite <- Zle_Qle. rewrite <- (rne_Z (2 ^ (k - s))). apply rne_mono.
  apply Qle_shift_div_r; [exact Hs0 |]. rewrite <- E. exact Hk.
Qed.

Lemma round_pos_ge_pow2 (b : Q) (k : Z) :
  0 < b -> pow2 k <= b -> (ulp_exp b <= k)%Z -> pow2 k <= round_pos b.
Proof.
  intros Hb Hk Hs. unfold round_pos. set (s := ulp_exp b) in *.
  pose proof (pow2_pos s) as Hs0.
  assert (E : pow2 k == inject_Z (2 ^ (k - s)) * pow2 s).
  { rewrite <- pow2_Z by lia. rewrite <- pow2_add.
    replace (k - s + s)%Z with k by lia. reflexivity. }
  rewrite E. apply Qmult_le_compat_r; [| lra].
  rewrite <- Zle_Qle. rewrite <- (rne_Z (2 ^ (k - s))) at 1. apply rne_mono.
  apply Qle_shift_div_l; [exact Hs0 |]. rewrite <- E. exact Hk.
Qed.

Lemma round_pos_nonneg (a : Q) : 0 < a -> 0 <= round_pos a.
Proof.
  intros Ha. unfold round_pos. pose proof (pow2_pos (ulp_exp a)) as Hs.
  apply Qmult_le_0_compat; [| lra].
  change 0 with (inject_Z 0). rewrite <- Zle_Qle.
  rewrite <- (rne_Z 0) at 1. apply rne_mono.
  apply Qle_shift_div_l; [exact Hs |]. change (inject_Z 0) with 0. lra.
Qed.

Lemma round_pos_mono (a b : Q) :
  0 < a -> a <= b -> round_pos a <= round_pos b.
Proof.
  intros Ha Hab.
  assert (Hb : 0 < b) by lra.
  pose proof (ulp_exp_mono a b Ha Hab) as Hs.
  destruct (Z.eq_dec (ulp_exp a) (ulp_exp b)) as [E | N].
  - unfold round_pos. rewrite <- E. pose proof (pow2_pos (ulp_exp a)) as Hp.
    apply Qmult_le_compat_r; [| lra].
    rewrite <- Zle_Qle. apply rne_mono.
    apply Qmult_le_compat_r; [exact Hab |].
    apply Qlt_le_weak, Qinv_lt_0_compat, Hp.
  - destruct (Qlog2_spec a Ha) as [A1 A2].
    destruct (Qlog2_spec b Hb) as [B1 B2].
    assert (Hsb : ulp_exp b = (Qlog2 b - (prec - 1))%Z).
    { unfold ulp_exp in *. lia. }
    assert (Hlab : (Qlog2 a < Qlog2 b)%Z).
    { unfold ulp_exp in *. lia. }
    set (k := Z.max (Qlog2 a + 1) (ulp_exp a)).
    apply Qle_trans with (pow2 k).
    + apply round_pos_le_pow2; [exact Ha | | unfold k; lia].
      apply Qle_trans with (pow2 (Qlog2 a + 1)); [lra |].
      apply pow2_le. unfold k. lia.
    + apply Qle_trans with (pow2 (Qlog2 b)).
      * apply pow2_le. unfold k, prec in *. lia.
      * apply round_pos_ge_pow2; [exact Hb | exact B1 |].
        unfold prec in *. lia.
Qed.

Lemma round64_spec (q : Q) : round64_view q (round64 q).
Proof.
  unfold round64.
  destruct (Qcompare_cases q 0) as [[-> C] | [[-> C] | [-> C]]].
  - now constructor.
  - destruct (Qle_bool (pow2 emax) (round_pos (- q))) eqn:B.
    + apply Qle_bool_iff in B. now constructor.
    + constructor; [exact C |]. apply Qnot_le_lt. intros H.
      apply Qle_bool_iff in H. congruence.
  - destruct (Qle_bool (pow2 emax) (round_pos q)) eqn:B.
    + apply Qle_bool_iff in B. now constructor.
    + constructor; [exact C |]. apply Qnot_le_lt. intros H.
      apply Qle_bool_iff in H. congruence.
Qed.

Lemma round64_mono (q1 q2 : Q) :
  q1 <= q2 -> fle (round64 q1) (round64 q2).
Proof.
  intros H.
  destruct (round64_spec q1) as [Z1 | P1 O1 | P1 O1 | N1 O1 | N1 O1];
    destruct (round64_spec q2) as [Z2 | P2 O2 | P2 O2 | N2 O2 | N2 O2];
    cbn [fle]; rewrite ?Qred_correct; try exact I; try lra;
    try (pose proof (round_pos_mono q1 q2 P1 H); lra);
    try (pose proof (round_pos_nonneg q2 P2); lra);
    try (assert (A : 0 < - q1) by lra; pose proof (round_pos_nonneg _ A); lra);
    try (assert (A : 0 < - q2) by lra; assert (B : - q2 <= - q1) by lra;
         pose proof (round_pos_mono _ _ A B); lra).
  - assert (A : 0 < - q1) by lra. pose proof (round_pos_nonneg _ A).
    pose proof (round_pos_nonneg q2 P2). lra.
Qed.

Lemma round64_nonneg (q : Q) : 0 <= q -> fle (FFin 0) (round64 q).
Proof.
  intros H. apply (round64_mono 0 q) in H. exact H.
Qed.

Lemma round64_not_nan (q : Q) : round64 q <> FNaN.
Proof. destruct (round64_spec q); discriminate. Qed.

(** A float between zero and a finite float is finite. *)
Lemma fle_squeeze (y : pyfloat) (q : Q) :
  fle (FFin 0) y -> fle y (FFin q) -> exists u, y = FFin u /\ 0 <= u /\ u <= q.
Proof.
  destruct y as [u | [|] |]; cbn [fle]; intros H0 H1; try contradiction.
  exists u. auto.
Qed.

Lemma Qlog2_ge (a : Q) (k : Z) : 0 < a -> pow2 k <= a -> (k <= Qlog2 a)%Z.
Proof.
  intros Ha Hk. destruct (Qlog2_spec a Ha) as [_ B].
  destruct (Z_le_gt_dec k (Qlog2 a)) as [L | G]; [exact L | exfalso].
  assert (pow2 (Qlog2 a + 1) <= pow2 k) by (apply pow2_le; lia). lra.
Qed.

Lemma round_pos_pos (a : Q) : pow2 emin <= a -> 0 < round_pos a.
Proof.
  intros H. pose proof (pow2_pos emin) as He.
  assert (Ha : 0 < a) by lra.
  pose proof (Qlog2_ge a emin Ha H) as Hl.
  destruct (Qlog2_spec a Ha) as [A _].
  pose proof (pow2_pos (Qlog2 a)).
  apply Qlt_le_trans with (pow2 (Qlog2 a)); [assumption |].
  apply round_pos_ge_pow2; [exact Ha | exact A |].
  unfold ulp_exp, prec. lia.
Qed.

Lemma of_int_Ok (n : Z) (f : pyfloat) :
  of_int n = Ok f -> round64 (inject_Z n) = f.
Proof.
  unfold of_int. destruct (round64 (inject_Z n)); intros H;
    try discriminate; injection H as E; exact E.
Qed.

Lemma inject_Z_pos (n : Z) : (0 < n)%Z -> 1 <= inject_Z n.
Proof. intros H. change 1 with (inject_Z 1). rewrite <- Zle_Qle. lia. Qed.

Lemma of_int_pos (n : Z) (f : pyfloat) :
  (0 < n)%Z -> of_int n = Ok f -> exists q, f = FFin q /\ 0 < q.
Proof.
  intros Hn H. pose proof (inject_Z_pos n Hn) as H1.
  assert (F : forall i, f <> FInf i).
  { intros i E. unfold of_int in H. apply of_int_Ok in H as H'.
    rewrite H', E in H. discriminate. }
  apply of_int_Ok in H. subst f.
  destruct (round64_spec (inject_Z n)) as [Z1 | P1 O1 | P1 O1 | N1 O1 | N1 O1];
    try lra.
  - exfalso. now apply (F false).
  - eexists; split; [reflexivity |].
    rewrite Qred_correct. apply round_pos_pos.
    apply Qle_trans with (pow2 0); [apply pow2_le; unfold emin; lia |].
    exact H1.
Qed.

Lemma of_int_mono (n1 n2 : Z) (f1 f2 : Q) :
  (n1 <= n2)%Z -> of_int n1 = Ok (FFin f1) -> of_int n2 = Ok (FFin f2) ->
  f1 <= f2.
Proof.
  intros Hn H1 H2. apply of_int_Ok in H1, H2.
  assert (H : inject_Z n1 <= inject_Z n2) by (rewrite <- Zle_Qle; exact Hn).
  apply round64_mono in H. rewrite H1, H2 in H. exact H.
Qed.

Lemma is_zero_pos (q : Q) : 0 < q -> is_zero (FFin q) = false.
Proof.
  intros H. cbn. unfold Qzero_bool.
  destruct (Qeq_bool q 0) eqn:E; [| reflexivity].
  apply Qeq_bool_iff in E. lra.
Qed.

Lemma Qneg_bool_pos (q : Q) : 0 < q -> Qneg_bool q = false.
Proof.
  intros H. unfold Qneg_bool.
  assert (E : Qle_bool 0 q = true) by (apply Qle_bool_iff; lra).
  now rewrite E.
Qed.

Lemma of_int_10 : of_int 10 = Ok (FFin 10).
Proof. reflexivity. Qed.

Lemma of_int_100 : of_int 100 = Ok (FFin 100).
Proof. reflexivity. Qed.

(** Division of a finite float by a positive int that converts. *)
Lemma truediv_int_fin (q : Q) (n : Z) (f : Q) :
  of_int n = Ok (FFin f) -> 0 < f ->
  truediv_int (FFin q) n = Ok (round64 (q / f)).
Proof.
  intros H Hf. unfold truediv_int. rewrite H. cbn [rbind].
  unfold truediv. rewrite (is_zero_pos f Hf). reflexivity.
Qed.

(** [math.floor(pos_size * 100) / 100] keeps the order and the sign. *)
Lemma floor_two_decimals_mono (a1 a2 s1 : pyfloat) :
  fle (FFin 0) a2 -> fle a2 a1 -> floor_two_decimals a1 = Ok s1 ->
  exists s2, floor_two_decimals a2 = Ok s2 /\ fle s2 s1 /\ fle (FFin 0) s2.
Proof.
  intros N2 L H.
  unfold floor_two_decimals, mul_int in *. rewrite of_int_100 in *.
  cbn [rbind] in *.
  destruct a1 as [q1 | [|] |]; try (cbn in H; discriminate).
  destruct (fle_squeeze a2 q1 N2 L) as (q2 & -> & Q0 & Q1).
  cbn [fmul] in *.
  assert (M : fle (round64 (q2 * 100)) (round64 (q1 * 100)))
    by (apply round64_mono; lra).
  assert (P : fle (FFin 0) (round64 (q2 * 100)))
    by (apply round64_nonneg; lra).
  destruct (round64 (q1 * 100)) as [w1 | [|] |]; try (cbn in H; discriminate).
  destruct (fle_squeeze _ w1 P M) as (w2 & -> & W0 & W1).
  cbn [math_floor rbind] in *.
  assert (F : (Qfloor w2 <= Qfloor w1)%Z) by (apply Qfloor_resp_le; exact W1).
  assert (F0 : (0 <= Qfloor w2)%Z).
  { change 0%Z with (Qfloor 0). apply Qfloor_resp_le. exact W0. }
  unfold int_truediv in *. cbn [Z.eqb] in *.
  assert (D : inject_Z (Qfloor w2) / inject_Z 100
              <= inject_Z (Qfloor w1) / inject_Z 100).
  { apply Qmult_le_compat_r; [rewrite <- Zle_Qle; exact F | discriminate]. }
  assert (D0 : 0 <= inject_Z (Qfloor w2) / inject_Z 100).
  { apply Qmult_le_0_compat; [| discriminate].
    change 0 with (inject_Z 0). rewrite <- Zle_Qle. exact F0. }
  apply round64_mono in D. apply round64_nonneg in D0.
  destruct (round64 (inject_Z (Qfloor w1) / inject_Z 100)) as [r1 | [|] |]
    eqn:E1; try discriminate.
  - injection H as E2; subst s1.
    destruct (fle_squeeze _ r1 D0 D) as (r2 & E & R0 & R1).
    rewrite E. exists (FFin r2). cbn. auto.
  - exfalso. exact (round64_not_nan _ E1).
Qed.

(** Lines 238-239 for a product [x] of balance and risk that is finite and
    not negative: more pips give a smaller raw size. *)
Lemma raw_size_antitone (x : Q) (p1 p2 : Z) (a1 : pyfloat) (f2 : pyfloat) :
  0 <= x -> (0 < p1 <= p2)%Z ->
  (a <- truediv_int (FFin x) p1 ;; truediv_int a 10) = Ok a1 ->
  of_int p2 = Ok f2 ->
  exists a2, (a <- truediv_int (FFin x) p2 ;; truediv_int a 10) = Ok a2
             /\ fle a2 a1 /\ fle (FFin 0) a2.
Proof.
  intros Hx Hp H1 H2.
  destruct (of_int p1) as [g1 | e1] eqn:G1.
  2:{ unfold truediv_int in H1. rewrite G1 in H1. discriminate. }
  destruct (of_int_pos p1 g1 (proj1 Hp) G1) as (f1 & -> & F1).
  destruct (of_int_pos p2 f2) as (f2' & -> & F2); [lia | exact H2 |].
  pose proof (of_int_mono p1 p2 f1 f2' (proj2 Hp) G1 H2) as F12.
  rewrite (truediv_int_fin x p1 f1 G1 F1) in H1.
  rewrite (truediv_int_fin x p2 f2' H2 F2).
  cbn [rbind] in *.
  assert (D : x / f2' <= x / f1).
  { apply Qle_shift_div_l; [exact F1 |].
    assert (E : x / f2' * f1 == x * (f1 / f2')) by (field; lra).
    rewrite E.
    assert (T : f1 / f2' <= 1) by (apply Qle_shift_div_r; lra).
    set (t := f1 / f2') in *. nra. }
  assert (D0 : 0 <= x / f2').
  { apply Qle_shift_div_l; lra. }
  apply round64_mono in D. apply round64_nonneg in D0.
  unfold truediv_int in *. rewrite of_int_10 in *. cbn [rbind] in *.
  unfold truediv in *. cbn [is_zero] in *.
  change (Qzero_bool 10) with false in *. cbv iota in *.
  destruct (round64 (x / f1)) as [u1 | [|] |] eqn:E1.
  - destruct (fle_squeeze _ u1 D0 D) as (u2 & -> & U0 & U1).
    cbn [fdiv] in *. injection H1 as <-.
    eexists; split; [reflexivity |]. split.
    + apply round64_mono.
      apply Qmult_le_compat_r; [exact U1 | discriminate].
    + apply round64_nonneg. apply Qmult_le_0_compat; [exact U0 | discriminate].
  - cbn in D. destruct (round64 (x / f2')) as [? | [|] |]; contradiction.
  - injection H1 as <-.
    destruct (round64 (x / f2')) as [u2 | [|] |] eqn:E2;
      try (cbn in D0; contradiction).
    + cbn [fdiv]. eexists; split; [reflexivity |]. split.
      * assert (N : round64 (u2 / 10) <> FNaN) by apply round64_not_nan.
        cbn. destruct (round64 (u2 / 10)) as [? | [|] |]; cbn; auto.
      * apply round64_nonneg. cbn in D0.
        apply Qmult_le_0_compat; [exact D0 | discriminate].
    + cbn. eexists; split; [reflexivity |]. cbn. auto.
  - exfalso. exact (round64_not_nan _ E1).
Qed.

Lemma truediv_int_Ok_of_int (x : pyfloat) (n : Z) (a : pyfloat) :
  truediv_int x n = Ok a -> exists f, of_int n = Ok f.
Proof.
  unfold truediv_int. destruct (of_int n) as [f | e]; [eauto | discriminate].
Qed.

(** The size is computed only from a finite product of balance and risk. *)
Lemma pos_size_finite_product (balance risk : pyfloat) (p : Z) (s : pyfloat) :
  (0 < p)%Z -> pos_size_of balance risk p = Ok s ->
  exists x, fmul balance risk = FFin x.
Proof.
  intros Hp H. unfold pos_size_of, raw_pos_size in H.
  destruct (truediv_int (fmul balance risk) p) as [a | e] eqn:A;
    [| discriminate].
  destruct (truediv_int_Ok_of_int _ _ _ A) as [f F].
  destruct (of_int_pos p f Hp F) as (q & -> & Q).
  destruct (fmul balance risk) as [x | i |]; [eauto | exfalso ..].
  - unfold truediv_int in A. rewrite F in A. cbn [rbind] in A.
    unfold truediv in A. rewrite (is_zero_pos q Q) in A.
    injection A as <-. cbn [fdiv] in H. rewrite (Qneg_bool_pos q Q) in H.
    destruct i; cbn in H; discriminate.
  - unfold truediv_int in A. rewrite F in A. cbn [rbind] in A.
    unfold truediv in A. rewrite (is_zero_pos q Q) in A.
    injection A as <-. cbn in H. discriminate.
Qed.

Lemma fmul_nonneg (x y : pyfloat) (q : Q) :
  fle (FFin 0) x -> fle (FFin 0) y -> fmul x y = FFin q -> 0 <= q.
Proof.
  destruct x as [a | [|] |], y as [b | [|] |]; cbn [fle fmul];
    intros Hx Hy H; try contradiction; try discriminate.
  - assert (N : 0 <= a * b) by (apply Qmult_le_0_compat; assumption).
    apply round64_nonneg in N. rewrite H in N. exact N.
  - destruct (Qzero_bool a); discriminate.
  - destruct (Qzero_bool b); discriminate.
Qed.

(** Monotonicity of the position size in the stop-loss distance. *)
Lemma pos_size_antitone (balance risk : pyfloat) (p1 p2 : Z)
    (s1 f2 : pyfloat) :
  fle (FFin 0) balance -> fle (FFin 0) risk -> (0 < p1 <= p2)%Z ->
  of_int p2 = Ok f2 ->
  pos_size_of balance risk p1 = Ok s1 ->
  exists s2, pos_size_of balance risk p2 = Ok s2
             /\ fle s2 s1 /\ fle (FFin 0) s2.
Proof.
  intros Hb Hr Hp F2 H.
  destruct (pos_size_finite_product _ _ _ _ (proj1 Hp) H) as [x X].
  pose proof (fmul_nonneg _ _ _ Hb Hr X) as Hx.
  unfold pos_size_of, raw_pos_size in *. rewrite X in *.
  destruct (a <- truediv_int (FFin x) p1;; truediv_int a 10) as [a1 | e]
    eqn:A1; [| discriminate].
  destruct (raw_size_antitone x p1 p2 a1 f2 Hx Hp A1 F2) as (a2 & A2 & L & N).
  rewrite A2. cbn [rbind] in *.
  exact (floor_two_decimals_mono a1 a2 s1 N L H).
Qed.

Lemma pos_size_nonneg (balance risk : pyfloat) (p : Z) (s : pyfloat) :
  fle (FFin 0) balance -> fle (FFin 0) risk -> (0 < p)%Z ->
  pos_size_of balance risk p = Ok s -> fle (FFin 0) s.
Proof.
  intros Hb Hr Hp H.
  assert (F : exists f, of_int p = Ok f).
  { unfold pos_size_of, raw_pos_size in H.
    destruct (truediv_int (fmul balance risk) p) as [a | e] eqn:A;
      [| discriminate].
    exact (truediv_int_Ok_of_int _ _ _ A). }
  destruct F as [f F].
  destruct (pos_size_antitone balance risk p p s f Hb Hr) as (s2 & E & _ & N);
    [lia | exact F | exact H |].
  rewrite H in E. injection E as <-. exact N.
Qed.

(** ** The rounding is to a nearest point of the binary64 grid *)

Lemma rne_nearest (x : Q) : Qabs (inject_Z (rne x) - x) <= 1 # 2.
Proof.
  pose proof (Qfloor_le x) as L. pose proof (Qlt_floor x) as U.
  rewrite inject_Z_plus in U. change (inject_Z 1) with 1 in U.
  apply Qabs_Qle_condition. unfold rne.
  destruct (Qcompare_cases (x - inject_Z (Qfloor x)) (1 # 2))
    as [[-> C] | [[-> C] | [-> C]]].
  - destruct (Z.even (Qfloor x)); rewrite ?inject_Z_plus;
      change (inject_Z 1) with 1; split; lra.
  - split; lra.
  - rewrite inject_Z_plus. change (inject_Z 1) with 1. split; lra.
Qed.

(** The rounded value is a multiple of the unit in the last place, with at
    most 53 bits, and is off by at most half that unit. *)
Lemma round_pos_grid (a : Q) :
  0 < a ->
  exists m : Z,
    round_pos a == inject_Z m * pow2 (ulp_exp a)
    /\ (0 <= m <= 2 ^ prec)%Z
    /\ (emin <= ulp_exp a)%Z.
Proof.
  intros Ha. exists (rne (a / pow2 (ulp_exp a))).
  split; [reflexivity |].
  pose proof (pow2_pos (ulp_exp a)) as Hs.
  destruct (Qlog2_spec a Ha) as [_ B].
  split; [| unfold ulp_exp; lia].
  split.
  - rewrite <- (rne_Z 0) at 1. apply rne_mono.
    apply Qle_shift_div_l; [exact Hs |]. change (inject_Z 0) with 0. lra.
  - rewrite <- (rne_Z (2 ^ prec)). apply rne_mono.
    apply Qle_shift_div_r; [exact Hs |].
    rewrite <- pow2_Z by (unfold prec; lia). rewrite <- pow2_add.
    apply Qle_trans with (pow2 (Qlog2 a + 1)); [lra |].
    apply pow2_le. unfold ulp_exp, prec. lia.
Qed.

Lemma round_pos_nearest (a : Q) :
  0 < a -> Qabs (round_pos a - a) <= (1 # 2) * pow2 (ulp_exp a).
Proof.
  intros Ha. unfold round_pos. set (s := ulp_exp a).
  pose proof (pow2_pos s) as Hs.
  pose proof (rne_nearest (a / pow2 s)) as N.
  assert (E : inject_Z (rne (a / pow2 s)) * pow2 s - a
              == (inject_Z (rne (a / pow2 s)) - a / pow2 s) * pow2 s)
    by (field; lra).
  rewrite E, Qabs_Qmult, (Qabs_pos (pow2 s)) by lra.
  apply Qmult_le_compat_r; [exact N | lra].
Qed.

(** Values that Python prints in a known way. *)
Example float_repr_examples :
  map (fun q => string_of_list_ascii (float_repr (B64.lit q)))
    [1 # 10; 125 # 100; 12345 # 10000; 1 # 10000; 1 # 100000;
     10000000000000000; 1000000000000000; 1 # 3; 100; 29 # 100]
  = ["0.1"; "1.25"; "1.2345"; "0.0001"; "1e-05"; "1e+16";
     "1000000000000000.0"; "0.3333333333333333"; "100.0"; "0.29"]%string.
Proof. vm_compute. reflexivity. Qed.

(** Strings that [float] reads, and strings it refuses. *)
Example py_float_examples :
  map (fun s => match py_float (Py.lit s) with
                | Ok x => string_of_list_ascii (float_repr x)
                | Raise _ => "ValueError"%string
                end)
    ["1.2500"; "1.14336"; ".5"; "5."; "1e5"; "1E-2"; "1_000.5"; "-inf";
     "NAN"; "1e400"; "."; "1e"; "1__0"; "0x10"; "now"; ""]%string
  = ["1.25"; "1.14336"; "0.5"; "5.0"; "100000.0"; "0.01"; "1000.5"; "-inf";
     "nan"; "inf"; "ValueError"; "ValueError"; "ValueError"; "ValueError";
     "ValueError"; "ValueError"]%string.
Proof. vm_compute. reflexivity. Qed.

(** The loss of precision the flooring is exposed to: 0.29 * 100 is just
    below 29, so a raw size of 0.29 is floored to 0.28. *)
Example floor_two_decimals_of_0_29 :
  Bot.floor_two_decimals (B64.lit (29 # 100)) = Ok (B64.lit (28 # 100)).
Proof. vm_compute. reflexivity. Qed.

(* ================================================================== *)
(** ** The parser *)

(** *** Lines of a signal hold a word *)

Lemma lstrip_head (s : text) (c : ascii) (r : text) :
  lstrip s = c :: r -> is_space c = false.
Proof.
  induction s as [| x s IH]; cbn; [discriminate |].
  destruct (is_space x) eqn:E; [exact IH |].
  intros H. injection H as <- _. exact E.
Qed.

Lemma split_from_word (s cur : text) :
  cur <> [] \/ existsb (fun c => negb (is_space c)) s = true ->
  split_from cur s <> [].
Proof.
  revert cur. induction s as [| c s IH]; intros cur H; cbn.
  - destruct H as [H | H]; [| discriminate]. destruct cur; congruence.
  - destruct (is_space c) eqn:E.
    + destruct cur; [| discriminate].
      apply IH. right. destruct H as [H | H]; [congruence |].
      cbn in H. rewrite E in H. exact H.
    + apply IH. left. discriminate.
Qed.

Lemma strip_has_word (l : text) : strip l <> [] -> split (strip l) <> [].
Proof.
  intros H. apply split_from_word. right.
  unfold strip in *.
  destruct (lstrip (rev (lstrip l))) as [| c r] eqn:E; [now contradiction H |].
  apply lstrip_head in E. cbn [rev]. rewrite existsb_app. cbn.
  rewrite E. cbn. apply orb_true_r.
Qed.

Lemma last_item_some (l : list text) : l <> [] -> exists w, last_item l = Some w.
Proof.
  induction l as [| x l IH]; [congruence |]. intros _.
  destruct l as [| y l]; [now exists x |].
  destruct IH as [w Hw]; [discriminate |]. exists w. exact Hw.
Qed.

Lemma signal_lines_word (signal_text l : text) :
  In l (signal_lines signal_text) -> last_word l = Ok (Spec.last_token l).
Proof.
  unfold signal_lines. intros H. apply in_map_iff in H.
  destruct H as (l0 & <- & H). apply filter_In in H. destruct H as [_ H].
  assert (N : strip l0 <> []) by (destruct (strip l0); [discriminate | congruence]).
  destruct (last_item_some _ (strip_has_word l0 N)) as [w Hw].
  unfold last_word, Spec.last_token. now rewrite Hw.
Qed.

Lemma line_at_word (signal_text : text) (i : nat) :
  (i < List.length (signal_lines signal_text))%nat ->
  last_word (line_at (signal_lines signal_text) i)
  = Ok (Spec.last_token (line_at (signal_lines signal_text) i)).
Proof.
  intros H. apply (signal_lines_word signal_text). unfold line_at.
  now apply nth_In.
Qed.

(** *** Order type: the code's chain of tests is the table of the
    specification *)

Lemma order_type_of_spec (line1 : text) :
  order_type_of (lower line1) = Spec.spec_order_type line1.
Proof. reflexivity. Qed.

(** A pattern found anywhere in the line wins over a prefix, and a line
    that merely mentions "buy" does not start with it. *)
Example order_type_examples :
  map (fun s => option_map string_of_list_ascii
                  (order_type_of (lower (Py.lit s))))
    ["BUY GBPUSD"; "Sell Limit EURUSD"; "buyer sell stop usdjpy";
     "SELL buy limit"; "please buy"; "sell"]%string
  = [Some "Buy"; Some "Sell Limit"; Some "Sell Stop"; Some "Buy Limit";
     None; Some "Sell"]%string.
Proof. vm_compute. reflexivity. Qed.

(** *** What [parse_signal] returns, read against section 4.1 *)

Lemma parse_tp_list_ok (signal_text : text) :
  (4 <= List.length (signal_lines signal_text))%nat ->
  if Spec.take_profits_ok (signal_lines signal_text)
  then exists tps, parse_tp_list (signal_lines signal_text) = Ok tps
                   /\ (1 <= List.length tps <= 2)%nat
  else exists e, parse_tp_list (signal_lines signal_text) = Raise e.
Proof.
  intros Hlen. unfold Spec.take_profits_ok, parse_tp_list.
  rewrite (line_at_word signal_text 3) by lia. cbn [rbind].
  unfold Spec.is_number.
  destruct (py_float (Spec.last_token (line_at _ 3))) as [tp1 | e1];
    cbn [rbind andb]; [| eauto].
  rewrite Nat.ltb_antisym.
  destruct (List.length (signal_lines signal_text) <=? 4)%nat eqn:L;
    cbn [negb orb].
  - exists [tp1]. split; [reflexivity | cbn; lia].
  - apply Nat.leb_gt in L.
    rewrite (line_at_word signal_text 4) by lia. cbn [rbind].
    destruct (py_float (Spec.last_token (line_at _ 4))) as [tp2 | e2];
      cbn [rbind]; [| eauto].
    exists [tp1; tp2]. split; [reflexivity | cbn; lia].
Qed.

Lemma parse_signal_cases (RISK_FACTOR : pyfloat) (signal_text : text) :
  (Spec.spec_parse_error signal_text <> None
   /\ parse_signal RISK_FACTOR signal_text = Ok None)
  \/
  (Spec.spec_parse_error signal_text = None
   /\ exists t,
        parse_signal RISK_FACTOR signal_text = Ok (Some t)
        /\ Spec.spec_order_type (line_at (signal_lines signal_text) 0)
           = Some (OrderType t)
        /\ Symbol t
           = upper (Spec.last_token (line_at (signal_lines signal_text) 0))
        /\ (1 <= List.length (TP t) <= 2)%nat
        /\ RiskFactor t = RISK_FACTOR
        /\ PositionSize t = None).
Proof.
  pose proof (line_at_word signal_text) as W.
  pose proof (parse_tp_list_ok signal_text) as T.
  unfold parse_signal, Spec.spec_parse_error.
  set (lines := signal_lines signal_text) in *.
  destruct lines as [| l0 rest] eqn:E.
  { left. split; [discriminate | reflexivity]. }
  rewrite <- E in *. rewrite order_type_of_spec.
  replace l0 with (line_at lines 0) by (rewrite E; reflexivity).
  destruct (List.length lines <? 4)%nat eqn:L.
  - left. split; [discriminate |].
    destruct (Spec.spec_order_type (line_at lines 0)); [| reflexivity].
    rewrite W by (rewrite E; cbn; lia). cbn [rbind].
    destruct (negb (mem _ SYMBOLS)); reflexivity.
  - apply Nat.ltb_ge in L.
    destruct (Spec.spec_order_type (line_at lines 0)) as [ot |];
      [| left; split; [discriminate | reflexivity]].
    rewrite !W by lia. cbn [rbind].
    destruct (negb (mem _ SYMBOLS));
      [left; split; [discriminate | reflexivity] |].
    unfold Spec.entry_ok, parse_entry, Spec.is_number.
    set (entry_raw := upper (Spec.last_token (line_at lines 1))).
    destruct (text_eqb entry_raw (Py.lit "NOW")) eqn:N; cbn [negb orb].
    + unfold Spec.stop_loss_ok, Spec.is_number. cbn [or_empty].
      destruct (py_float (Spec.last_token (line_at lines 2))) as [sl | e2];
        cbn [negb or_empty];
        [| left; split; [discriminate | reflexivity]].
      specialize (T L).
      destruct (Spec.take_profits_ok lines); cbn [negb].
      * destruct T as (tps & -> & Ht). cbn [or_empty].
        right. split; [reflexivity |]. eexists. split; [reflexivity |].
        cbn. auto.
      * destruct T as (e & ->). left. split; [discriminate | reflexivity].
    + destruct (py_float entry_raw) as [x | e1]; cbn [rbind negb or_empty];
        [| left; split; [discriminate | reflexivity]].
      unfold Spec.stop_loss_ok, Spec.is_number.
      destruct (py_float (Spec.last_token (line_at lines 2))) as [sl | e2];
        cbn [negb or_empty];
        [| left; split; [discriminate | reflexivity]].
      specialize (T L).
      destruct (Spec.take_profits_ok lines); cbn [negb].
      * destruct T as (tps & -> & Ht). cbn [or_empty].
        right. split; [reflexivity |]. eexists. split; [reflexivity |].
        cbn. auto.
      * destruct T as (e & ->). left. split; [discriminate | reflexivity].
Qed.

Lemma lower_n_upper (c : ascii) :
  lower_char c = "n"%char -> upper_char c = "N"%char.
Proof.
  destruct c as [[|] [|] [|] [|] [|] [|] [|] [|]]; vm_compute;
    intros H; try discriminate H; reflexivity.
Qed.

Lemma lower_o_upper (c : ascii) :
  lower_char c = "o"%char -> upper_char c = "O"%char.
Proof.
  destruct c as [[|] [|] [|] [|] [|] [|] [|] [|]]; vm_compute;
    intros H; try discriminate H; reflexivity.
Qed.

Lemma lower_w_upper (c : ascii) :
  lower_char c = "w"%char -> upper_char c = "W"%char.
Proof.
  destruct c as [[|] [|] [|] [|] [|] [|] [|] [|]]; vm_compute;
    intros H; try discriminate H; reflexivity.
Qed.

(** A token that is "now" in some letter case upper-cases to "NOW". *)
Lemma lower_now_upper (w : text) :
  lower w = Py.lit "now" -> upper w = Py.lit "NOW".
Proof.
  destruct w as [| a [| b [| c [| d w]]]]; try discriminate.
  cbn [lower upper map]. intros H. injection H as Ha Hb Hc.
  change (Py.lit "NOW") with ["N"; "O"; "W"]%char.
  now rewrite (lower_n_upper a Ha), (lower_o_upper b Hb), (lower_w_upper c Hc).
Qed.

(** C5 (as amended).  Whatever element of a signal, an ASCII text, is
    missing or invalid (too few lines, order type, symbol, entry, stop loss,
    take-profit), [parse_signal] fails, and always in the same way: it
    returns the empty dict, which carries no error kind. *)
Theorem C5_missing_element_gives_empty_dict
    (RISK_FACTOR : pyfloat) (signal_text : text) (k : Spec.ParseError) :
  Domain.ascii_text signal_text ->
  Spec.spec_parse_error signal_text = Some k ->
  parse_signal RISK_FACTOR signal_text = Ok None.
Proof.
  intros _ H.
  destruct (parse_signal_cases RISK_FACTOR signal_text) as [[_ E] | [N _]].
  - exact E.
  - congruence.
Qed.

Lemma C5_witness :
  Domain.ascii_text Scenarios.bad_stop_loss
  /\ Spec.spec_parse_error Scenarios.bad_stop_loss
     = Some Spec.InvalidStopLoss
  /\ parse_signal RISK_FACTOR_default Scenarios.bad_stop_loss = Ok None.
Proof.
  split; [vm_compute; reflexivity |].
  split; [vm_compute; reflexivity |].
  apply (C5_missing_element_gives_empty_dict RISK_FACTOR_default
           Scenarios.bad_stop_loss Spec.InvalidStopLoss);
    vm_compute; reflexivity.
Defined.

(** C5 as stated fails: a signal without an order type and a signal with an
    invalid stop loss, both ASCII texts, get the very same result, so no
    reading of the result tells the kind of error. *)
Lemma C5_counterexample :
  ~ exists kind_of : result Dict -> Spec.ParseError,
      forall signal_text k,
        Domain.ascii_text signal_text ->
        Spec.spec_parse_error signal_text = Some k ->
        kind_of (parse_signal RISK_FACTOR_default signal_text) = k.
Proof.
  intros [kind_of H].
  pose proof (H Scenarios.no_order_type Spec.UnknownOrderType
                ltac:(vm_compute; reflexivity)) as H1.
  pose proof (H Scenarios.bad_stop_loss Spec.InvalidStopLoss
                ltac:(vm_compute; reflexivity)) as H2.
  assert (E1 : parse_signal RISK_FACTOR_default Scenarios.no_order_type
               = Ok None) by (vm_compute; reflexivity).
  assert (E2 : parse_signal RISK_FACTOR_default Scenarios.bad_stop_loss
               = Ok None) by (vm_compute; reflexivity).
  rewrite E1 in H1. rewrite E2 in H2.
  assert (K1 : kind_of (Ok None) = Spec.UnknownOrderType)
    by (apply H1; vm_compute; reflexivity).
  assert (K2 : kind_of (Ok None) = Spec.InvalidStopLoss)
    by (apply H2; vm_compute; reflexivity).
  congruence.
Qed.

(** A signal with every element in place parses. *)
Lemma parse_signal_complete (RISK_FACTOR : pyfloat) (signal_text : text) :
  Spec.spec_parse_error signal_text = None ->
  exists t, parse_signal RISK_FACTOR signal_text = Ok (Some t).
Proof.
  intros H.
  destruct (parse_signal_cases RISK_FACTOR signal_text)
    as [[N _] | [_ (t & E & _)]]; [congruence | eauto].
Qed.

(** C8 (as amended).  For an ASCII text, the order type is read off the
    first non-blank line without regard to letter case by the first rule
    that matches, in the order "buy limit", "sell limit", "buy stop", "sell
    stop" (anywhere in the line), then "buy", "sell" (at its start); the
    code's chain of tests is that table.  When a rule matches, every trade
    the parse returns carries the order type of that rule, and the parse
    does return a trade as soon as nothing else in the signal is missing or
    invalid.  When no rule matches, or there is no line at all, the parse
    fails by returning the empty dict, which names no kind of error. *)
Theorem C8_order_type_precedence
    (RISK_FACTOR : pyfloat) (signal_text : text) :
  Domain.ascii_text signal_text ->
  match signal_lines signal_text with
  | [] => parse_signal RISK_FACTOR signal_text = Ok None
  | line1 :: _ =>
      order_type_of (lower line1) = Spec.first_rule Spec.order_rules line1
      /\ match Spec.first_rule Spec.order_rules line1 with
         | Some order_type =>
             (forall t, parse_signal RISK_FACTOR signal_text = Ok (Some t) ->
                        OrderType t = order_type)
             /\ (Spec.spec_parse_error signal_text = None ->
                 exists t,
                   parse_signal RISK_FACTOR signal_text = Ok (Some t)
                   /\ OrderType t = order_type)
             /\ (Spec.spec_parse_error signal_text <> None ->
                 parse_signal RISK_FACTOR signal_text = Ok None)
         | None => parse_signal RISK_FACTOR signal_text = Ok None
         end
  end.
Proof.
  intros _.
  destruct (parse_signal_cases RISK_FACTOR signal_text)
    as [[N E] | [N (t & E & O & _)]].
  - rewrite E. destruct (signal_lines signal_text) as [| line1 rest];
      [reflexivity |].
    split; [reflexivity |].
    destruct (Spec.first_rule Spec.order_rules line1); [| reflexivity].
    split; [intros t0 H; discriminate H |].
    split; [intros H; now contradiction N | reflexivity].
  - destruct (signal_lines signal_text) as [| line1 rest] eqn:L.
    + unfold parse_signal in E. rewrite L in E. discriminate.
    + split; [reflexivity |].
      change (line_at (line1 :: rest) 0) with line1 in O.
      unfold Spec.spec_order_type in O.
      rewrite O, E.
      split; [intros t' H; now injection H as <- |].
      split; [intros _; exists t; auto |].
      intros H. now contradiction H.
Qed.

Lemma C8_witness :
  let signal_text := Scenarios.buy_limit_now in
  match signal_lines signal_text with
  | [] => parse_signal RISK_FACTOR_default signal_text = Ok None
  | line1 :: _ =>
      order_type_of (lower line1) = Spec.first_rule Spec.order_rules line1
      /\ match Spec.first_rule Spec.order_rules line1 with
         | Some order_type =>
             (forall t,
                parse_signal RISK_FACTOR_default signal_text = Ok (Some t) ->
                OrderType t = order_type)
             /\ (Spec.spec_parse_error signal_text = None ->
                 exists t,
                   parse_signal RISK_FACTOR_default signal_text = Ok (Some t)
                   /\ OrderType t = order_type)
             /\ (Spec.spec_parse_error signal_text <> None ->
                 parse_signal RISK_FACTOR_default signal_text = Ok None)
         | None => parse_signal RISK_FACTOR_default signal_text = Ok None
         end
  end.
Proof.
  apply (C8_order_type_precedence RISK_FACTOR_default
           Scenarios.buy_limit_now).
  vm_compute. reflexivity.
Defined.

(** C8 as stated fails in its last clause: a first line that matches no
    rule gives the empty dict, and so does a signal whose order type is found
    and whose stop loss is invalid; no test on the result tells that the
    order type was the element not recognised. *)
Lemma C8_counterexample :
  ~ exists unknown_order_type : result Dict -> bool,
      forall signal_text,
        Domain.ascii_text signal_text ->
        unknown_order_type (parse_signal RISK_FACTOR_default signal_text)
        = match Spec.spec_order_type (line_at (signal_lines signal_text) 0)
          with
          | None => true
          | Some _ => false
          end.
Proof.
  intros [unknown_order_type H].
  pose proof (H Scenarios.no_order_type ltac:(vm_compute; reflexivity))
    as H1.
  pose proof (H Scenarios.bad_stop_loss ltac:(vm_compute; reflexivity))
    as H2.
  assert (E1 : parse_signal RISK_FACTOR_default Scenarios.no_order_type
               = Ok None) by (vm_compute; reflexivity).
  assert (E2 : parse_signal RISK_FACTOR_default Scenarios.bad_stop_loss
               = Ok None) by (vm_compute; reflexivity).
  assert (O1 : Spec.spec_order_type
                 (line_at (signal_lines Scenarios.no_order_type) 0) = None)
    by (vm_compute; reflexivity).
  assert (O2 : Spec.spec_order_type
                 (line_at (signal_lines Scenarios.bad_stop_loss) 0)
               = Some (Py.lit "Buy"))
    by (vm_compute; reflexivity).
  rewrite E1, O1 in H1. rewrite E2, O2 in H2. congruence.
Qed.

(** C10.  "NOW" is in the list of symbols, so in an ASCII text a first line
    that names an order type and ends in the token "now", in any letter
    case, gives a trade whose symbol is "NOW" as soon as the other lines
    parse. *)
Theorem C10_now_accepted_as_symbol
    (RISK_FACTOR : pyfloat) (signal_text : text) (order_type : text) :
  let lines := signal_lines signal_text in
  Domain.ascii_text signal_text ->
  Spec.spec_order_type (line_at lines 0) = Some order_type ->
  lower (Spec.last_token (line_at lines 0)) = Py.lit "now" ->
  (4 <= List.length lines)%nat ->
  Spec.entry_ok lines = true ->
  Spec.stop_loss_ok lines = true ->
  Spec.take_profits_ok lines = true ->
  mem (Py.lit "NOW") SYMBOLS = true
  /\ exists t, parse_signal RISK_FACTOR signal_text = Ok (Some t)
               /\ Symbol t = Py.lit "NOW"
               /\ OrderType t = order_type.
Proof.
  intros lines _ Ho Hs Hl He Hsl Htp. split; [reflexivity |].
  apply lower_now_upper in Hs.
  assert (N : Spec.spec_parse_error signal_text = None).
  { unfold Spec.spec_parse_error. fold lines.
    apply Nat.ltb_ge in Hl. rewrite Hl, Ho, Hs, He, Hsl, Htp. reflexivity. }
  destruct (parse_signal_cases RISK_FACTOR signal_text)
    as [[C _] | [_ (t & E & O & S & _)]]; [congruence |].
  exists t. fold lines in O, S. rewrite Hs in S. rewrite Ho in O.
  split; [exact E |]. split; [exact S | congruence].
Qed.

Lemma C10_witness :
  mem (Py.lit "NOW") SYMBOLS = true
  /\ exists t,
       parse_signal RISK_FACTOR_default Scenarios.buy_now_symbol = Ok (Some t)
       /\ Symbol t = Py.lit "NOW"
       /\ OrderType t = Py.lit "Buy".
Proof.
  apply (C10_now_accepted_as_symbol RISK_FACTOR_default
           Scenarios.buy_now_symbol (Py.lit "Buy"));
    vm_compute; solve [reflexivity | intros H; discriminate H].
Defined.

(* ================================================================== *)
(** ** The pip multiplier *)

(** *** The printed digits *)

Lemma digit_char_is_digit (d : Z) :
  (0 <= d < 10)%Z -> is_digit (digit_char d) = true.
Proof.
  intros H.
  assert (C : (d = 0 \/ d = 1 \/ d = 2 \/ d = 3 \/ d = 4 \/ d = 5 \/ d = 6
               \/ d = 7 \/ d = 8 \/ d = 9)%Z) by lia.
  repeat (destruct C as [-> | C]; [reflexivity |]). subst d. reflexivity.
Qed.

Lemma Z_digits_are_digits (fuel : nat) (n : Z) (acc : text) :
  forallb is_digit acc = true ->
  forallb is_digit (Z_digits fuel n acc) = true.
Proof.
  revert n acc. induction fuel as [| f IH]; intros n acc H; cbn; [exact H |].
  assert (D : forallb is_digit (digit_char (n mod 10) :: acc) = true).
  { cbn [forallb]. rewrite H, digit_char_is_digit; [reflexivity |].
    apply Z.mod_pos_bound. lia. }
  destruct (n <? 10)%Z; [exact D | apply IH; exact D].
Qed.

Lemma forallb_rev {A : Type} (f : A -> bool) (l : list A) :
  forallb f (rev l) = forallb f l.
Proof.
  induction l as [| x l IH]; [reflexivity |].
  cbn [rev forallb]. rewrite forallb_app, IH. cbn. rewrite andb_true_r.
  apply andb_comm.
Qed.

Lemma drop_zeros_keeps (f : ascii -> bool) (s : text) :
  forallb f s = true -> forallb f (drop_zeros s) = true.
Proof.
  induction s as [| c s IH]; [auto |]. intros H. cbn [drop_zeros].
  destruct (is_char 48 c); [| exact H].
  cbn in H. apply andb_prop in H. apply IH, H.
Qed.

Lemma shortest_digits_are_digits (a : Q) :
  forallb is_digit (fst (shortest_digits a)) = true.
Proof.
  unfold shortest_digits.
  destruct (shortest_from 17 a (Qlog10 a) 1) as [c p]. cbn [fst].
  unfold rstrip_zeros. rewrite forallb_rev. apply drop_zeros_keeps.
  rewrite forallb_rev. apply Z_digits_are_digits. reflexivity.
Qed.

(** *** Characters after the point in positional layout *)

Lemma is_digit_not_point (c : ascii) :
  is_digit c = true -> char_eqb c "."%char = false.
Proof.
  destruct c as [[|] [|] [|] [|] [|] [|] [|] [|]]; vm_compute;
    intros H; try discriminate H; reflexivity.
Qed.

Lemma cut_at_digits (ds rest : text) :
  forallb is_digit ds = true ->
  cut_at "."%char (ds ++ "."%char :: rest) = (ds, Some rest).
Proof.
  induction ds as [| d ds IH]; intros H; [reflexivity |].
  cbn in H. apply andb_prop in H. destruct H as [H1 H2].
  cbn [app cut_at]. rewrite (is_digit_not_point d H1), (IH H2). reflexivity.
Qed.

Lemma cut_at_no_point (ds : text) :
  forallb is_digit ds = true -> cut_at "."%char ds = (ds, None).
Proof.
  induction ds as [| d ds IH]; intros H; [reflexivity |].
  cbn in H. apply andb_prop in H. destruct H as [H1 H2].
  cbn [cut_at]. rewrite (is_digit_not_point d H1), (IH H2). reflexivity.
Qed.

Lemma second_field_digits (ip fp : text) :
  forallb is_digit ip = true -> forallb is_digit fp = true ->
  second_field "."%char (ip ++ "."%char :: fp) = Some fp.
Proof.
  intros Hi Hf. unfold second_field.
  rewrite (cut_at_digits ip fp Hi). cbn [snd].
  now rewrite (cut_at_no_point fp Hf).
Qed.

Lemma second_field_cons (c : ascii) (s : text) :
  char_eqb c "."%char = false ->
  second_field "."%char (c :: s) = second_field "."%char s.
Proof.
  intros H. unfold second_field. cbn [cut_at]. rewrite H.
  destruct (cut_at "."%char s) as [a [b |]]; reflexivity.
Qed.

Lemma zeros_are_digits (n : Z) : forallb is_digit (zeros n) = true.
Proof.
  unfold zeros. induction (Z.to_nat n) as [| k IH]; [reflexivity |].
  cbn [repeat forallb]. now rewrite IH.
Qed.

Lemma zeros_length (n : Z) : List.length (zeros n) = Z.to_nat n.
Proof. unfold zeros. apply repeat_length. Qed.

Lemma forallb_firstn {A : Type} (f : A -> bool) (n : nat) (l : list A) :
  forallb f l = true -> forallb f (firstn n l) = true.
Proof.
  revert n. induction l as [| x l IH]; intros [| n] H; try reflexivity.
  cbn in *. apply andb_prop in H. destruct H as [-> H]. now apply IH.
Qed.

Lemma forallb_skipn {A : Type} (f : A -> bool) (n : nat) (l : list A) :
  forallb f l = true -> forallb f (skipn n l) = true.
Proof.
  revert n. induction l as [| x l IH]; intros [| n] H; try reflexivity.
  - exact H.
  - cbn in *. apply andb_prop in H. destruct H as [_ H]. now apply IH.
Qed.

(** In positional layout the text after the point has three characters or
    more exactly when the digits reach three places or more behind the
    point. *)
Lemma format_positional (ds : text) (decpt : Z) :
  forallb is_digit ds = true ->
  (-4 < decpt <= 16)%Z ->
  exists after_point,
    second_field "."%char (format_repr ds decpt) = Some after_point
    /\ ((3 <=? List.length after_point)%nat
        = (3 <=? Z.of_nat (List.length ds) - decpt)%Z).
Proof.
  intros Hd Hr. unfold format_repr.
  assert (E : ((decpt <=? -4)%Z || (16 <? decpt)%Z) = false).
  { apply orb_false_intro; [apply Z.leb_gt | apply Z.ltb_ge]; lia. }
  rewrite E.
  destruct (decpt <=? 0)%Z eqn:L0.
  - apply Z.leb_le in L0.
    exists (zeros (- decpt) ++ ds). split.
    + change (Py.lit "0." ++ zeros (- decpt) ++ ds)
        with (Py.lit "0" ++ "."%char :: zeros (- decpt) ++ ds).
      apply second_field_digits; [reflexivity |].
      rewrite forallb_app, zeros_are_digits, Hd. reflexivity.
    + rewrite length_app, zeros_length.
      destruct (3 <=? Z.of_nat (List.length ds) - decpt)%Z eqn:C.
      * apply Z.leb_le in C. apply Nat.leb_le. lia.
      * apply Z.leb_gt in C. apply Nat.leb_gt. lia.
  - apply Z.leb_gt in L0.
    destruct (Z.of_nat (List.length ds) <=? decpt)%Z eqn:L1.
    + apply Z.leb_le in L1. exists (Py.lit "0"). split.
      * rewrite app_assoc.
        change (Py.lit ".0") with ("."%char :: Py.lit "0").
        apply second_field_digits; [| reflexivity].
        rewrite forallb_app, zeros_are_digits, Hd. reflexivity.
      * cbn [List.length Py.lit list_ascii_of_string].
        symmetry. apply Z.leb_gt. lia.
    + apply Z.leb_gt in L1. exists (skipn (Z.to_nat decpt) ds). split.
      * change (Py.lit "." ++ skipn (Z.to_nat decpt) ds)
          with ("."%char :: skipn (Z.to_nat decpt) ds).
        apply second_field_digits;
          [apply forallb_firstn | apply forallb_skipn]; exact Hd.
      * rewrite length_skipn.
        destruct (3 <=? Z.of_nat (List.length ds) - decpt)%Z eqn:C.
        -- apply Z.leb_le in C. apply Nat.leb_le. lia.
        -- apply Z.leb_gt in C. apply Nat.leb_gt. lia.
Qed.

(** For a currency pair and an entry that Python prints positionally (its
    shortest decimal has the point more than -4 and at most 16 places from
    the left of its digits), the multiplier is 0.01 exactly when that
    decimal has three or more fractional digits. *)
Lemma get_multiplier_positional (symbol : text) (q : Q) :
  text_eqb symbol (Py.lit "XAUUSD") = false ->
  text_eqb symbol (Py.lit "XAGUSD") = false ->
  ~ q == 0 ->
  let '(ds, decpt) := shortest_digits (Qabs q) in
  (-4 < decpt <= 16)%Z ->
  _get_multiplier symbol (ENum (FFin q))
  = if (3 <=? Z.of_nat (List.length ds) - decpt)%Z
    then B64.lit (1 # 100) else B64.lit (1 # 10000).
Proof.
  intros Hau Hag Hq.
  pose proof (shortest_digits_are_digits (Qabs q)) as D.
  destruct (shortest_digits (Qabs q)) as [ds decpt] eqn:S. cbn [fst] in D.
  intros Hr.
  destruct (format_positional ds decpt D Hr) as (r & F & C).
  unfold _get_multiplier, decimals_of. rewrite Hau, Hag.
  unfold float_repr.
  destruct (Qcompare_spec q 0) as [E | L | G].
  - contradiction.
  - assert (A : Qabs q == - q) by (apply Qabs_neg; lra).
    assert (S' : shortest_digits (- q) = (ds, decpt)).
    { rewrite <- S. unfold Qabs. destruct q as [[| p | p] d]; try reflexivity.
      exfalso. unfold Qlt in L. cbn in L. lia. }
    rewrite S'.
    change (Py.lit "-" ++ format_repr ds decpt)
      with ("-"%char :: format_repr ds decpt).
    rewrite second_field_cons by reflexivity.
    rewrite F. cbn [option_map]. rewrite C. reflexivity.
  - assert (S' : shortest_digits q = (ds, decpt)).
    { rewrite <- S. unfold Qabs. destruct q as [[| p | p] d]; try reflexivity.
      exfalso. unfold Qlt in G. cbn in G. lia. }
    rewrite S', F. cbn [option_map]. rewrite C. reflexivity.
Qed.

(* ================================================================== *)
(** ** The handlers *)

(** *** Running the steps of a handler *)

Lemma mkSt_eta (s : St) : mkSt (st_trade s) (st_out s) = s.
Proof. now destruct s. Qed.

(** The order loop: orders go out until the venue rejects one. *)
Lemma submit_each_run (v : Venue) (mk : pyfloat -> order_request)
    (tps : list pyfloat) (i : nat) (results : list text) (s : St) :
  match Spec.first_failure v mk i tps with
  | None =>
      exists rs,
        submit_each v mk i tps results s
        = (mkSt (st_trade s)
             (st_out s ++ map (fun tp => Submit (mk tp)) tps), Ok rs)
  | Some (k, e) =>
      submit_each v mk i tps results s
      = (mkSt (st_trade s)
           (st_out s ++ map (fun tp => Submit (mk tp)) (firstn (S k) tps)),
         Raise e)
  end.
Proof.
  revert i results s.
  induction tps as [| tp rest IH]; intros i results s.
  - cbn. exists results. unfold ret. now rewrite app_nil_r, mkSt_eta.
  - cbn [Spec.first_failure submit_each]. run_steps.
    destruct (create_order v i (mk tp)) as [res | e] eqn:C.
    + specialize (IH (S i) (results ++ [res])
                    (mkSt (st_trade s) (st_out s ++ [Submit (mk tp)]))).
      destruct (Spec.first_failure v mk (S i) rest) as [[k e] |].
      * rewrite IH. cbn [st_trade st_out firstn map].
        now rewrite <- app_assoc.
      * destruct IH as [rs IH]. exists rs. rewrite IH.
        cbn [st_trade st_out map]. now rewrite <- app_assoc.
    + reflexivity.
Qed.

Lemma submit_then_report (v : Venue) (mk : pyfloat -> order_request)
    (tps : list pyfloat) (s : St) :
  try_except (submit_each v mk 0 tps [] ;;; reply_text MsgExecuted)
    (fun e => reply_text (MsgTradeError e)) s
  = (mkSt (st_trade s)
       (st_out s
        ++ map (fun tp => Submit (mk tp)) (Spec.submitted v mk tps)
        ++ [Reply (Spec.closing_message v mk tps)]),
     Ok tt).
Proof.
  pose proof (submit_each_run v mk tps 0 [] s) as R.
  unfold Spec.submitted, Spec.closing_message. run_steps.
  destruct (Spec.first_failure v mk 0 tps) as [[k e] |].
  - rewrite R. cbn [st_trade st_out]. now rewrite <- app_assoc.
  - destruct R as [rs R]. rewrite R. cbn [st_trade st_out].
    now rewrite <- app_assoc.
Qed.

(** The call a given order type is submitted with carries the ticket of
    the specification. *)
Lemma submit_orders_eq (v : Venue) (s : St) (p share : pyfloat)
    (op : venue_op) :
  PositionSize (st_trade s) = Some p ->
  truediv_int p (Z.max 1 (Z.of_nat (List.length (TP (st_trade s)))))
  = Ok share ->
  Spec.op_of (OrderType (st_trade s)) = Some op ->
  submit_orders v s
  = (submit_each v (Spec.ticket (st_trade s) op share) 0 (TP (st_trade s)) []
     ;;; reply_text MsgExecuted) s.
Proof.
  intros Hp Hshare Hop.
  unfold submit_orders. unfold bind at 1 2. unfold get_trade, lift.
  rewrite Hp, Hshare. unfold Spec.op_of in Hop.
  destruct (text_eqb (OrderType (st_trade s)) (Py.lit "Buy"));
    [injection Hop as <-; reflexivity |].
  destruct (text_eqb (OrderType (st_trade s)) (Py.lit "Sell"));
    [injection Hop as <-; reflexivity |].
  destruct (text_eqb (OrderType (st_trade s)) (Py.lit "Buy Limit"));
    [injection Hop as <-; reflexivity |].
  destruct (text_eqb (OrderType (st_trade s)) (Py.lit "Sell Limit"));
    [injection Hop as <-; reflexivity |].
  destruct (text_eqb (OrderType (st_trade s)) (Py.lit "Buy Stop"));
    [injection Hop as <-; reflexivity |].
  destruct (text_eqb (OrderType (st_trade s)) (Py.lit "Sell Stop"));
    [injection Hop as <-; reflexivity | discriminate].
Qed.

Lemma enter_stage_run (v : Venue) (s : St) (p share : pyfloat)
    (op : venue_op) :
  let t := st_trade s in
  let mk := Spec.ticket t op share in
  PositionSize t = Some p ->
  truediv_int p (Z.max 1 (Z.of_nat (List.length (TP t)))) = Ok share ->
  Spec.op_of (OrderType t) = Some op ->
  enter_stage v s
  = (mkSt t (st_out s ++ [Reply MsgEntering]
             ++ map (fun tp => Submit (mk tp)) (Spec.submitted v mk (TP t))
             ++ [Reply (Spec.closing_message v mk (TP t))]),
     Ok tt).
Proof.
  intros t mk Hp Hshare Hop. subst t mk.
  unfold enter_stage. unfold bind at 1. unfold reply_text at 1. unfold emit.
  set (s1 := mkSt (st_trade s) (st_out s ++ [Reply MsgEntering])).
  pose proof (submit_orders_eq v s1 p share op Hp Hshare Hop) as E.
  pose proof (submit_then_report v (Spec.ticket (st_trade s1) op share)
                (TP (st_trade s1)) s1) as R.
  unfold try_except in *. rewrite E, R.
  subst s1. cbn [st_trade st_out]. now rewrite <- app_assoc.
Qed.

(** *** The entry is resolved before the risk step *)

Lemma resolve_entry_numeric (v : Venue) (s : St) (x : pyfloat) :
  Entry (st_trade s) = ENum x -> resolve_entry v s = (s, Ok tt).
Proof.
  intros H. unfold resolve_entry. run_steps. now rewrite H.
Qed.

Lemma resolve_entry_sentinel (v : Venue) (s : St) (bid ask : pyfloat) :
  Spec.is_sentinel (Entry (st_trade s)) = true ->
  get_symbol_price v (Symbol (st_trade s)) = Ok (bid, ask) ->
  resolve_entry v s
  = (mkSt (Spec.with_entry (st_trade s)
             (ENum (Spec.quote_for (OrderType (st_trade s)) bid ask)))
       (st_out s ++ [GetPrice (Symbol (st_trade s))]),
     Ok tt).
Proof.
  intros H P. unfold resolve_entry. run_steps.
  destruct (Entry (st_trade s)) as [w | x]; [| discriminate].
  cbn [Spec.is_sentinel] in H. rewrite H, P. cbn [fst snd].
  unfold Spec.quote_for, Spec.with_entry.
  destruct (text_eqb (OrderType (st_trade s)) (Py.lit "Buy")); reflexivity.
Qed.

Lemma resolve_entry_quote_fails (v : Venue) (s : St) (e : exn) :
  Spec.is_sentinel (Entry (st_trade s)) = true ->
  get_symbol_price v (Symbol (st_trade s)) = Raise e ->
  resolve_entry v s
  = (mkSt (st_trade s) (st_out s ++ [GetPrice (Symbol (st_trade s))]),
     Raise e).
Proof.
  intros H P. unfold resolve_entry. run_steps.
  destruct (Entry (st_trade s)) as [w | x]; [| discriminate].
  cbn [Spec.is_sentinel] in H. now rewrite H, P.
Qed.

(** *** Sizing *)

(** The multiplier is one of four constants, none of them zero. *)
Lemma get_multiplier_not_zero (symbol : text) (entry : entry_value) :
  is_zero (_get_multiplier symbol entry) = false.
Proof.
  unfold _get_multiplier.
  destruct (text_eqb symbol (Py.lit "XAUUSD")); [reflexivity |].
  destruct (text_eqb symbol (Py.lit "XAGUSD")); [reflexivity |].
  destruct entry as [w | x]; [reflexivity |].
  destruct (decimals_of x) as [d |]; [| reflexivity].
  destruct (3 <=? d)%nat; reflexivity.
Qed.

Lemma size_and_trade_zero_stop (v : Venue) (balance : pyfloat)
    (enter_trade : bool) (s : St) :
  let t := st_trade s in
  let multiplier := _get_multiplier (Symbol t) (Entry t) in
  pips_between (StopLoss t) (Entry t) multiplier = Ok 0%Z ->
  size_and_trade v balance enter_trade s
  = (mkSt t (st_out s ++ [Reply MsgZeroStop]), Ok tt).
Proof.
  intros t multiplier Hp. subst t multiplier.
  unfold size_and_trade. run_steps.
  now rewrite get_multiplier_not_zero, Hp.
Qed.

Lemma submit_each_trade (v : Venue) (mk : pyfloat -> order_request)
    (tps : list pyfloat) (i : nat) (results : list text) (s : St) :
  st_trade (fst (submit_each v mk i tps results s)) = st_trade s.
Proof.
  pose proof (submit_each_run v mk tps i results s) as R.
  destruct (Spec.first_failure v mk i tps) as [[k e] |].
  - now rewrite R.
  - destruct R as [rs R]. now rewrite R.
Qed.

Lemma bind_reply_trade {A : Type} (m : M A) (msg : message) (s : St) :
  st_trade (fst ((m ;;; reply_text msg) s)) = st_trade (fst (m s)).
Proof.
  run_steps. destruct (m s) as [s' [a | e]]; reflexivity.
Qed.

Lemma submit_orders_trade (v : Venue) (s : St) :
  st_trade (fst (submit_orders v s)) = st_trade s.
Proof.
  unfold submit_orders. unfold bind at 1 2. unfold get_trade, lift.
  destruct (match PositionSize (st_trade s) with
            | Some p => _ | None => _ end) as [share | e]; [| reflexivity].
  rewrite bind_reply_trade.
  repeat match goal with
         | |- context [if ?b then _ else _] => destruct b
         end;
    try apply submit_each_trade; reflexivity.
Qed.

Lemma enter_stage_trade (v : Venue) (s : St) :
  st_trade (fst (enter_stage v s)) = st_trade s.
Proof.
  unfold enter_stage. unfold bind, reply_text at 1, emit at 1, try_except.
  set (s1 := mkSt (st_trade s) (st_out s ++ [Reply MsgEntering])).
  pose proof (submit_orders_trade v s1) as T.
  destruct (submit_orders v s1) as [s' [a | e]]; cbn [fst] in *.
  - exact T.
  - unfold reply_text, emit. cbn [fst st_trade]. exact T.
Qed.

(** When sizing succeeds, the trade leaves the risk step with the size set
    and nothing else changed. *)
Lemma size_and_trade_sized (v : Venue) (balance : pyfloat)
    (enter_trade : bool) (s : St) (pips : Z) (p : pyfloat) :
  let t := st_trade s in
  let multiplier := _get_multiplier (Symbol t) (Entry t) in
  pips_between (StopLoss t) (Entry t) multiplier = Ok pips ->
  pips <> 0%Z ->
  pos_size_of balance (RiskFactor t) pips = Ok p ->
  st_trade (fst (size_and_trade v balance enter_trade s))
  = Spec.with_position_size t p.
Proof.
  intros t multiplier Hp Hz Hs. subst t multiplier.
  unfold size_and_trade. unfold bind at 1. unfold get_trade at 1.
  rewrite get_multiplier_not_zero. unfold bind at 1. unfold lift at 1. rewrite Hp.
  apply Z.eqb_neq in Hz. rewrite Hz.
  unfold bind at 1. unfold lift at 1. rewrite Hs.
  unfold bind at 1. unfold set_PositionSize. run_steps.
  fold (Spec.with_position_size (st_trade s) p).
  destruct (tp_pips_of _ _ _) as [tp_pips | e]; [| reflexivity].
  destruct enter_trade; [| reflexivity].
  rewrite enter_stage_trade. reflexivity.
Qed.

Lemma size_and_trade_unsized (v : Venue) (balance : pyfloat)
    (enter_trade : bool) (s : St) (pips : Z) (e : exn) :
  let t := st_trade s in
  let multiplier := _get_multiplier (Symbol t) (Entry t) in
  pips_between (StopLoss t) (Entry t) multiplier = Ok pips ->
  pips <> 0%Z ->
  pos_size_of balance (RiskFactor t) pips = Raise e ->
  size_and_trade v balance enter_trade s = (s, Raise e).
Proof.
  intros t multiplier Hp Hz Hs. subst t multiplier.
  unfold size_and_trade. run_steps. rewrite get_multiplier_not_zero, Hp.
  apply Z.eqb_neq in Hz. now rewrite Hz, Hs.
Qed.

Lemma pips_between_nonneg (price : pyfloat) (entry : entry_value)
    (multiplier : pyfloat) (pips : Z) :
  pips_between price entry multiplier = Ok pips -> (0 <= pips)%Z.
Proof.
  unfold pips_between.
  destruct (sub_entry price entry) as [d |]; [| discriminate]. cbn [rbind].
  destruct (truediv d multiplier) as [r |]; [| discriminate]. cbn [rbind].
  destruct (py_round r) as [n |]; [| discriminate]. cbn [rbind].
  intros H. injection H as <-. apply Z.abs_nonneg.
Qed.

(** *** Connection *)

Lemma connect_up (v : Venue) (enter_trade : bool) (s : St)
    (state : text) (balance : pyfloat) :
  Spec.connected v state balance ->
  connect_and_process v enter_trade s
  = try_except
      (reply_text MsgConnected ;;; resolve_entry v ;;;
       size_and_trade v balance enter_trade)
      (fun e => reply_text (MsgConnectionError e))
      (mkSt (st_trade s) (st_out s ++ Spec.up_events state)).
Proof.
  intros (A & C & B). unfold connect_and_process.
  unfold Spec.connection_steps in C. unfold Spec.up_events.
  run_steps. rewrite A, B.
  destruct (is_deployed state); cbn [negb app Spec.first_raise] in *.
  - answer_of (wait_connected v). answer_of (connect v).
    answer_of (wait_synchronized v). finish_run.
  - answer_of (deploy v). answer_of (wait_connected v).
    answer_of (connect v). answer_of (wait_synchronized v). finish_run.
Qed.

Lemma connect_down (v : Venue) (enter_trade : bool) (s : St)
    (state : text) (evs : list event) (e : exn) :
  get_account v = Ok state ->
  Spec.first_raise (Spec.connection_steps v state) = (evs, Some e) ->
  connect_and_process v enter_trade s
  = (mkSt (st_trade s)
       (st_out s ++ GetAccount :: evs ++ [Reply (MsgConnectionError e)]),
     Ok tt).
Proof.
  intros A H. unfold connect_and_process.
  unfold Spec.connection_steps in H.
  run_steps. rewrite A.
  destruct (is_deployed state); cbn [negb app Spec.first_raise] in *.
  - answer_of (wait_connected v); [| injection H as <- <-; finish_run].
    answer_of (connect v); [| injection H as <- <-; finish_run].
    answer_of (wait_synchronized v). injection H as <- <-. finish_run.
  - answer_of (deploy v); [| injection H as <- <-; finish_run].
    answer_of (wait_connected v); [| injection H as <- <-; finish_run].
    answer_of (connect v); [| injection H as <- <-; finish_run].
    answer_of (wait_synchronized v). injection H as <- <-. finish_run.
Qed.

Lemma connect_no_balance (v : Venue) (enter_trade : bool) (s : St)
    (state : text) (e : exn) :
  get_account v = Ok state ->
  snd (Spec.first_raise (Spec.connection_steps v state)) = None ->
  get_account_information v = Raise e ->
  connect_and_process v enter_trade s
  = (mkSt (st_trade s)
       (st_out s ++ Spec.up_events state ++ [Reply (MsgConnectionError e)]),
     Ok tt).
Proof.
  intros A C B. unfold connect_and_process.
  unfold Spec.connection_steps in C. unfold Spec.up_events.
  run_steps. rewrite A, B.
  destruct (is_deployed state); cbn [negb app Spec.first_raise] in *.
  - answer_of (wait_connected v). answer_of (connect v).
    answer_of (wait_synchronized v). finish_run.
  - answer_of (deploy v). answer_of (wait_connected v).
    answer_of (connect v). answer_of (wait_synchronized v). finish_run.
Qed.

(** A run that is cut short sends its diagnostic and nothing after it. *)
Lemma connect_aborts (v : Venue) (t : Trade) (enter_trade : bool)
    (pre : list event) (msg : message) :
  Spec.Aborts v t pre msg ->
  exists t',
    connect_and_process v enter_trade (mkSt t [])
    = (mkSt t' (pre ++ [Reply msg]), Ok tt).
Proof.
  intros H. destruct H as
    [e A | state evs e A C | state e A C B | state balance e U S P
     | state balance x U E P0 | state balance bid ask U S P x P0].
  - exists t. unfold connect_and_process. run_steps. now rewrite A.
  - exists t. rewrite (connect_down v enter_trade _ state evs e A C).
    reflexivity.
  - exists t. rewrite (connect_no_balance v enter_trade _ state e A C B).
    reflexivity.
  - exists t. rewrite (connect_up v enter_trade _ state balance U).
    unfold try_except. unfold bind at 1. unfold reply_text at 1, emit at 1.
    cbn [st_trade st_out app]. unfold bind at 1.
    match goal with
    | |- context [resolve_entry v ?s] =>
        rewrite (resolve_entry_quote_fails v s e S P)
    end.
    unfold reply_text, emit. finish_run.
  - exists t. rewrite (connect_up v enter_trade _ state balance U).
    unfold try_except. unfold bind at 1. unfold reply_text at 1, emit at 1.
    cbn [st_trade st_out app]. unfold bind at 1.
    match goal with
    | |- context [resolve_entry v ?s] =>
        rewrite (resolve_entry_numeric v s x E)
    end.
    rewrite size_and_trade_zero_stop;
      cbn [st_trade st_out]; rewrite ?E; try assumption.
    finish_run.
  - eexists. rewrite (connect_up v enter_trade _ state balance U).
    unfold try_except. unfold bind at 1. unfold reply_text at 1, emit at 1.
    cbn [st_trade st_out app]. unfold bind at 1.
    match goal with
    | |- context [resolve_entry v ?s] =>
        rewrite (resolve_entry_sentinel v s bid ask S P)
    end.
    cbn [st_trade st_out].
    rewrite size_and_trade_zero_stop;
      cbn [st_trade st_out Spec.with_entry Symbol Entry StopLoss];
      try assumption.
    rewrite <- ?app_assoc. reflexivity.
Qed.

(* ================================================================== *)
(** ** Sizing, quotes, submission and abort *)

(** C1 (as amended).  Scenario A, with balance 10000 and risk 0.01: the
    multiplier is 0.0001, the stop loss is 50 pips away, the take-profit 100
    pips, and the position size is floor((10000*0.01/50)/10*100)/100 = 0.2. *)
Theorem C1_scenario_A :
  let t := Scenarios.trade_of Scenarios.scenario_A in
  let t' := Spec.with_position_size t (B64.lit (2 # 10)) in
  parse_signal RISK_FACTOR_default Scenarios.scenario_A = Ok (Some t)
  /\ RiskFactor t = B64.lit (1 # 100)
  /\ _get_multiplier (Symbol t) (Entry t) = B64.lit (1 # 10000)
  /\ pips_between (StopLoss t) (Entry t) (B64.lit (1 # 10000)) = Ok 50%Z
  /\ tp_pips_of (TP t) (Entry t) (B64.lit (1 # 10000)) = Ok [100%Z]
  /\ pos_size_of (Scenarios.num 10000) (RiskFactor t) 50
     = Ok (B64.lit (2 # 10))
  /\ float_repr (B64.lit (2 # 10)) = Py.lit "0.2"
  /\ run_connect Scenarios.venue_up t false
     = (t', Spec.up_events (Py.lit "DEPLOYED")
            ++ [Reply MsgConnected;
                Reply (MsgTable t' (Scenarios.num 10000) 50 [100%Z])]).
Proof.
  vm_compute. repeat split.
Qed.

(** C1 as stated fails: the position size of scenario A is not 0.4. *)
Lemma C1_counterexample :
  ~ exists t t' evs,
      parse_signal RISK_FACTOR_default Scenarios.scenario_A = Ok (Some t)
      /\ run_connect Scenarios.venue_up t false = (t', evs)
      /\ PositionSize t' = Some (B64.lit (4 # 10)).
Proof.
  intros (t & t' & evs & P & R & S).
  assert (E : t = Scenarios.trade_of Scenarios.scenario_A).
  { assert (Q : parse_signal RISK_FACTOR_default Scenarios.scenario_A
                = Ok (Some (Scenarios.trade_of Scenarios.scenario_A)))
      by (vm_compute; reflexivity).
    congruence. }
  subst t.
  assert (Q : PositionSize
                (fst (run_connect Scenarios.venue_up
                        (Scenarios.trade_of Scenarios.scenario_A) false))
              = Some (B64.lit (2 # 10))) by (vm_compute; reflexivity).
  rewrite R in Q. cbn [fst] in Q. rewrite S in Q.
  revert Q. vm_compute. discriminate.
Qed.

(** C4 (as amended).  With the entry resolved, a stop loss no pip away
    from the entry is signalled before any sizing and leaves the trade without a position size; otherwise the
    distance is at least one pip and the size, when it is computed, is what
    the trade is given.  For a balance and a risk factor that are not
    negative that size is not negative; it may be zero. *)
Theorem C4_zero_stop_signalled_before_sizing
    (v : Venue) (balance : pyfloat) (enter_trade : bool) (s : St) (pips : Z) :
  let t := st_trade s in
  let multiplier := _get_multiplier (Symbol t) (Entry t) in
  pips_between (StopLoss t) (Entry t) multiplier = Ok pips ->
  (pips = 0%Z
   /\ size_and_trade v balance enter_trade s
      = (mkSt t (st_out s ++ [Reply MsgZeroStop]), Ok tt))
  \/
  ((0 < pips)%Z
   /\ match pos_size_of balance (RiskFactor t) pips with
      | Ok p =>
          st_trade (fst (size_and_trade v balance enter_trade s))
          = Spec.with_position_size t p
          /\ (fle (FFin 0) balance -> fle (FFin 0) (RiskFactor t) ->
              fle (FFin 0) p)
      | Raise e => size_and_trade v balance enter_trade s = (s, Raise e)
      end).
Proof.
  intros t multiplier Hp.
  pose proof (pips_between_nonneg _ _ _ _ Hp) as Hn.
  destruct (Z.eq_dec pips 0) as [-> | Hz].
  - left. split; [reflexivity |].
    exact (size_and_trade_zero_stop v balance enter_trade s Hp).
  - right. split; [lia |].
    destruct (pos_size_of balance (RiskFactor t) pips) as [p | e] eqn:Hs.
    + split.
      * exact (size_and_trade_sized v balance enter_trade s pips p Hp Hz Hs).
      * intros Hb Hr. apply (pos_size_nonneg balance (RiskFactor t) pips p);
          [exact Hb | exact Hr | lia | exact Hs].
    + exact (size_and_trade_unsized v balance enter_trade s pips e Hp Hz Hs).
Qed.

Lemma C4_witness :
  let s := mkSt (Scenarios.trade_of Scenarios.zero_stop) [] in
  ((0 = 0)%Z
   /\ size_and_trade Scenarios.venue_up (Scenarios.num 10000) false s
      = (mkSt (st_trade s) (st_out s ++ [Reply MsgZeroStop]), Ok tt))
  \/
  ((0 < 0)%Z
   /\ match pos_size_of (Scenarios.num 10000) (RiskFactor (st_trade s)) 0 with
      | Ok p =>
          st_trade
            (fst (size_and_trade Scenarios.venue_up (Scenarios.num 10000)
                    false s))
          = Spec.with_position_size (st_trade s) p
          /\ (fle (FFin 0) (Scenarios.num 10000) ->
              fle (FFin 0) (RiskFactor (st_trade s)) -> fle (FFin 0) p)
      | Raise e =>
          size_and_trade Scenarios.venue_up (Scenarios.num 10000) false s
          = (s, Raise e)
      end).
Proof.
  apply (C4_zero_stop_signalled_before_sizing Scenarios.venue_up
           (Scenarios.num 10000) false
           (mkSt (Scenarios.trade_of Scenarios.zero_stop) []) 0%Z);
    vm_compute; reflexivity.
Defined.

(** C4 as stated fails: with a balance of 10 the sizing of scenario A
    succeeds for a stop loss 50 pips away and the position size is exactly
    zero. *)
Lemma C4_counterexample :
  let t := Scenarios.trade_of Scenarios.scenario_A in
  let balance := Scenarios.num 10 in
  let v := Scenarios.venue balance (Scenarios.num (11 # 10))
             (Scenarios.num (12 # 10)) Scenarios.accept_all in
  parse_signal RISK_FACTOR_default Scenarios.scenario_A = Ok (Some t)
  /\ fle (FFin 0) balance /\ ~ feq balance (FFin 0)
  /\ pips_between (StopLoss t) (Entry t)
       (_get_multiplier (Symbol t) (Entry t)) = Ok 50%Z
  /\ pos_size_of balance (RiskFactor t) 50 = Ok (FFin 0)
  /\ run_connect v t false
     = (Spec.with_position_size t (FFin 0),
        Spec.up_events (Py.lit "DEPLOYED")
        ++ [Reply MsgConnected;
            Reply (MsgTable (Spec.with_position_size t (FFin 0)) balance 50
                     [100%Z])]).
Proof.
  vm_compute. repeat split; try discriminate.
Qed.

(** C9 (as amended).  For a balance and a risk factor that are not negative
    the position size does not grow when the stop-loss distance grows: for
    pip counts 0 < p1 <= p2 with a size computed for p1, every size computed
    for p2 is less than or equal to it, and a size is computed for p2 as soon
    as p2 converts to a float (as every pip count does that comes from
    rounding a float). *)
Theorem C9_position_size_antitone
    (balance risk : pyfloat) (p1 p2 : Z) (s1 : pyfloat) :
  fle (FFin 0) balance -> fle (FFin 0) risk -> (0 < p1 <= p2)%Z ->
  pos_size_of balance risk p1 = Ok s1 ->
  (forall s2, pos_size_of balance risk p2 = Ok s2 -> fle s2 s1)
  /\ (forall f2, of_int p2 = Ok f2 ->
      exists s2, pos_size_of balance risk p2 = Ok s2).
Proof.
  intros Hb Hr Hp H. split.
  - intros s2 H2.
    assert (F : exists f2, of_int p2 = Ok f2).
    { unfold pos_size_of, raw_pos_size in H2.
      destruct (truediv_int (fmul balance risk) p2) as [a | e] eqn:A;
        [| discriminate].
      exact (truediv_int_Ok_of_int _ _ _ A). }
    destruct F as [f2 F2].
    destruct (pos_size_antitone balance risk p1 p2 s1 f2 Hb Hr Hp F2 H)
      as (s2' & E & L & _).
    rewrite H2 in E. injection E as <-. exact L.
  - intros f2 F2.
    destruct (pos_size_antitone balance risk p1 p2 s1 f2 Hb Hr Hp F2 H)
      as (s2 & E & _ & _).
    exists s2. exact E.
Qed.

Lemma C9_witness :
  (forall s2,
     pos_size_of (Scenarios.num 10000) (Scenarios.num (1 # 100)) 100 = Ok s2 ->
     fle s2 (B64.lit (2 # 10)))
  /\ pos_size_of (Scenarios.num 10000) (Scenarios.num (1 # 100)) 100
     = Ok (B64.lit (1 # 10)).
Proof.
  destruct (C9_position_size_antitone (Scenarios.num 10000)
              (Scenarios.num (1 # 100)) 50 100 (B64.lit (2 # 10)))
    as [L _].
  - vm_compute. discriminate.
  - vm_compute. discriminate.
  - lia.
  - vm_compute. reflexivity.
  - split; [exact L | vm_compute; reflexivity].
Defined.

(** C9 as stated fails: with a balance of -1000 and risk 0.01 the size for
    2 pips, -0.5, is larger than the size for 1 pip, -1.0. *)
Lemma C9_counterexample :
  pos_size_of (Scenarios.num (-1000)) (Scenarios.num (1 # 100)) 1
  = Ok (FFin (-1))
  /\ pos_size_of (Scenarios.num (-1000)) (Scenarios.num (1 # 100)) 2
     = Ok (FFin (-1 # 2))
  /\ ~ fle (FFin (-1 # 2)) (FFin (-1)).
Proof.
  split; [vm_compute; reflexivity |].
  split; [vm_compute; reflexivity |].
  cbn. intros H. apply (Qle_bool_iff (-1 # 2) (-1)) in H. discriminate H.
Qed.

(** The multiplier by cases: the two metals first, then the default for an
    entry that is still a string, then the count of the characters that
    follow the decimal point of the printed entry. *)
Lemma get_multiplier_cases (symbol : text) (entry : entry_value) :
  (text_eqb symbol (Py.lit "XAUUSD") = true
   /\ _get_multiplier symbol entry = B64.lit (1 # 10))
  \/ (text_eqb symbol (Py.lit "XAUUSD") = false
      /\ text_eqb symbol (Py.lit "XAGUSD") = true
      /\ _get_multiplier symbol entry = B64.lit (1 # 1000))
  \/ (text_eqb symbol (Py.lit "XAUUSD") = false
      /\ text_eqb symbol (Py.lit "XAGUSD") = false
      /\ match entry with
         | EStr _ => _get_multiplier symbol entry = B64.lit (1 # 10000)
         | ENum x =>
             match second_field "."%char (float_repr x) with
             | Some after_point =>
                 if (3 <=? List.length after_point)%nat
                 then _get_multiplier symbol entry = B64.lit (1 # 100)
                 else _get_multiplier symbol entry = B64.lit (1 # 10000)
             | None => _get_multiplier symbol entry = B64.lit (1 # 10000)
             end
         end).
Proof.
  unfold _get_multiplier, decimals_of.
  destruct (text_eqb symbol (Py.lit "XAUUSD")); [left; auto |].
  destruct (text_eqb symbol (Py.lit "XAGUSD")); [right; left; auto |].
  right; right. split; [reflexivity |]. split; [reflexivity |].
  destruct entry as [w | x]; [reflexivity |].
  destruct (second_field "."%char (float_repr x)) as [r |]; cbn [option_map];
    [| reflexivity].
  destruct (3 <=? List.length r)%nat; reflexivity.
Qed.

(** C7 at two entries of a currency pair that print in exponent form.
    The entry 1.5e16 prints as "1.5e+16", one digit after the decimal point;
    the code counts the five characters "5e+16" and returns 0.01, the value
    for 3 or more decimals.  The entry 0.00005, five decimals as typed,
    prints as "5e-05" without a point, and the code returns 0.0001. *)
Theorem C7_exponent_form_miscounted :
  let t := Scenarios.trade_of Scenarios.exponent_entry in
  let x := Scenarios.num 15000000000000000 in
  let u := Scenarios.trade_of Scenarios.small_entry in
  let y := Scenarios.num (5 # 100000) in
  (parse_signal RISK_FACTOR_default Scenarios.exponent_entry = Ok (Some t)
   /\ Symbol t = Py.lit "EURUSD"
   /\ Entry t = ENum x
   /\ float_repr x = Py.lit "1.5e+16"
   /\ second_field "."%char (float_repr x) = Some (Py.lit "5e+16")
   /\ fst (span_digits (Py.lit "5e+16")) = Py.lit "5"
   /\ _get_multiplier (Symbol t) (Entry t) = B64.lit (1 # 100))
  /\
  (parse_signal RISK_FACTOR_default Scenarios.small_entry = Ok (Some u)
   /\ Symbol u = Py.lit "EURUSD"
   /\ Entry u = ENum y
   /\ float_repr y = Py.lit "5e-05"
   /\ second_field "."%char (float_repr y) = None
   /\ _get_multiplier (Symbol u) (Entry u) = B64.lit (1 # 10000)).
Proof.
  vm_compute. repeat split.
Qed.

(** C6 (as amended).  An entry that is the sentinel is replaced by a quote
    before the risk step: by the bid when the order type is "Buy", by the
    ask for every other order type.  With the connection up, the rest of the
    run is the risk step started on the trade that holds that quote. *)
Theorem C6_sentinel_resolved_before_sizing
    (v : Venue) (s : St) (bid ask : pyfloat) :
  let t := st_trade s in
  Spec.is_sentinel (Entry t) = true ->
  get_symbol_price v (Symbol t) = Ok (bid, ask) ->
  let x := if text_eqb (OrderType t) (Py.lit "Buy") then bid else ask in
  resolve_entry v s
  = (mkSt (Spec.with_entry t (ENum x)) (st_out s ++ [GetPrice (Symbol t)]),
     Ok tt)
  /\ Spec.is_sentinel (ENum x) = false
  /\ forall state balance enter_trade,
       Spec.connected v state balance ->
       connect_and_process v enter_trade s
       = try_except (size_and_trade v balance enter_trade)
           (fun e => reply_text (MsgConnectionError e))
           (mkSt (Spec.with_entry t (ENum x))
              (st_out s ++ Spec.up_events state
               ++ [Reply MsgConnected; GetPrice (Symbol t)])).
Proof.
  intros t S P x.
  pose proof (resolve_entry_sentinel v s bid ask S P) as R.
  fold t in R. unfold Spec.quote_for in R. fold x in R.
  split; [exact R |]. split; [reflexivity |].
  intros state balance enter_trade U.
  rewrite (connect_up v enter_trade s state balance U).
  unfold try_except. unfold bind at 1. unfold reply_text at 1, emit at 1.
  cbn [st_trade st_out]. unfold bind at 1.
  match goal with
  | |- context [resolve_entry v ?s1] =>
      rewrite (resolve_entry_sentinel v s1 bid ask S P)
  end.
  cbn [st_trade st_out]. fold t. unfold Spec.quote_for. fold x.
  rewrite <- !app_assoc. reflexivity.
Qed.

Lemma C6_witness :
  let s := mkSt (Scenarios.trade_of Scenarios.buy_limit_now) [] in
  let v := Scenarios.venue_up in
  let x := Scenarios.num (12 # 10) in
  resolve_entry v s
  = (mkSt (Spec.with_entry (st_trade s) (ENum x))
       [GetPrice (Py.lit "GBPUSD")], Ok tt)
  /\ connect_and_process v false s
     = try_except (size_and_trade v (Scenarios.num 10000) false)
         (fun e => reply_text (MsgConnectionError e))
         (mkSt (Spec.with_entry (st_trade s) (ENum x))
            (Spec.up_events (Py.lit "DEPLOYED")
             ++ [Reply MsgConnected; GetPrice (Py.lit "GBPUSD")])).
Proof.
  destruct (C6_sentinel_resolved_before_sizing Scenarios.venue_up
              (mkSt (Scenarios.trade_of Scenarios.buy_limit_now) [])
              (Scenarios.num (11 # 10)) (Scenarios.num (12 # 10)))
    as (R & _ & K); [vm_compute; reflexivity | vm_compute; reflexivity |].
  split; [exact R |].
  apply (K (Py.lit "DEPLOYED") (Scenarios.num 10000) false).
  vm_compute. repeat split.
Defined.

(** C6 as stated fails for the buy orders other than "Buy": a "Buy Limit"
    signal with entry NOW is sized on the ask, 1.2, not on the bid, 1.1. *)
Lemma C6_counterexample :
  let t := Scenarios.trade_of Scenarios.buy_limit_now in
  parse_signal RISK_FACTOR_default Scenarios.buy_limit_now = Ok (Some t)
  /\ OrderType t = Py.lit "Buy Limit"
  /\ Entry t = EStr (Py.lit "NOW")
  /\ get_symbol_price Scenarios.venue_up (Symbol t)
     = Ok (Scenarios.num (11 # 10), Scenarios.num (12 # 10))
  /\ Entry (fst (run_connect Scenarios.venue_up t false))
     = ENum (Scenarios.num (12 # 10))
  /\ Scenarios.num (12 # 10) <> Scenarios.num (11 # 10).
Proof.
  vm_compute. repeat split. discriminate.
Qed.

(** C2 (as amended).  Each take-profit gets its own order call carrying
    one share of the position size, position size / count, and the calls go
    out one after the other in the order of the take-profits; the first call
    the venue rejects ends the loop, so later take-profits are not
    submitted.  One reply closes the submission, the success message or the
    error of the rejected call; accepted orders are left in place, no
    exception leaves the stage, and the handlers that submit end the
    conversation. *)
Theorem C2_orders_stop_at_first_rejection
    (v : Venue) (s : St) (p share : pyfloat) (op : venue_op) :
  let t := st_trade s in
  let mk := Spec.ticket t op share in
  PositionSize t = Some p ->
  truediv_int p (Z.max 1 (Z.of_nat (List.length (TP t)))) = Ok share ->
  Spec.op_of (OrderType t) = Some op ->
  enter_stage v s
  = (mkSt t (st_out s ++ [Reply MsgEntering]
             ++ map (fun tp => Submit (mk tp)) (Spec.submitted v mk (TP t))
             ++ [Reply (Spec.closing_message v mk (TP t))]),
     Ok tt)
  /\ (forall tp, o_volume (mk tp) = share /\ o_take_profit (mk tp) = tp)
  /\ (forall tp1 tp2, TP t = [tp1; tp2] ->
      match create_order v 0 (mk tp1), create_order v 1 (mk tp2) with
      | Raise e, _ =>
          Spec.submitted v mk (TP t) = [tp1]
          /\ Spec.closing_message v mk (TP t) = MsgTradeError e
      | Ok _, Raise e =>
          Spec.submitted v mk (TP t) = [tp1; tp2]
          /\ Spec.closing_message v mk (TP t) = MsgTradeError e
      | Ok _, Ok _ =>
          Spec.submitted v mk (TP t) = [tp1; tp2]
          /\ Spec.closing_message v mk (TP t) = MsgExecuted
      end)
  /\ next (yes_handler v (Some t)) = END
  /\ forall RISK_FACTOR message_text,
       next (place_trade_handler RISK_FACTOR v (Some t) message_text) = END.
Proof.
  intros t mk Hp Hshare Hop.
  split; [exact (enter_stage_run v s p share op Hp Hshare Hop) |].
  split; [intros tp; split; reflexivity |].
  split.
  - intros tp1 tp2 E. unfold Spec.submitted, Spec.closing_message.
    rewrite E. cbn [Spec.first_failure].
    destruct (create_order v 0 (mk tp1)); [| split; reflexivity].
    destruct (create_order v 1 (mk tp2)); split; reflexivity.
  - split.
    + unfold yes_handler. destruct (run_connect v t true). reflexivity.
    + intros RISK_FACTOR message_text. unfold place_trade_handler.
      cbn [take_trade]. destruct (run_connect v t true). reflexivity.
Qed.

Lemma C2_witness :
  let t := Spec.with_position_size
             (Scenarios.trade_of Scenarios.two_targets) (B64.lit (2 # 10)) in
  let mk := Spec.ticket t create_market_buy_order (B64.lit (1 # 10)) in
  enter_stage Scenarios.venue_rejecting_first (mkSt t [])
  = (mkSt t ([Reply MsgEntering]
             ++ map (fun tp => Submit (mk tp))
                  (Spec.submitted Scenarios.venue_rejecting_first mk (TP t))
             ++ [Reply (Spec.closing_message Scenarios.venue_rejecting_first
                          mk (TP t))]),
     Ok tt).
Proof.
  apply (C2_orders_stop_at_first_rejection Scenarios.venue_rejecting_first
           (mkSt (Spec.with_position_size
                    (Scenarios.trade_of Scenarios.two_targets)
                    (B64.lit (2 # 10))) [])
           (B64.lit (2 # 10)) (B64.lit (1 # 10)) create_market_buy_order);
    vm_compute; reflexivity.
Defined.

(** C2 as stated fails: with two take-profits and a venue that rejects the
    first order call and would accept the second, only the first order is
    submitted; the take-profit 1.27 never reaches the venue, and one error
    reply stands for the whole submission. *)
Lemma C2_counterexample :
  let o := place_trade_handler RISK_FACTOR_default
             Scenarios.venue_rejecting_first None Scenarios.two_targets in
  TP (Scenarios.trade_of Scenarios.two_targets)
  = [Scenarios.num (126 # 100); Scenarios.num (127 # 100)]
  /\ Scenarios.reject_first 1 = Ok (Py.lit "TRADE_RETCODE_DONE")
  /\ map o_take_profit
       (flat_map (fun ev => match ev with Submit r => [r] | _ => [] end)
          (events o))
     = [Scenarios.num (126 # 100)]
  /\ filter (fun ev => match ev with
                       | Reply (MsgTradeError _) | Reply MsgExecuted => true
                       | _ => false
                       end) (events o)
     = [Reply (MsgTradeError (VenueError "rejected"))]
  /\ next o = END.
Proof.
  vm_compute. repeat split.
Qed.

(** The calls that bring the connection up are neither orders nor tables,
    whichever of them fails. *)
Lemma connection_calls_quiet (v : Venue) (state : text) :
  let evs := fst (Spec.first_raise (Spec.connection_steps v state)) in
  existsb Spec.is_submit evs = false /\ existsb Spec.is_table evs = false.
Proof.
  unfold Spec.connection_steps.
  destruct (is_deployed state); cbn [app Spec.first_raise];
    repeat match goal with
           | |- context [match ?r with Ok _ => _ | Raise _ => _ end] =>
               destruct r as [[] | ?]
           end; cbn; auto.
Qed.

Lemma aborts_quiet (v : Venue) (t : Trade) (pre : list event)
    (msg : message) :
  Spec.Aborts v t pre msg ->
  existsb Spec.is_submit (pre ++ [Reply msg]) = false
  /\ existsb Spec.is_table (pre ++ [Reply msg]) = false
  /\ (msg = MsgZeroStop \/ exists e, msg = MsgConnectionError e).
Proof.
  intros H. destruct H as
    [e A | state evs e A C | state e A C B | state balance e U S P
     | state balance x U E P0 | state balance bid ask U S P x P0];
    rewrite !existsb_app; unfold Spec.up_events;
    try (destruct (is_deployed state); cbn; eauto; fail).
  - cbn; eauto.
  - pose proof (connection_calls_quiet v state) as Q. rewrite C in Q.
    cbn [fst] in Q. destruct Q as [Q1 Q2]. cbn [existsb].
    rewrite Q1, Q2. cbn. eauto.
Qed.

(** C3 (as amended).  A stop loss no pip away from the entry and the
    failure of any venue call cut the run short: the run ends with one
    diagnostic reply, after which nothing is sized, shown or submitted, and
    no call is made a second time.  Started from /trade or from /yes, the
    conversation ends there without a pending trade; started from
    /calculate, the handler goes on to ask for confirmation and waits for
    the decision with the trade still pending. *)
Theorem C3_abort_ends_the_run
    (RISK_FACTOR : pyfloat) (v : Venue) (t : Trade) (message_text : text)
    (pre : list event) (msg : message) :
  Spec.Aborts v t pre msg ->
  parse_signal RISK_FACTOR message_text = Ok (Some t) ->
  (forall enter_trade, snd (run_connect v t enter_trade) = pre ++ [Reply msg])
  /\ existsb Spec.is_submit (pre ++ [Reply msg]) = false
  /\ existsb Spec.is_table (pre ++ [Reply msg]) = false
  /\ (msg = MsgZeroStop \/ exists e, msg = MsgConnectionError e)
  /\ place_trade_handler RISK_FACTOR v None message_text
     = mkOutcome None ([Reply MsgParsed] ++ pre ++ [Reply msg]) END
  /\ yes_handler v (Some t) = mkOutcome None (pre ++ [Reply msg]) END
  /\ exists t',
       calculate_trade_handler RISK_FACTOR v None message_text
       = mkOutcome (Some t')
           ([Reply MsgParsed] ++ pre ++ [Reply msg] ++ [Reply MsgAskDecision])
           DECISION.
Proof.
  intros A P.
  assert (R : forall enter_trade,
             exists t', run_connect v t enter_trade = (t', pre ++ [Reply msg])).
  { intros enter_trade.
    destruct (connect_aborts v t enter_trade pre msg A) as [t' E].
    exists t'. unfold run_connect. rewrite E. reflexivity. }
  destruct (aborts_quiet v t pre msg A) as (Q1 & Q2 & Q3).
  split.
  { intros enter_trade. destruct (R enter_trade) as [t' E]. now rewrite E. }
  split; [exact Q1 |]. split; [exact Q2 |]. split; [exact Q3 |].
  split.
  { unfold place_trade_handler, take_trade. rewrite P.
    destruct (R true) as [t' E]. rewrite E. reflexivity. }
  split.
  { unfold yes_handler. destruct (R true) as [t' E]. rewrite E. reflexivity. }
  unfold calculate_trade_handler, take_trade. rewrite P.
  destruct (R false) as [t' E]. rewrite E. exists t'.
  rewrite <- app_assoc. reflexivity.
Qed.

Lemma C3_witness :
  let v := Scenarios.venue_up in
  let t := Scenarios.trade_of Scenarios.zero_stop in
  let evs := Spec.up_events (Py.lit "DEPLOYED")
             ++ [Reply MsgConnected; Reply MsgZeroStop] in
  (forall enter_trade, snd (run_connect v t enter_trade) = evs)
  /\ place_trade_handler RISK_FACTOR_default v None Scenarios.zero_stop
     = mkOutcome None (Reply MsgParsed :: evs) END
  /\ yes_handler v (Some t) = mkOutcome None evs END.
Proof.
  destruct (C3_abort_ends_the_run RISK_FACTOR_default Scenarios.venue_up
              (Scenarios.trade_of Scenarios.zero_stop) Scenarios.zero_stop
              (Spec.up_events (Py.lit "DEPLOYED") ++ [Reply MsgConnected])
              MsgZeroStop)
    as (R & _ & _ & _ & H1 & H2 & _).
  - apply (Spec.Abort_zero_stop Scenarios.venue_up
             (Scenarios.trade_of Scenarios.zero_stop)
             (Py.lit "DEPLOYED") (Scenarios.num 10000)
             (Scenarios.num (125 # 100))).
    + vm_compute. repeat split.
    + vm_compute. reflexivity.
    + vm_compute. reflexivity.
  - vm_compute. reflexivity.
  - split; [exact R |]. split; [exact H1 | exact H2].
Defined.

(** C3 as stated fails on the /calculate path: after the zero-pip
    diagnostic, and after a connection failure as well, the handler asks for
    confirmation and hands the conversation to the decision state with the
    trade pending. *)
Lemma C3_counterexample :
  let zero := calculate_trade_handler RISK_FACTOR_default
                Scenarios.venue_up None Scenarios.zero_stop in
  let down := calculate_trade_handler RISK_FACTOR_default
                Scenarios.venue_down None Scenarios.scenario_A in
  events zero
  = [Reply MsgParsed] ++ Spec.up_events (Py.lit "DEPLOYED")
    ++ [Reply MsgConnected; Reply MsgZeroStop; Reply MsgAskDecision]
  /\ next zero = DECISION
  /\ user_trade zero = Some (Scenarios.trade_of Scenarios.zero_stop)
  /\ events down
     = [Reply MsgParsed; GetAccount;
        Reply (MsgConnectionError (VenueError "unreachable"));
        Reply MsgAskDecision]
  /\ next down = DECISION
  /\ user_trade down = Some (Scenarios.trade_of Scenarios.scenario_A).
Proof.
  vm_compute. repeat split.
Qed.

(* ================================================================== *)
(** ** Beyond the scenarios: the parser and the multiplier *)

Lemma text_eqb_eq (a b : text) : text_eqb a b = true -> a = b.
Proof.
  revert b. induction a as [| x a IH]; intros [| y b]; cbn;
    try discriminate; [reflexivity |].
  intros H. apply andb_true_iff in H. destruct H as [H1 H2].
  apply Ascii.eqb_eq in H1. subst y. f_equal. now apply IH.
Qed.

Lemma text_eqb_refl (a : text) : text_eqb a a = true.
Proof.
  induction a as [| x a IH]; [reflexivity |]. cbn.
  unfold char_eqb. now rewrite Ascii.eqb_refl, IH.
Qed.

Lemma order_type_of_op (first order_type : text) :
  order_type_of first = Some order_type ->
  exists op, Spec.op_of order_type = Some op.
Proof.
  unfold order_type_of.
  repeat match goal with
         | |- context [if ?b then _ else _] => destruct b
         end;
    intros H; try discriminate H; injection H as <-; eexists; reflexivity.
Qed.

Lemma parse_entry_form (entry_raw : text) (entry : entry_value) :
  parse_entry entry_raw = Ok entry ->
  match entry with
  | EStr s => s = Py.lit "NOW"
  | ENum _ => True
  end.
Proof.
  unfold parse_entry.
  destruct (text_eqb entry_raw (Py.lit "NOW")) eqn:N; cbn [negb].
  - intros H. injection H as <-. now apply text_eqb_eq.
  - destruct (py_float entry_raw); cbn [rbind]; intros H;
      [injection H as <-; exact I | discriminate H].
Qed.

Lemma parse_tp_list_length (lines : list text) (tps : list pyfloat) :
  parse_tp_list lines = Ok tps -> (1 <= List.length tps <= 2)%nat.
Proof.
  unfold parse_tp_list.
  destruct (last_word (line_at lines 3)); cbn [rbind]; [| discriminate].
  destruct (py_float a); cbn [rbind]; [| discriminate].
  destruct (4 <? List.length lines)%nat.
  - destruct (last_word (line_at lines 4)); cbn [rbind]; [| discriminate].
    destruct (py_float a1); cbn [rbind]; [| discriminate].
    intros H. injection H as <-. cbn. lia.
  - intros H. injection H as <-. cbn. lia.
Qed.

(** X1.  On an ASCII text [parse_signal] never raises: the last word of a
    line is taken from lines that are not blank, so [split()[-1]] finds one,
    and what [float] raises is caught.  The text is either a trade or the
    empty dict. *)
Theorem parse_signal_never_raises
    (RISK_FACTOR : pyfloat) (signal_text : text) :
  Domain.ascii_text signal_text ->
  exists d : Dict, parse_signal RISK_FACTOR signal_text = Ok d.
Proof.
  intros _.
  destruct (parse_signal_cases RISK_FACTOR signal_text)
    as [[_ E] | [_ (t & E & _)]]; eauto.
Qed.

Lemma parse_signal_never_raises_witness :
  Domain.ascii_text Scenarios.bad_stop_loss
  /\ exists d : Dict,
       parse_signal RISK_FACTOR_default Scenarios.bad_stop_loss = Ok d.
Proof.
  split; [vm_compute; reflexivity |].
  apply (parse_signal_never_raises RISK_FACTOR_default
           Scenarios.bad_stop_loss).
  vm_compute. reflexivity.
Defined.

(** X2.  A trade that [parse_signal] returns for an ASCII text is well
    formed: its order type
    is one of the six the submission knows, its symbol is in [SYMBOLS], its
    entry is a number or the string "NOW", it has one or two take-profits,
    the configured risk factor, and no position size yet. *)
Theorem parsed_trade_well_formed
    (RISK_FACTOR : pyfloat) (signal_text : text) (t : Trade) :
  Domain.ascii_text signal_text ->
  parse_signal RISK_FACTOR signal_text = Ok (Some t) ->
  (exists op, Spec.op_of (OrderType t) = Some op)
  /\ mem (Symbol t) SYMBOLS = true
  /\ match Entry t with
     | EStr s => s = Py.lit "NOW"
     | ENum _ => True
     end
  /\ (1 <= List.length (TP t) <= 2)%nat
  /\ RiskFactor t = RISK_FACTOR
  /\ PositionSize t = None.
Proof.
  intros _. unfold parse_signal.
  destruct (signal_lines signal_text) as [| line0 rest]; [discriminate |].
  destruct (order_type_of (lower line0)) as [ot |] eqn:O; [| discriminate].
  destruct (last_word line0) as [last0 |]; cbn [rbind]; [| discriminate].
  destruct (mem (upper last0) SYMBOLS) eqn:S; cbn [negb]; [| discriminate].
  destruct (List.length (line0 :: rest) <? 4)%nat; [discriminate |].
  destruct (last_word (line_at (line0 :: rest) 1)) as [last1 |];
    cbn [rbind]; [| discriminate].
  destruct (parse_entry (upper last1)) as [entry |] eqn:E; cbn [or_empty];
    [| discriminate].
  destruct (w <- last_word (line_at (line0 :: rest) 2) ;; py_float w)
    as [stoploss |]; cbn [or_empty]; [| discriminate].
  destruct (parse_tp_list (line0 :: rest)) as [tps |] eqn:T; cbn [or_empty];
    [| discriminate].
  intros H. injection H as <-.
  cbn [OrderType Symbol Entry TP RiskFactor PositionSize].
  split; [exact (order_type_of_op _ _ O) |].
  split; [exact S |].
  split; [exact (parse_entry_form _ _ E) |].
  split; [exact (parse_tp_list_length _ _ T) |].
  split; reflexivity.
Qed.

Lemma parsed_trade_well_formed_witness :
  let t := Scenarios.trade_of Scenarios.buy_limit_now in
  (exists op, Spec.op_of (OrderType t) = Some op)
  /\ mem (Symbol t) SYMBOLS = true
  /\ match Entry t with
     | EStr s => s = Py.lit "NOW"
     | ENum _ => True
     end
  /\ (1 <= List.length (TP t) <= 2)%nat
  /\ RiskFactor t = RISK_FACTOR_default
  /\ PositionSize t = None.
Proof.
  apply (parsed_trade_well_formed RISK_FACTOR_default
           Scenarios.buy_limit_now);
    vm_compute; reflexivity.
Defined.

(** X3.  [parse_signal] reads the first five non-blank lines and nothing
    else: two ASCII texts whose first five non-blank lines, stripped, are
    the same parse alike.  A third take-profit or a comment after the fifth
    line is dropped without notice. *)
Theorem parse_signal_reads_five_lines
    (RISK_FACTOR : pyfloat) (text1 text2 : text) :
  Domain.ascii_text text1 ->
  Domain.ascii_text text2 ->
  firstn 5 (signal_lines text1) = firstn 5 (signal_lines text2) ->
  parse_signal RISK_FACTOR text1 = parse_signal RISK_FACTOR text2.
Proof.
  intros _ _. unfold parse_signal.
  generalize (signal_lines text1) (signal_lines text2). intros l1 l2 H.
  destruct l1 as [| a0 [| a1 [| a2 [| a3 [| a4 r1]]]]];
    destruct l2 as [| b0 [| b1 [| b2 [| b3 [| b4 r2]]]]];
    cbn [firstn] in H; try discriminate H; try reflexivity;
    injection H; intros; subst; reflexivity.
Qed.

Lemma parse_signal_reads_five_lines_witness :
  parse_signal RISK_FACTOR_default
    (Scenarios.signal ["BUY GBPUSD"; "Entry 1.2500"; "SL 1.2450";
                       "TP 1.2600"; "TP 1.2700"; "TP 1.2800"]%string)
  = parse_signal RISK_FACTOR_default Scenarios.two_targets.
Proof.
  apply (parse_signal_reads_five_lines RISK_FACTOR_default);
    vm_compute; reflexivity.
Defined.

(** X4.  For a symbol other than the two metals and an entry that prints in
    positional form, the multiplier is 0.01 when the shortest decimal that
    reads back as the entry has three digits or more after the point, and
    0.0001 otherwise: zeros typed at the end of the entry do not count. *)
Theorem multiplier_counts_printed_decimals
    (symbol : text) (q : Q) (ds : text) (decpt : Z) :
  text_eqb symbol (Py.lit "XAUUSD") = false ->
  text_eqb symbol (Py.lit "XAGUSD") = false ->
  ~ q == 0 ->
  shortest_digits (Qabs q) = (ds, decpt) ->
  (-4 < decpt <= 16)%Z ->
  _get_multiplier symbol (ENum (FFin q))
  = if (3 <=? Z.of_nat (List.length ds) - decpt)%Z
    then B64.lit (1 # 100) else B64.lit (1 # 10000).
Proof.
  intros H1 H2 Hq Hs Hd.
  pose proof (get_multiplier_positional symbol q H1 H2 Hq) as G.
  rewrite Hs in G. exact (G Hd).
Qed.

Lemma multiplier_counts_printed_decimals_witness :
  _get_multiplier (Py.lit "EURUSD") (ENum (Scenarios.num (12345 # 10000)))
  = B64.lit (1 # 100)
  /\ _get_multiplier (Py.lit "EURUSD") (ENum (Scenarios.num (125 # 100)))
     = B64.lit (1 # 10000).
Proof.
  pose (q1 := ltac:(let q := eval vm_compute in
                      (match Scenarios.num (12345 # 10000) with
                       | FFin q => q
                       | _ => 0
                       end) in exact q)).
  pose (q2 := ltac:(let q := eval vm_compute in
                      (match Scenarios.num (125 # 100) with
                       | FFin q => q
                       | _ => 0
                       end) in exact q)).
  split.
  - change (Scenarios.num (12345 # 10000)) with (FFin q1).
    change (B64.lit (1 # 100))
      with (if (3 <=? Z.of_nat (List.length (Py.lit "12345")) - 1)%Z
            then B64.lit (1 # 100) else B64.lit (1 # 10000)).
    apply (multiplier_counts_printed_decimals (Py.lit "EURUSD") q1
             (Py.lit "12345") 1);
      [reflexivity | reflexivity | intros H; discriminate H
       | vm_compute; reflexivity | lia].
  - change (Scenarios.num (125 # 100)) with (FFin q2).
    change (B64.lit (1 # 10000))
      with (if (3 <=? Z.of_nat (List.length (Py.lit "125")) - 1)%Z
            then B64.lit (1 # 100) else B64.lit (1 # 10000)).
    apply (multiplier_counts_printed_decimals (Py.lit "EURUSD") q2
             (Py.lit "125") 1);
      [reflexivity | reflexivity | intros H; discriminate H
       | vm_compute; reflexivity | lia].
Defined.

(* ================================================================== *)
(** ** Beyond the scenarios: the course of a run *)

(** *** Every run has the shape of [Trace.RunShape] *)

Lemma op_of_none_orders (v : Venue) (s : St) (share : pyfloat) :
  Spec.op_of (OrderType (st_trade s)) = None ->
  PositionSize (st_trade s) <> None ->
  (match PositionSize (st_trade s) with
   | Some p =>
       truediv_int p (Z.max 1 (Z.of_nat (List.length (TP (st_trade s)))))
   | None => Raise KeyError
   end) = Ok share ->
  submit_orders v s
  = (mkSt (st_trade s) (st_out s ++ [Reply MsgExecuted]), Ok tt).
Proof.
  intros Hop _ Hshare. unfold submit_orders.
  unfold bind at 1 2. unfold get_trade, lift. rewrite Hshare.
  unfold Spec.op_of in Hop.
  destruct (text_eqb (OrderType (st_trade s)) (Py.lit "Buy"));
    [discriminate |].
  destruct (text_eqb (OrderType (st_trade s)) (Py.lit "Sell"));
    [discriminate |].
  destruct (text_eqb (OrderType (st_trade s)) (Py.lit "Buy Limit"));
    [discriminate |].
  destruct (text_eqb (OrderType (st_trade s)) (Py.lit "Sell Limit"));
    [discriminate |].
  destruct (text_eqb (OrderType (st_trade s)) (Py.lit "Buy Stop"));
    [discriminate |].
  destruct (text_eqb (OrderType (st_trade s)) (Py.lit "Sell Stop"));
    [discriminate |].
  reflexivity.
Qed.

Lemma enter_stage_shape (v : Venue) (s : St) (p : pyfloat) :
  PositionSize (st_trade s) = Some p ->
  exists op share k closing,
    enter_stage v s
    = (mkSt (st_trade s)
         (st_out s
          ++ Reply MsgEntering
             :: map (fun tp => Submit (Spec.ticket (st_trade s) op share tp))
                  (firstn k (TP (st_trade s)))
             ++ [Reply closing]),
       Ok tt)
    /\ (k = O
        \/ (Spec.op_of (OrderType (st_trade s)) = Some op
            /\ truediv_int p
                 (Z.max 1 (Z.of_nat (List.length (TP (st_trade s)))))
               = Ok share))
    /\ Trace.Closing closing.
Proof.
  intros Hp.
  destruct (truediv_int p (Z.max 1 (Z.of_nat (List.length (TP (st_trade s))))))
    as [share | e] eqn:Hshare.
  - destruct (Spec.op_of (OrderType (st_trade s))) as [op |] eqn:Hop.
    + pose proof (enter_stage_run v s p share op Hp Hshare Hop) as R.
      cbv zeta in R. unfold Spec.submitted, Spec.closing_message in R.
      destruct (Spec.first_failure v (Spec.ticket (st_trade s) op share) 0
                  (TP (st_trade s))) as [[k e] |].
      * exists op, share, (S k), (MsgTradeError e).
        split; [exact R |]. split; [right; auto | constructor].
      * exists op, share, (List.length (TP (st_trade s))), MsgExecuted.
        rewrite firstn_all.
        split; [exact R |]. split; [right; auto | constructor].
    + exists create_market_buy_order, share, O, MsgExecuted.
      split; [| split; [left; reflexivity | constructor]].
      unfold enter_stage. unfold bind at 1. unfold reply_text at 1, emit at 1.
      unfold try_except.
      rewrite (op_of_none_orders v _ share); cbn [st_trade st_out].
      * rewrite <- app_assoc. reflexivity.
      * exact Hop.
      * rewrite Hp. discriminate.
      * rewrite Hp. exact Hshare.
  - exists create_market_buy_order, (FFin 0), O, (MsgTradeError e).
    split; [| split; [left; reflexivity | constructor]].
    unfold enter_stage, submit_orders. run_steps.
    rewrite Hp, Hshare. cbn [st_trade st_out firstn map app].
    rewrite <- app_assoc. reflexivity.
Qed.

Lemma sizing_shape (v : Venue) (balance : pyfloat) (enter_trade : bool)
    (s : St) :
  exists t' tail,
    try_except (size_and_trade v balance enter_trade)
      (fun e => reply_text (MsgConnectionError e)) s
    = (mkSt t' (st_out s ++ tail), Ok tt)
    /\ Trace.SizingTail (st_trade s) balance enter_trade t' tail.
Proof.
  destruct (pips_between (StopLoss (st_trade s)) (Entry (st_trade s))
              (_get_multiplier (Symbol (st_trade s)) (Entry (st_trade s))))
    as [pips | e] eqn:Hp.
  2:{ exists (st_trade s), [Reply (MsgConnectionError e)].
      split; [| constructor].
      unfold size_and_trade. run_steps.
      now rewrite get_multiplier_not_zero, Hp. }
  destruct (Z.eq_dec pips 0) as [-> | Hz].
  { exists (st_trade s), [Reply MsgZeroStop]. split; [| constructor].
    unfold try_except.
    now rewrite (size_and_trade_zero_stop v balance enter_trade s Hp). }
  destruct (pos_size_of balance (RiskFactor (st_trade s)) pips)
    as [p | e] eqn:Hs.
  2:{ exists (st_trade s), [Reply (MsgConnectionError e)].
      split; [| constructor].
      unfold try_except.
      rewrite (size_and_trade_unsized v balance enter_trade s pips e Hp Hz Hs).
      reflexivity. }
  destruct (tp_pips_of (TP (st_trade s)) (Entry (st_trade s))
              (_get_multiplier (Symbol (st_trade s)) (Entry (st_trade s))))
    as [tp_pips | e] eqn:Ht.
  2:{ exists (Spec.with_position_size (st_trade s) p),
        [Reply (MsgConnectionError e)].
      split; [| constructor].
      unfold size_and_trade. run_steps.
      rewrite get_multiplier_not_zero, Hp.
      apply Z.eqb_neq in Hz. rewrite Hz, Hs. cbn [st_trade st_out].
      rewrite Ht. reflexivity. }
  assert (Z : Trace.Sized (st_trade s) balance pips p tp_pips)
    by (repeat split; assumption).
  assert (E : size_and_trade v balance enter_trade s
              = (if enter_trade then enter_stage v else ret tt)
                  (mkSt (Spec.with_position_size (st_trade s) p)
                     (st_out s
                      ++ [Reply (MsgTable
                                   (Spec.with_position_size (st_trade s) p)
                                   balance pips tp_pips)]))).
  { unfold size_and_trade.
    unfold bind at 1. unfold get_trade at 1.
    rewrite get_multiplier_not_zero.
    unfold bind at 1. unfold lift at 1. rewrite Hp.
    apply Z.eqb_neq in Hz. rewrite Hz.
    unfold bind at 1. unfold lift at 1. rewrite Hs.
    unfold bind at 1. unfold set_PositionSize.
    unfold bind at 1. unfold get_trade at 1, set_trade.
    cbn [st_trade st_out].
    unfold bind at 1. unfold lift at 1. rewrite Ht.
    unfold bind at 1. unfold get_trade at 1. cbn [st_trade st_out].
    unfold bind at 1. unfold reply_text at 1, emit at 1.
    cbn [st_trade st_out]. reflexivity. }
  unfold try_except. rewrite E. destruct enter_trade.
  - match goal with
    | |- context [enter_stage v ?s1] =>
        destruct (enter_stage_shape v s1 p eq_refl)
          as (op & share & k & closing & R & K & C)
    end.
    cbn [st_trade st_out Spec.with_position_size TP OrderType] in R, K.
    eexists _, _. split.
    + rewrite R. rewrite <- app_assoc. reflexivity.
    + cbn [app].
      exact (Trace.Tail_orders (st_trade s) balance true pips p tp_pips
               op share k closing Z eq_refl K C).
  - eexists _, _. split; [reflexivity |].
    exact (Trace.Tail_table (st_trade s) balance false pips p tp_pips
             Z eq_refl).
Qed.

Lemma resolve_entry_kept (v : Venue) (s : St) :
  Spec.is_sentinel (Entry (st_trade s)) = false ->
  resolve_entry v s = (s, Ok tt).
Proof.
  intros H. unfold resolve_entry. run_steps.
  destruct (Entry (st_trade s)) as [w | x]; [| reflexivity].
  cbn [Spec.is_sentinel] in H. now rewrite H.
Qed.

Lemma connection_prefix (v : Venue) (state : text) (evs : list event)
    (r : option exn) :
  Spec.first_raise (Spec.connection_steps v state) = (evs, r) ->
  exists rest,
    (GetAccount :: evs) ++ rest = Spec.up_events state
    /\ (r = None -> rest = [GetAccountInformation]).
Proof.
  unfold Spec.connection_steps, Spec.up_events.
  destruct (is_deployed state); cbn [app Spec.first_raise];
    repeat match goal with
           | |- context [match ?a with Ok _ => _ | Raise _ => _ end] =>
               destruct a as [[] | ?]
           end;
    intros H; injection H as <- <-; cbn [app];
    eexists; (split; [reflexivity | intros N; try discriminate N; reflexivity]).
Qed.

Lemma run_shape (v : Venue) (t : Trade) (enter_trade : bool) :
  exists t' evs,
    connect_and_process v enter_trade (mkSt t []) = (mkSt t' evs, Ok tt)
    /\ Trace.RunShape v t enter_trade t' evs.
Proof.
  destruct (get_account v) as [state | e] eqn:A.
  2:{ exists t, ([GetAccount] ++ [Reply (MsgConnectionError e)]).
      split.
      - unfold connect_and_process. run_steps. now rewrite A.
      - apply (Trace.Run_down v t enter_trade []
                 [GetAccount] (tl (Spec.up_events []))); 
          [reflexivity | discriminate]. }
  destruct (Spec.first_raise (Spec.connection_steps v state))
    as [evs [e |]] eqn:C.
  { destruct (connection_prefix v state evs _ C) as (rest & P & _).
    exists t, ((GetAccount :: evs) ++ [Reply (MsgConnectionError e)]).
    split.
    - rewrite (connect_down v enter_trade _ state evs e A C).
      cbn [st_trade st_out app]. reflexivity.
    - apply (Trace.Run_down v t enter_trade state _ rest); 
        [exact P | discriminate]. }
  assert (C' : snd (Spec.first_raise (Spec.connection_steps v state)) = None)
    by now rewrite C.
  destruct (get_account_information v) as [balance | e] eqn:B.
  2:{ exists t, (Spec.up_events state ++ [Reply (MsgConnectionError e)]).
      split.
      - rewrite (connect_no_balance v enter_trade _ state e A C' B).
        reflexivity.
      - apply (Trace.Run_down v t enter_trade state _ []);
          [apply app_nil_r |].
        unfold Spec.up_events. discriminate. }
  assert (U : Spec.connected v state balance) by (repeat split; assumption).
  rewrite (connect_up v enter_trade _ state balance U).
  cbn [st_trade st_out app].
  unfold try_except. unfold bind at 1. unfold reply_text at 1, emit at 1.
  cbn [st_trade st_out]. unfold bind at 1.
  set (s1 := mkSt t (Spec.up_events state ++ [Reply MsgConnected])).
  destruct (Spec.is_sentinel (Entry t)) eqn:S.
  - destruct (get_symbol_price v (Symbol t)) as [[bid ask] | e] eqn:P.
    + rewrite (resolve_entry_sentinel v s1 bid ask S P).
      match goal with
      | |- context [size_and_trade v balance enter_trade ?s2] =>
          destruct (sizing_shape v balance enter_trade s2)
            as (t' & tail & R & T)
      end.
      unfold try_except in R. cbn [st_trade st_out s1] in *.
      exists t', (Spec.up_events state
                  ++ Reply MsgConnected :: [GetPrice (Symbol t)] ++ tail).
      split.
      * rewrite R. rewrite <- !app_assoc. reflexivity.
      * exact (Trace.Run_up v t enter_trade state balance _ _ t' tail B
                 (Trace.Resolved_quoted v t bid ask S P) T).
    + rewrite (resolve_entry_quote_fails v s1 e S P).
      exists t. eexists. split.
      * unfold reply_text, emit. cbn [st_trade st_out s1].
        rewrite <- !app_assoc. reflexivity.
      * exact (Trace.Run_quote_fails v t enter_trade state e S P).
  - rewrite (resolve_entry_kept v s1 S).
    destruct (sizing_shape v balance enter_trade s1) as (t' & tail & R & T).
    unfold try_except in R. cbn [st_trade st_out s1] in *.
    exists t', (Spec.up_events state ++ Reply MsgConnected :: [] ++ tail).
    split.
    + rewrite R. rewrite <- !app_assoc. reflexivity.
    + exact (Trace.Run_up v t enter_trade state balance _ _ t' tail B
               (Trace.Resolved_kept v t S) T).
Qed.

Lemma run_connect_shape (v : Venue) (t : Trade) (enter_trade : bool) :
  exists t' evs,
    run_connect v t enter_trade = (t', evs)
    /\ Trace.RunShape v t enter_trade t' evs.
Proof.
  destruct (run_shape v t enter_trade) as (t' & evs & E & R).
  exists t', evs. unfold run_connect. now rewrite E.
Qed.

(** *** Reading the events of a run *)

Lemma up_events_calls (state : text) :
  forallb Trace.is_connection_call (Spec.up_events state) = true.
Proof. unfold Spec.up_events. now destruct (is_deployed state). Qed.

Lemma prefix_calls (state : text) (calls rest : list event) :
  calls ++ rest = Spec.up_events state ->
  forallb Trace.is_connection_call calls = true.
Proof.
  intros H. pose proof (up_events_calls state) as F.
  rewrite <- H, forallb_app in F. now apply andb_true_iff in F.
Qed.

Lemma orders_app (a b : list event) :
  Trace.orders (a ++ b) = Trace.orders a ++ Trace.orders b.
Proof.
  induction a as [| ev a IH]; [reflexivity |].
  destruct ev; cbn; rewrite ?IH; reflexivity.
Qed.

Lemma orders_calls (l : list event) :
  forallb Trace.is_connection_call l = true -> Trace.orders l = [].
Proof.
  induction l as [| ev l IH]; [reflexivity |].
  destruct ev; cbn; try discriminate; exact IH.
Qed.

Lemma orders_submitted (f : pyfloat -> order_request) (l : list pyfloat) :
  Trace.orders (map (fun tp => Submit (f tp)) l) = map f l.
Proof. induction l as [| x l IH]; cbn; [| rewrite IH]; reflexivity. Qed.

Lemma firstn_min_length {A : Type} (k : nat) (l : list A) :
  firstn (Nat.min k (List.length l)) l = firstn k l.
Proof.
  revert k. induction l as [| x l IH]; intros [| k]; cbn; try reflexivity.
  now rewrite IH.
Qed.

Lemma quotes_app (a b : list event) :
  filter Trace.is_quote (a ++ b)
  = filter Trace.is_quote a ++ filter Trace.is_quote b.
Proof. apply filter_app. Qed.

Lemma quotes_calls (l : list event) :
  forallb Trace.is_connection_call l = true -> filter Trace.is_quote l = [].
Proof.
  induction l as [| ev l IH]; [reflexivity |].
  destruct ev; cbn; try discriminate; exact IH.
Qed.

Lemma quotes_submitted (f : pyfloat -> event) (l : list pyfloat) :
  (forall tp, Trace.is_quote (f tp) = false) ->
  filter Trace.is_quote (map f l) = [].
Proof.
  intros H. induction l as [| x l IH]; cbn; [| rewrite H, IH]; reflexivity.
Qed.

Lemma calls_not_reply (l : list event) (m : message) :
  forallb Trace.is_connection_call l = true -> ~ In (Reply m) l.
Proof.
  intros F H. rewrite forallb_forall in F. apply F in H. discriminate H.
Qed.

Lemma quotes_tail (t : Trade) (balance : pyfloat) (enter_trade : bool)
    (t' : Trade) (tail : list event) :
  Trace.SizingTail t balance enter_trade t' tail ->
  filter Trace.is_quote tail = [].
Proof.
  intros T. destruct T; try reflexivity.
  cbn [filter Trace.is_quote]. rewrite quotes_app.
  rewrite quotes_submitted by reflexivity. reflexivity.
Qed.

Lemma orders_tail (t : Trade) (balance : pyfloat) (enter_trade : bool)
    (t' : Trade) (tail : list event) :
  Trace.SizingTail t balance enter_trade t' tail ->
  exists op share k,
    Trace.orders tail = map (Spec.ticket t' op share) (firstn k (TP t))
    /\ (enter_trade = false -> k = O).
Proof.
  intros T. destruct T;
    try (exists create_market_buy_order, (FFin 0), O; split;
         [reflexivity | reflexivity]).
  exists op, share, k. split.
  - cbn [Trace.orders]. rewrite orders_app, orders_submitted.
    cbn. now rewrite app_nil_r.
  - intros F. congruence.
Qed.

(** The orders of a run, whatever its course. *)
Lemma run_orders (v : Venue) (t t' : Trade) (enter_trade : bool)
    (evs : list event) :
  Trace.RunShape v t enter_trade t' evs ->
  exists op share k,
    Trace.orders evs = map (Spec.ticket t' op share) (firstn k (TP t))
    /\ (enter_trade = false -> k = O).
Proof.
  intros R. destruct R as
    [state calls rest e P N | state e S P
     | state balance t1 quote t' tail B Q T].
  - exists create_market_buy_order, (FFin 0), O.
    rewrite orders_app, (orders_calls _ (prefix_calls _ _ _ P)).
    split; reflexivity.
  - exists create_market_buy_order, (FFin 0), O.
    rewrite orders_app, (orders_calls _ (up_events_calls state)).
    split; reflexivity.
  - destruct (orders_tail _ _ _ _ _ T) as (op & share & k & O & F).
    exists op, share, k. split; [| exact F].
    rewrite orders_app, (orders_calls _ (up_events_calls state)).
    cbn [app Trace.orders]. rewrite orders_app, O.
    destruct Q; cbn [Trace.orders app Spec.with_entry TP]; reflexivity.
Qed.

Lemma shape_quotes (v : Venue) (t t' : Trade) (enter_trade : bool)
    (evs : list event) :
  Trace.RunShape v t enter_trade t' evs ->
  match filter Trace.is_quote evs with
  | [] => True
  | [q] => q = GetPrice (Symbol t) /\ Spec.is_sentinel (Entry t) = true
  | _ => False
  end.
Proof.
  intros R. destruct R as
    [state calls rest e P N | state e S P
     | state balance t1 quote t' tail B Q T].
  - rewrite quotes_app, (quotes_calls _ (prefix_calls _ _ _ P)). exact I.
  - rewrite quotes_app, (quotes_calls _ (up_events_calls state)).
    cbn. auto.
  - rewrite quotes_app, (quotes_calls _ (up_events_calls state)).
    cbn [app filter Trace.is_quote]. rewrite quotes_app.
    rewrite (quotes_tail _ _ _ _ _ T). destruct Q; cbn; auto.
Qed.

(** The replies of a run. *)
Lemma shape_replies (v : Venue) (t t' : Trade) (enter_trade : bool)
    (evs : list event) (m : message) :
  Trace.RunShape v t enter_trade t' evs ->
  In (Reply m) evs ->
  m = MsgConnected \/ m = MsgZeroStop \/ m = MsgEntering
  \/ (exists e, m = MsgConnectionError e)
  \/ (exists shown balance pips tp_pips,
        m = MsgTable shown balance pips tp_pips)
  \/ Trace.Closing m.
Proof.
  intros R H.
  destruct R as
    [state calls rest e P N | state e S P
     | state balance t1 quote t' tail B Q T].
  - apply in_app_or in H. destruct H as [H | [H | []]].
    + destruct (calls_not_reply _ _ (prefix_calls _ _ _ P) H).
    + injection H as <-. eauto 10.
  - apply in_app_or in H. destruct H as [H | H].
    + destruct (calls_not_reply _ _ (up_events_calls state) H).
    + destruct H as [H | [H | [H | []]]]; try discriminate H;
        injection H as <-; eauto 10.
  - apply in_app_or in H. destruct H as [H | H];
      [destruct (calls_not_reply _ _ (up_events_calls state) H) |].
    destruct H as [H | H]; [injection H as <-; auto |].
    apply in_app_or in H. destruct H as [H | H].
    + destruct Q as [S | bid ask S P]; [destruct H |].
      destruct H as [H | []]. discriminate H.
    + destruct T as [| e | p e | pips p tp_pips Z F
                     | pips p tp_pips op share k closing Z F K C].
      * destruct H as [H | []]. injection H as <-. auto.
      * destruct H as [H | []]. injection H as <-. eauto 10.
      * destruct H as [H | []]. injection H as <-. eauto 10.
      * destruct H as [H | []]. injection H as <-. eauto 10.
      * destruct H as [H | [H | H]].
        -- injection H as <-. eauto 10.
        -- injection H as <-. auto.
        -- apply in_app_or in H. destruct H as [H | [H | []]].
           ++ apply in_map_iff in H. destruct H as (tp & H & _).
              discriminate H.
           ++ injection H as <-. auto 10.
Qed.

(** X5.  Whatever the venue answers, a run ends normally and its last act is
    a reply to the user: no exception of a venue call or of the arithmetic
    leaves [connect_and_process].  The last reply is the zero-stop warning,
    a connection error, the table (when only calculating), or the message
    that closes the submission. *)
Theorem run_ends_with_a_reply (v : Venue) (t : Trade) (enter_trade : bool) :
  exists (s' : St) (evs : list event) (m : message),
    connect_and_process v enter_trade (mkSt t []) = (s', Ok tt)
    /\ st_out s' = evs ++ [Reply m]
    /\ (m = MsgZeroStop
        \/ (exists e, m = MsgConnectionError e)
        \/ (enter_trade = false
            /\ exists t' balance pips tp_pips,
                 m = MsgTable t' balance pips tp_pips)
        \/ (enter_trade = true /\ Trace.Closing m)).
Proof.
  destruct (run_shape v t enter_trade) as (t' & evs & E & R).
  rewrite E. cbn [st_out].
  destruct R as
    [state calls rest e P N | state e S P
     | state balance t1 quote t' tail B Q T].
  - exists (mkSt t (calls ++ [Reply (MsgConnectionError e)])), calls,
      (MsgConnectionError e).
    split; [reflexivity |]. split; [reflexivity | eauto].
  - exists (mkSt t
              (Spec.up_events state
               ++ [Reply MsgConnected; GetPrice (Symbol t);
                   Reply (MsgConnectionError e)])),
      (Spec.up_events state ++ [Reply MsgConnected; GetPrice (Symbol t)]),
      (MsgConnectionError e).
    split; [reflexivity |]. split; [| eauto].
    cbn [st_out]. rewrite <- app_assoc. reflexivity.
  - set (pre := Spec.up_events state ++ Reply MsgConnected :: quote).
    assert (A : forall l, Spec.up_events state
                          ++ Reply MsgConnected :: quote ++ l = pre ++ l).
    { intros l. unfold pre. rewrite <- app_assoc. reflexivity. }
    destruct T as [| e | p e | pips p tp_pips Z F
                   | pips p tp_pips op share k closing Z F K C].
    + eexists _, pre, MsgZeroStop.
      split; [reflexivity |]. split; [apply A | auto].
    + eexists _, pre, (MsgConnectionError e).
      split; [reflexivity |]. split; [apply A | eauto].
    + eexists _, pre, (MsgConnectionError e).
      split; [reflexivity |]. split; [apply A | eauto].
    + eexists _, pre, _.
      split; [reflexivity |]. split; [apply A |].
      right; right; left. split; [exact F | eauto].
    + eexists _, (pre ++ Reply (MsgTable t' balance pips tp_pips)
                       :: Reply MsgEntering
                       :: map (fun tp => Submit (Spec.ticket t' op share tp))
                            (firstn k (TP t1))), closing.
      split; [reflexivity |]. split.
      * cbn [st_out]. rewrite A. rewrite <- app_assoc. reflexivity.
      * right; right; right. auto.
Qed.

Lemma calculate_run_orders (v : Venue) (t : Trade) :
  Trace.orders (snd (run_connect v t false)) = [].
Proof.
  destruct (run_connect_shape v t false) as (t' & evs & E & R).
  rewrite E. cbn [snd].
  destruct (run_orders v t t' false evs R) as (op & share & k & O & F).
  rewrite O, (F eq_refl). reflexivity.
Qed.

Lemma calculate_handler_orders (RISK_FACTOR : pyfloat) (v : Venue)
    (pending : option Trade) (message_text : text) :
  Trace.orders
    (events (calculate_trade_handler RISK_FACTOR v pending message_text))
  = [].
Proof.
  unfold calculate_trade_handler, take_trade.
  destruct pending as [t |].
  - pose proof (calculate_run_orders v t) as N.
    destruct (run_connect v t false) as [t' evs].
    cbn [events snd app] in *. rewrite orders_app, N. reflexivity.
  - destruct (parse_signal RISK_FACTOR message_text) as [[t |] | e];
      try reflexivity.
    pose proof (calculate_run_orders v t) as N.
    destruct (run_connect v t false) as [t' evs].
    cbn [events snd app Trace.orders] in *. rewrite orders_app, N.
    reflexivity.
Qed.

(** X6.  Calculating never trades: a run with [enter_trade] false sends no
    order to the venue, and neither does [calculate_trade_handler], whatever
    the message, the pending trade and the answers of the venue. *)
Theorem calculate_never_submits (v : Venue) :
  (forall t, Trace.orders (snd (run_connect v t false)) = [])
  /\ forall RISK_FACTOR pending message_text,
       Trace.orders
         (events (calculate_trade_handler RISK_FACTOR v pending message_text))
       = [].
Proof.
  split.
  - intros t. apply calculate_run_orders.
  - intros RISK_FACTOR pending message_text.
    apply calculate_handler_orders.
Qed.

(** X7.  The orders of a run follow the take-profits: there is at most one
    order per take-profit, the orders carry the take-profits in their order
    from the first on, and all of them carry the symbol and the stop loss of
    the trade and one and the same volume. *)
Theorem orders_follow_take_profits (v : Venue) (t : Trade)
    (enter_trade : bool) :
  let sent := Trace.orders (snd (run_connect v t enter_trade)) in
  (List.length sent <= List.length (TP t))%nat
  /\ map o_take_profit sent = firstn (List.length sent) (TP t)
  /\ Forall (fun r => o_symbol r = Symbol t /\ o_stop_loss r = StopLoss t)
       sent
  /\ exists share, Forall (fun r => o_volume r = share) sent.
Proof.
  destruct (run_connect_shape v t enter_trade) as (t' & evs & E & R).
  rewrite E. cbn [snd].
  destruct (run_orders v t t' enter_trade evs R) as (op & share & k & O & _).
  assert (Ht : Symbol t' = Symbol t /\ StopLoss t' = StopLoss t).
  { destruct R as [| | state balance t1 quote t' tail B Q T]; auto.
    destruct Q; destruct T; auto. }
  destruct Ht as [H1 H2].
  cbv zeta. rewrite O. rewrite length_map.
  split; [rewrite length_firstn; lia |].
  split.
  { rewrite map_map. cbn [Spec.ticket o_take_profit]. rewrite map_id.
    rewrite length_firstn. symmetry. apply firstn_min_length. }
  split.
  - apply Forall_map. apply Forall_forall. intros tp _.
    cbn [Spec.ticket o_symbol o_stop_loss]. auto.
  - exists share. apply Forall_map. apply Forall_forall. intros tp _.
    reflexivity.
Qed.

(** X8.  The reply of line 228, "multiplier es 0", is never sent: the
    multiplier is one of four constants, none of them zero, so the test of
    line 227 never holds. *)
Theorem multiplier_zero_never_reported (v : Venue) (t : Trade)
    (enter_trade : bool) :
  ~ In (Reply MsgMultiplierZero) (snd (run_connect v t enter_trade)).
Proof.
  destruct (run_connect_shape v t enter_trade) as (t' & evs & E & R).
  rewrite E. cbn [snd]. intros H.
  destruct (shape_replies _ _ _ _ _ _ R H)
    as [M | [M | [M | [[e M] | [(a & b & c & d & M) | M]]]]];
    try discriminate M.
  inversion M.
Qed.

(** X9.  A run asks for a quote at most once, for the symbol of the trade,
    and only when the entry is the string "NOW" (in any letter case): with a
    numeric entry no price is ever fetched. *)
Theorem quote_only_for_sentinel (v : Venue) (t : Trade)
    (enter_trade : bool) :
  match filter Trace.is_quote (snd (run_connect v t enter_trade)) with
  | [] => True
  | [q] => q = GetPrice (Symbol t) /\ Spec.is_sentinel (Entry t) = true
  | _ => False
  end.
Proof.
  destruct (run_connect_shape v t enter_trade) as (t' & evs & E & R).
  rewrite E. cbn [snd]. exact (shape_quotes v t t' enter_trade evs R).
Qed.

(** *** The trade a run leaves, the table, and failures of the arithmetic *)


Lemma resolved_fields (v : Venue) (t t1 : Trade) (quote : list event) :
  Trace.Resolved v t t1 quote ->
  OrderType t1 = OrderType t /\ Symbol t1 = Symbol t
  /\ StopLoss t1 = StopLoss t /\ TP t1 = TP t
  /\ RiskFactor t1 = RiskFactor t /\ PositionSize t1 = PositionSize t
  /\ (Entry t1 = Entry t
      \/ (Spec.is_sentinel (Entry t) = true
          /\ exists bid ask,
               get_symbol_price v (Symbol t) = Ok (bid, ask)
               /\ Entry t1 = ENum (Spec.quote_for (OrderType t) bid ask))).
Proof.
  intros Q. destruct Q as [S | bid ask S P].
  - repeat (split; [reflexivity |]). left. reflexivity.
  - cbn [Spec.with_entry OrderType Symbol StopLoss TP RiskFactor
         PositionSize Entry].
    repeat (split; [reflexivity |]). right. split; [exact S |].
    exists bid, ask. split; [exact P | reflexivity].
Qed.

Lemma tail_fields (t : Trade) (balance : pyfloat) (enter_trade : bool)
    (t' : Trade) (tail : list event) :
  Trace.SizingTail t balance enter_trade t' tail ->
  OrderType t' = OrderType t /\ Symbol t' = Symbol t
  /\ StopLoss t' = StopLoss t /\ TP t' = TP t
  /\ RiskFactor t' = RiskFactor t /\ Entry t' = Entry t
  /\ (PositionSize t' = PositionSize t \/ exists p, PositionSize t' = Some p).
Proof.
  intros T. destruct T; cbn; repeat split; eauto.
Qed.

Lemma shape_fields (v : Venue) (t t' : Trade) (enter_trade : bool)
    (evs : list event) :
  Trace.RunShape v t enter_trade t' evs ->
  OrderType t' = OrderType t /\ Symbol t' = Symbol t
  /\ StopLoss t' = StopLoss t /\ TP t' = TP t
  /\ RiskFactor t' = RiskFactor t
  /\ (Entry t' = Entry t
      \/ (Spec.is_sentinel (Entry t) = true
          /\ exists bid ask,
               get_symbol_price v (Symbol t) = Ok (bid, ask)
               /\ Entry t' = ENum (Spec.quote_for (OrderType t) bid ask)))
  /\ (PositionSize t' = PositionSize t \/ exists p, PositionSize t' = Some p).
Proof.
  intros R. destruct R as
    [state calls rest e P N | state e S P
     | state balance t1 quote t' tail B Q T];
    try (repeat split; auto; fail).
  destruct (resolved_fields _ _ _ _ Q) as (A1 & A2 & A3 & A4 & A5 & A6 & A7).
  destruct (tail_fields _ _ _ _ _ T) as (B1 & B2 & B3 & B4 & B5 & B6 & B7).
  rewrite B1, B2, B3, B4, B5, B6.
  split; [exact A1 |]. split; [exact A2 |]. split; [exact A3 |].
  split; [exact A4 |]. split; [exact A5 |]. split; [exact A7 |].
  destruct B7 as [B7 | B7]; [left; now rewrite B7 | right; exact B7].
Qed.

(** X10.  A run leaves the order type, the symbol, the stop loss, the
    take-profits and the risk factor of the trade as they were.  The entry
    changes only from the string "NOW" to the quote of the venue (the bid
    for "Buy", the ask otherwise), and the position size only by being
    set. *)
Theorem run_changes_only_entry_and_size (v : Venue) (t : Trade)
    (enter_trade : bool) :
  let t' := fst (run_connect v t enter_trade) in
  OrderType t' = OrderType t /\ Symbol t' = Symbol t
  /\ StopLoss t' = StopLoss t /\ TP t' = TP t
  /\ RiskFactor t' = RiskFactor t
  /\ (Entry t' = Entry t
      \/ (Spec.is_sentinel (Entry t) = true
          /\ exists bid ask,
               get_symbol_price v (Symbol t) = Ok (bid, ask)
               /\ Entry t' = ENum (Spec.quote_for (OrderType t) bid ask)))
  /\ (PositionSize t' = PositionSize t \/ exists p, PositionSize t' = Some p).
Proof.
  destruct (run_connect_shape v t enter_trade) as (t' & evs & E & R).
  rewrite E. cbn [fst]. exact (shape_fields v t t' enter_trade evs R).
Qed.

Lemma tail_table (t : Trade) (balance : pyfloat) (enter_trade : bool)
    (t' : Trade) (tail : list event)
    (shown : Trade) (b : pyfloat) (pips : Z) (tp_pips : list Z) :
  Trace.SizingTail t balance enter_trade t' tail ->
  In (Reply (MsgTable shown b pips tp_pips)) tail ->
  exists p,
    Trace.Sized t balance pips p tp_pips
    /\ shown = Spec.with_position_size t p /\ t' = shown /\ b = balance.
Proof.
  intros T H.
  destruct T as [| e | p e | pips' p tp_pips' Z F
                 | pips' p tp_pips' op share k closing Z F K C].
  - destruct H as [H | []]. discriminate H.
  - destruct H as [H | []]. discriminate H.
  - destruct H as [H | []]. discriminate H.
  - destruct H as [H | []]. injection H as <- <- <- <-.
    exists p. auto.
  - destruct H as [H | [H | H]]; [| discriminate H |].
    + injection H as <- <- <- <-. exists p. auto.
    + apply in_app_or in H. destruct H as [H | [H | []]].
      * apply in_map_iff in H. destruct H as (tp & H & _). discriminate H.
      * destruct C; discriminate H.
Qed.

Lemma shape_table (v : Venue) (t t' : Trade) (enter_trade : bool)
    (evs : list event)
    (shown : Trade) (b : pyfloat) (pips : Z) (tp_pips : list Z) :
  Trace.RunShape v t enter_trade t' evs ->
  In (Reply (MsgTable shown b pips tp_pips)) evs ->
  exists t1 quote p,
    Trace.Resolved v t t1 quote
    /\ Trace.Sized t1 b pips p tp_pips
    /\ shown = Spec.with_position_size t1 p /\ t' = shown
    /\ get_account_information v = Ok b.
Proof.
  intros R H. destruct R as
    [state calls rest e P N | state e S P
     | state balance t1 quote t' tail B Q T].
  - apply in_app_or in H. destruct H as [H | [H | []]]; [| discriminate H].
    destruct (calls_not_reply _ _ (prefix_calls _ _ _ P) H).
  - apply in_app_or in H. destruct H as [H | H].
    + destruct (calls_not_reply _ _ (up_events_calls state) H).
    + cbn in H. intuition discriminate.
  - apply in_app_or in H. destruct H as [H | H];
      [destruct (calls_not_reply _ _ (up_events_calls state) H) |].
    destruct H as [H | H]; [discriminate H |].
    apply in_app_or in H. destruct H as [H | H].
    + destruct Q; cbn in H; intuition discriminate.
    + destruct (tail_table _ _ _ _ _ _ _ _ _ T H) as (p & Z & E1 & E2 & ->).
      exists t1, quote, p. auto.
Qed.



Lemma pips_between_error (price x multiplier : pyfloat) (e : exn) :
  is_zero multiplier = false ->
  pips_between price (ENum x) multiplier = Raise e ->
  e = ValueError \/ e = OverflowError.
Proof.
  intros Z. unfold pips_between, truediv. cbn [sub_entry rbind].
  rewrite Z. cbn [rbind].
  destruct (fdiv (fsub price x) multiplier); cbn [py_round rbind];
    intros H; try discriminate H; injection H as <-; auto.
Qed.

(** X12.  A failure of the arithmetic is reported as a connection problem.
    With the connection up and a numeric entry, a stop loss whose distance
    cannot be rounded (a NaN or an infinite value, which [float] accepts in
    a signal) raises [ValueError] or [OverflowError]; the run replies that
    it is connected and then that there was a problem with the connection,
    and leaves the trade as it was. *)
Theorem sizing_failure_reported_as_connection_error
    (v : Venue) (t : Trade) (enter_trade : bool)
    (state : text) (balance x : pyfloat) (e : exn) :
  Spec.connected v state balance ->
  Entry t = ENum x ->
  pips_between (StopLoss t) (Entry t) (_get_multiplier (Symbol t) (Entry t))
  = Raise e ->
  run_connect v t enter_trade
  = (t, Spec.up_events state
        ++ [Reply MsgConnected; Reply (MsgConnectionError e)])
  /\ (e = ValueError \/ e = OverflowError).
Proof.
  intros U E P. split.
  - unfold run_connect.
    rewrite (connect_up v enter_trade _ state balance U).
    unfold try_except. unfold bind at 1. unfold reply_text at 1, emit at 1.
    cbn [st_trade st_out app]. unfold bind at 1.
    match goal with
    | |- context [resolve_entry v ?s] =>
        rewrite (resolve_entry_numeric v s x E)
    end.
    unfold size_and_trade. run_steps.
    rewrite get_multiplier_not_zero, P. cbn [st_trade st_out].
    rewrite <- app_assoc. reflexivity.
  - rewrite E in P.
    exact (pips_between_error _ _ _ e (get_multiplier_not_zero _ _) P).
Qed.

Lemma sizing_failure_reported_as_connection_error_witness :
  let t := Scenarios.trade_of
             (Scenarios.signal ["BUY EURUSD"; "Entry 1.1"; "SL nan";
                                "TP 1.2"]%string) in
  run_connect Scenarios.venue_up t true
  = (t, Spec.up_events (Py.lit "DEPLOYED")
        ++ [Reply MsgConnected; Reply (MsgConnectionError ValueError)])
  /\ (ValueError = ValueError \/ ValueError = OverflowError).
Proof.
  apply (sizing_failure_reported_as_connection_error Scenarios.venue_up
           (Scenarios.trade_of
              (Scenarios.signal ["BUY EURUSD"; "Entry 1.1"; "SL nan";
                                 "TP 1.2"]%string))
           true (Py.lit "DEPLOYED") (Scenarios.num 10000)
           (Scenarios.num (11 # 10)) ValueError).
  - vm_compute. repeat split.
  - vm_compute. reflexivity.
  - vm_compute. reflexivity.
Defined.

Lemma sized_entry_numeric (t : Trade) (balance : pyfloat) (pips : Z)
    (p : pyfloat) (tp_pips : list Z) :
  Trace.Sized t balance pips p tp_pips -> exists x, Entry t = ENum x.
Proof.
  intros (Z1 & _). unfold pips_between in Z1.
  destruct (Entry t) as [w | x]; [discriminate Z1 | eauto].
Qed.

(** X13.  Confirming reuses the quote of the calculation.  When
    [calculate_trade_handler] has shown the table, the pending trade holds a
    numeric entry; the run that [yes_handler] starts on it, whatever the
    venue answers by then, fetches no price, and every order it sends that
    carries an opening price carries that entry. *)
Theorem confirmation_reuses_the_quoted_entry
    (RISK_FACTOR : pyfloat) (v1 v2 : Venue) (message_text : text) :
  let o := calculate_trade_handler RISK_FACTOR v1 None message_text in
  existsb Spec.is_table (events o) = true ->
  exists t' x,
    user_trade o = Some t'
    /\ Entry t' = ENum x
    /\ filter Trace.is_quote (events (yes_handler v2 (Some t'))) = []
    /\ Forall (fun r => o_open r = None \/ o_open r = Some (ENum x))
         (Trace.orders (events (yes_handler v2 (Some t')))).
Proof.
  cbv zeta. unfold calculate_trade_handler, take_trade.
  destruct (parse_signal RISK_FACTOR message_text) as [[t |] | e];
    [| discriminate | discriminate].
  destruct (run_connect_shape v1 t false) as (t' & evs & E & R).
  rewrite E. cbn [events user_trade]. intros H.
  apply existsb_exists in H. destruct H as (ev & I & H).
  destruct ev as [m | | | | | | | |]; try discriminate H.
  destruct m; try discriminate H.
  cbn [app] in I. destruct I as [I | I]; [discriminate I |].
  apply in_app_or in I. destruct I as [I | [I | []]]; [| discriminate I].
  destruct (shape_table _ _ _ _ _ _ _ _ _ R I)
    as (t1 & quote & p & Q & Z & -> & -> & B).
  destruct (sized_entry_numeric _ _ _ _ _ Z) as [x X].
  exists (Spec.with_position_size t1 p), x.
  split; [reflexivity |]. split; [exact X |].
  unfold yes_handler.
  destruct (run_connect_shape v2 (Spec.with_position_size t1 p) true)
    as (t'' & evs2 & E2 & R2).
  rewrite E2. cbn [events].
  pose proof (shape_quotes _ _ _ _ _ R2) as SQ.
  cbn [Spec.with_position_size Entry] in SQ. rewrite X in SQ.
  split.
  - destruct (filter Trace.is_quote evs2) as [| q [| q' l]];
      [reflexivity | destruct SQ as [_ SQ]; discriminate SQ | destruct SQ].
  - destruct (run_orders _ _ _ _ _ R2) as (op & share & k & O & _).
    destruct (shape_fields _ _ _ _ _ R2) as (_ & _ & _ & _ & _ & F & _).
    cbn [Spec.with_position_size Entry] in F. rewrite X in F.
    assert (X'' : Entry t'' = ENum x).
    { destruct F as [F | [F _]]; [exact F | discriminate F]. }
    rewrite O. apply Forall_map. apply Forall_forall. intros tp _.
    cbn [Spec.ticket o_open]. rewrite X''.
    destruct (Spec.is_market op); auto.
Qed.

Lemma confirmation_reuses_the_quoted_entry_witness :
  let o := calculate_trade_handler RISK_FACTOR_default Scenarios.venue_up
             None Scenarios.buy_limit_now in
  exists t' x,
    user_trade o = Some t'
    /\ Entry t' = ENum x
    /\ filter Trace.is_quote
         (events (yes_handler Scenarios.venue_rejecting_first (Some t')))
       = []
    /\ Forall (fun r => o_open r = None \/ o_open r = Some (ENum x))
         (Trace.orders
            (events (yes_handler Scenarios.venue_rejecting_first
                       (Some t')))).
Proof.
  apply (confirmation_reuses_the_quoted_entry RISK_FACTOR_default
           Scenarios.venue_up Scenarios.venue_rejecting_first
           Scenarios.buy_limit_now).
  vm_compute. reflexivity.
Defined.

(* ================================================================== *)
(** ** Beyond the scenarios: letter case *)

(** *** Lower-casing a text changes nothing the parser looks at *)

Lemma lower_char_space (c : ascii) : is_space (lower_char c) = is_space c.
Proof.
  destruct c as [[|] [|] [|] [|] [|] [|] [|] [|]]; vm_compute; reflexivity.
Qed.

Lemma lower_char_linebreak (c : ascii) :
  is_linebreak (lower_char c) = is_linebreak c.
Proof.
  destruct c as [[|] [|] [|] [|] [|] [|] [|] [|]]; vm_compute; reflexivity.
Qed.

Lemma lower_char_digit (c : ascii) : is_digit (lower_char c) = is_digit c.
Proof.
  destruct c as [[|] [|] [|] [|] [|] [|] [|] [|]]; vm_compute; reflexivity.
Qed.

Lemma digit_lower_char (c : ascii) : is_digit c = true -> lower_char c = c.
Proof.
  destruct c as [[|] [|] [|] [|] [|] [|] [|] [|]]; vm_compute;
    intros H; try discriminate H; reflexivity.
Qed.

Lemma lower_char_underscore (c : ascii) :
  is_char 95 (lower_char c) = is_char 95 c.
Proof.
  destruct c as [[|] [|] [|] [|] [|] [|] [|] [|]]; vm_compute; reflexivity.
Qed.

Lemma lower_char_minus (c : ascii) :
  is_char 45 (lower_char c) = is_char 45 c.
Proof.
  destruct c as [[|] [|] [|] [|] [|] [|] [|] [|]]; vm_compute; reflexivity.
Qed.

Lemma lower_char_plus (c : ascii) :
  is_char 43 (lower_char c) = is_char 43 c.
Proof.
  destruct c as [[|] [|] [|] [|] [|] [|] [|] [|]]; vm_compute; reflexivity.
Qed.

Lemma lower_char_point (c : ascii) :
  is_char 46 (lower_char c) = is_char 46 c.
Proof.
  destruct c as [[|] [|] [|] [|] [|] [|] [|] [|]]; vm_compute; reflexivity.
Qed.

Lemma lower_char_exponent (c : ascii) :
  is_char 101 (lower_char c) || is_char 69 (lower_char c)
  = is_char 101 c || is_char 69 c.
Proof.
  destruct c as [[|] [|] [|] [|] [|] [|] [|] [|]]; vm_compute; reflexivity.
Qed.

Lemma lower_char_idem (c : ascii) : lower_char (lower_char c) = lower_char c.
Proof.
  destruct c as [[|] [|] [|] [|] [|] [|] [|] [|]]; vm_compute; reflexivity.
Qed.

Lemma upper_lower_char (c : ascii) : upper_char (lower_char c) = upper_char c.
Proof.
  destruct c as [[|] [|] [|] [|] [|] [|] [|] [|]]; vm_compute; reflexivity.
Qed.

Lemma lower_idem (s : text) : lower (lower s) = lower s.
Proof.
  unfold lower. rewrite map_map. apply map_ext. apply lower_char_idem.
Qed.

Lemma upper_lower (s : text) : upper (lower s) = upper s.
Proof.
  unfold lower, upper. rewrite map_map. apply map_ext. apply upper_lower_char.
Qed.

Lemma lower_rev (s : text) : lower (rev s) = rev (lower s).
Proof. apply map_rev. Qed.

Lemma lower_is_nil (s : text) : is_nil (lower s) = is_nil s.
Proof. now destruct s. Qed.

Lemma lstrip_lower (s : text) : lstrip (lower s) = lower (lstrip s).
Proof.
  induction s as [| c s IH]; [reflexivity |].
  cbn [lower map lstrip]. rewrite lower_char_space.
  destruct (is_space c); [exact IH | reflexivity].
Qed.

Lemma strip_lower (s : text) : strip (lower s) = lower (strip s).
Proof.
  unfold strip.
  now rewrite lstrip_lower, <- lower_rev, lstrip_lower, <- lower_rev.
Qed.

Lemma split_from_lower (cur s : text) :
  split_from (lower cur) (lower s) = map lower (split_from cur s).
Proof.
  revert cur. induction s as [| c s IH]; intros cur.
  - cbn. destruct cur as [| x cur]; [reflexivity |].
    cbn [lower map]. f_equal.
    change (lower_char x :: map lower_char cur) with (lower (x :: cur)).
    now rewrite <- lower_rev.
  - cbn [lower map split_from]. rewrite lower_char_space.
    destruct (is_space c).
    + destruct cur as [| x cur].
      * exact (IH []).
      * cbn [lower map]. f_equal.
        -- change (lower_char x :: map lower_char cur)
             with (lower (x :: cur)).
           now rewrite <- lower_rev.
        -- exact (IH []).
    + exact (IH (c :: cur)).
Qed.

Lemma split_lower (s : text) : split (lower s) = map lower (split s).
Proof. exact (split_from_lower [] s). Qed.

Lemma last_item_lower (l : list text) :
  last_item (map lower l) = option_map lower (last_item l).
Proof.
  induction l as [| x l IH]; [reflexivity |].
  destruct l as [| y l]; [reflexivity |]. exact IH.
Qed.

Lemma last_word_lower (line : text) :
  last_word (lower line)
  = match last_word line with
    | Ok w => Ok (lower w)
    | Raise e => Raise e
    end.
Proof.
  unfold last_word. rewrite split_lower, last_item_lower.
  now destruct (last_item (split line)).
Qed.

Lemma linebreak_lower_char (c : ascii) :
  is_linebreak c = true -> lower_char c = c.
Proof.
  destruct c as [[|] [|] [|] [|] [|] [|] [|] [|]]; vm_compute;
    intros H; try discriminate H; reflexivity.
Qed.

Lemma lower_char_newline (c : ascii) :
  (code (lower_char c) =? 10)%nat = (code c =? 10)%nat.
Proof.
  destruct c as [[|] [|] [|] [|] [|] [|] [|] [|]]; vm_compute; reflexivity.
Qed.

(** The step of [splitlines_from] at a line boundary. *)
Lemma splitlines_from_boundary (cur : text) (c : ascii) (r : text) :
  is_linebreak c = true ->
  splitlines_from cur (c :: r)
  = rev cur
    :: splitlines_from []
         (match r with
          | c' :: r' =>
              if (code c =? 13)%nat && (code c' =? 10)%nat then r' else r
          | [] => r
          end).
Proof.
  intros L. cbn [splitlines_from]. rewrite L.
  destruct c as [[|] [|] [|] [|] [|] [|] [|] [|]];
    try (vm_compute in L; discriminate L);
    destruct r as [| c' r']; try reflexivity.
  change (code "013") with 13%nat. cbn [Nat.eqb andb].
  destruct (code c' =? 10)%nat; reflexivity.
Qed.

Lemma splitlines_from_lower (n : nat) (cur s : text) :
  (List.length s <= n)%nat ->
  splitlines_from (lower cur) (lower s) = map lower (splitlines_from cur s).
Proof.
  revert cur s. induction n as [| n IH]; intros cur s Hn.
  - destruct s; [| cbn in Hn; lia].
    cbn. destruct cur as [| x cur]; [reflexivity |].
    cbn [lower map]. f_equal.
    change (lower_char x :: map lower_char cur) with (lower (x :: cur)).
    now rewrite <- lower_rev.
  - destruct s as [| c r].
    + cbn. destruct cur as [| x cur]; [reflexivity |].
      cbn [lower map]. f_equal.
      change (lower_char x :: map lower_char cur) with (lower (x :: cur)).
      now rewrite <- lower_rev.
    + cbn [List.length] in Hn.
      destruct (is_linebreak c) eqn:L.
      * rewrite (splitlines_from_boundary cur c r L).
        change (lower (c :: r)) with (lower_char c :: lower r).
        rewrite (splitlines_from_boundary (lower cur) (lower_char c)
                   (lower r))
          by now rewrite lower_char_linebreak.
        rewrite (linebreak_lower_char c L). cbn [map].
        rewrite <- lower_rev. f_equal.
        destruct r as [| c' r']; [reflexivity |].
        change (lower (c' :: r')) with (lower_char c' :: lower r').
        cbv iota beta. rewrite lower_char_newline.
        destruct ((code c =? 13)%nat && (code c' =? 10)%nat).
        -- apply (IH [] r'). cbn in Hn. lia.
        -- apply (IH [] (c' :: r')). lia.
      * cbn [lower map splitlines_from].
        rewrite lower_char_linebreak, L.
        apply (IH (c :: cur) r). lia.
Qed.

Lemma splitlines_lower (s : text) :
  splitlines (lower s) = map lower (splitlines s).
Proof. exact (splitlines_from_lower (List.length s) [] s (le_n _)). Qed.

Lemma signal_lines_lower (signal_text : text) :
  signal_lines (lower signal_text) = map lower (signal_lines signal_text).
Proof.
  unfold signal_lines. rewrite splitlines_lower.
  induction (splitlines signal_text) as [| l ls IH]; [reflexivity |].
  cbn [map filter]. rewrite strip_lower, lower_is_nil.
  destruct (negb (is_nil (strip l))); cbn [map]; rewrite IH;
    [now rewrite strip_lower | reflexivity].
Qed.

Lemma line_at_lower (lines : list text) (i : nat) :
  line_at (map lower lines) i = lower (line_at lines i).
Proof.
  unfold line_at. change (@nil ascii) with (lower []) at 1.
  apply map_nth.
Qed.

(** *** [float] reads a lower-cased word as it reads the word *)

Lemma drop_underscores_lower (prev : ascii) (s : text) :
  drop_underscores (lower_char prev) (lower s)
  = option_map lower (drop_underscores prev s).
Proof.
  revert prev. induction s as [| c r IH]; intros prev.
  - cbn. rewrite lower_char_underscore. now destruct (is_char 95 prev).
  - cbn [lower map drop_underscores].
    rewrite !lower_char_underscore, !lower_char_digit.
    destruct (is_char 95 c).
    + destruct (is_digit prev); [apply IH | reflexivity].
    + destruct (is_char 95 prev && negb (is_digit c)); [reflexivity |].
      change (map lower_char r) with (lower r). rewrite IH.
      now destruct (drop_underscores c r).
Qed.

Lemma take_sign_lower (t : text) :
  take_sign (lower t) = (fst (take_sign t), lower (snd (take_sign t))).
Proof.
  destruct t as [| c r]; [reflexivity |].
  cbn [lower map take_sign]. rewrite lower_char_minus, lower_char_plus.
  destruct (is_char 45 c); [reflexivity |].
  destruct (is_char 43 c); reflexivity.
Qed.

Lemma parse_special_lower (body : text) :
  parse_special (lower body) = parse_special body.
Proof. unfold parse_special. now rewrite lower_idem. Qed.

Lemma span_digits_lower (s : text) :
  span_digits (lower s) = (fst (span_digits s), lower (snd (span_digits s))).
Proof.
  induction s as [| c r IH]; [reflexivity |].
  cbn [lower map span_digits]. rewrite lower_char_digit.
  destruct (is_digit c) eqn:D; [| reflexivity].
  change (map lower_char r) with (lower r). rewrite IH.
  destruct (span_digits r) as [d r']. cbn [fst snd].
  now rewrite (digit_lower_char c D).
Qed.

Lemma parse_decimal_lower (s : text) :
  parse_decimal (lower s) = parse_decimal s.
Proof.
  unfold parse_decimal. rewrite span_digits_lower.
  destruct (span_digits s) as [ip r1]. cbn [fst snd].
  assert (F : (match lower r1 with
               | c :: r => if is_char 46 c then span_digits r else ([], lower r1)
               | [] => ([], lower r1)
               end)
              = (fst (match r1 with
                      | c :: r => if is_char 46 c then span_digits r
                                  else ([], r1)
                      | [] => ([], r1)
                      end),
                 lower (snd (match r1 with
                             | c :: r => if is_char 46 c then span_digits r
                                         else ([], r1)
                             | [] => ([], r1)
                             end)))).
  { destruct r1 as [| c r]; [reflexivity |].
    cbn [lower map]. rewrite lower_char_point.
    destruct (is_char 46 c); [| reflexivity].
    change (map lower_char r) with (lower r). apply span_digits_lower. }
  rewrite F.
  destruct (match r1 with
            | c :: r => if is_char 46 c then span_digits r else ([], r1)
            | [] => ([], r1)
            end) as [fp r2].
  cbn [fst snd].
  destruct (is_nil ip && is_nil fp); [reflexivity |].
  destruct r2 as [| c r3]; [reflexivity |].
  cbn [lower map]. rewrite lower_char_exponent.
  destruct (is_char 101 c || is_char 69 c); [| reflexivity].
  change (map lower_char r3) with (lower r3). rewrite take_sign_lower.
  destruct (take_sign r3) as [eneg r4]. cbn [fst snd].
  rewrite span_digits_lower.
  destruct (span_digits r4) as [ed r5]. cbn [fst snd].
  now rewrite lower_is_nil.
Qed.

Lemma py_float_lower (s : text) : py_float (lower s) = py_float s.
Proof.
  unfold py_float. rewrite strip_lower.
  change zero with (lower_char zero) at 1.
  rewrite drop_underscores_lower.
  destruct (drop_underscores zero (strip s)) as [t |]; [| reflexivity].
  cbn [option_map]. rewrite take_sign_lower.
  destruct (take_sign t) as [neg body]. cbn [fst snd].
  now rewrite parse_special_lower, parse_decimal_lower.
Qed.

Lemma last_float_lower (line : text) :
  (w <- last_word (lower line) ;; py_float w)
  = (w <- last_word line ;; py_float w).
Proof.
  rewrite last_word_lower.
  destruct (last_word line) as [w | e]; cbn [rbind]; [| reflexivity].
  apply py_float_lower.
Qed.

Lemma parse_tp_list_lower (lines : list text) :
  parse_tp_list (map lower lines) = parse_tp_list lines.
Proof.
  unfold parse_tp_list. rewrite length_map, !line_at_lower.
  rewrite !last_word_lower.
  destruct (last_word (line_at lines 3)) as [w1 | e]; cbn [rbind];
    [| reflexivity].
  rewrite py_float_lower.
  destruct (py_float w1) as [tp1 | e]; cbn [rbind]; [| reflexivity].
  destruct (4 <? List.length lines)%nat; [| reflexivity].
  destruct (last_word (line_at lines 4)) as [w2 | e]; cbn [rbind];
    [| reflexivity].
  now rewrite py_float_lower.
Qed.

Lemma parse_signal_lower (RISK_FACTOR : pyfloat) (signal_text : text) :
  parse_signal RISK_FACTOR (lower signal_text)
  = parse_signal RISK_FACTOR signal_text.
Proof.
  unfold parse_signal. rewrite signal_lines_lower.
  destruct (signal_lines signal_text) as [| line0 rest]; [reflexivity |].
  change (map lower (line0 :: rest))
    with (lower line0 :: map lower rest).
  cbv iota beta. rewrite lower_idem.
  destruct (order_type_of (lower line0)) as [order_type |]; [| reflexivity].
  rewrite last_word_lower.
  destruct (last_word line0) as [last0 | e]; cbn [rbind]; [| reflexivity].
  rewrite upper_lower.
  destruct (negb (mem (upper last0) SYMBOLS)); [reflexivity |].
  change (lower line0 :: map lower rest)
    with (map lower (line0 :: rest)).
  rewrite length_map.
  destruct (List.length (line0 :: rest) <? 4)%nat; [reflexivity |].
  rewrite !line_at_lower, last_word_lower.
  destruct (last_word (line_at (line0 :: rest) 1)) as [last1 | e];
    cbn [rbind]; [| reflexivity].
  rewrite upper_lower.
  destruct (parse_entry (upper last1)) as [entry | e]; cbn [or_empty];
    [| reflexivity].
  rewrite last_float_lower.
  destruct (w <- last_word (line_at (line0 :: rest) 2) ;; py_float w)
    as [stoploss | e]; cbn [or_empty]; [| reflexivity].
  now rewrite parse_tp_list_lower.
Qed.

(** X17.  [parse_signal] does not look at letter case: two ASCII texts that
    differ in the case of their letters only parse to the same result.  The
    order type, the symbol, the word NOW and the numbers ("1E5", "INF") may
    be typed in any mix of upper and lower case. *)
Theorem parse_signal_ignores_letter_case
    (RISK_FACTOR : pyfloat) (text1 text2 : text) :
  Domain.ascii_text text1 ->
  Domain.ascii_text text2 ->
  lower text1 = lower text2 ->
  parse_signal RISK_FACTOR text1 = parse_signal RISK_FACTOR text2.
Proof.
  intros _ _ H.
  rewrite <- (parse_signal_lower RISK_FACTOR text1).
  rewrite <- (parse_signal_lower RISK_FACTOR text2).
  now rewrite H.
Qed.

Lemma parse_signal_ignores_letter_case_witness :
  parse_signal RISK_FACTOR_default
    (Scenarios.signal ["buy Limit gbpUSD"; "entry now"; "sl 1.2450";
                       "tp 1.2600"]%string)
  = parse_signal RISK_FACTOR_default Scenarios.buy_limit_now.
Proof.
  apply (parse_signal_ignores_letter_case RISK_FACTOR_default);
    vm_compute; reflexivity.
Defined.

(* ================================================================== *)
(** ** Beyond the scenarios: sessions *)

(** *** Sessions: the handlers behind the dispatch of [main] *)

Lemma set_state_same (conv : nat -> conv_state) (c : nat) (s : conv_state) :
  App.set_state conv c s c = s.
Proof. unfold App.set_state. now rewrite Nat.eqb_refl. Qed.

Lemma in_conversation (ev : event) (evs : list event) :
  In (App.Conversation ev) (map App.Conversation evs) -> In ev evs.
Proof.
  intros H. apply in_map_iff in H. destruct H as (x & E & H).
  now injection E as ->.
Qed.

Lemma no_orders_no_order_event (evs : list event) :
  Trace.orders evs = [] ->
  existsb App.is_order (map App.Conversation evs) = false.
Proof.
  induction evs as [| ev evs IH]; [reflexivity |].
  destruct ev; cbn; try exact IH. discriminate.
Qed.

Lemma run_never_says_no_pending (v : Venue) (t : Trade)
    (enter_trade : bool) :
  ~ In (Reply MsgNoPending) (snd (run_connect v t enter_trade)).
Proof.
  destruct (run_connect_shape v t enter_trade) as (t' & evs & E & R).
  rewrite E. cbn [snd]. intros H.
  destruct (shape_replies _ _ _ _ _ _ R H)
    as [M | [M | [M | [[e M] | [(a & b & c & d & M) | M]]]]];
    try discriminate M.
  inversion M.
Qed.

(** One update of a sender who is not authorized, with no conversation
    open. *)
Lemma handle_unauthorized (RISK_FACTOR : pyfloat) (s : App.session)
    (u : App.update) (v : Venue) :
  App.authorized u = false ->
  (forall c, App.conversations s c = END) ->
  (forall c, App.conversations (fst (App.handle RISK_FACTOR s (u, v))) c
             = END)
  /\ App.user_data_trade (fst (App.handle RISK_FACTOR s (u, v)))
     = App.user_data_trade s
  /\ existsb App.is_venue_call (snd (App.handle RISK_FACTOR s (u, v)))
     = false.
Proof.
  intros A H. unfold App.handle. rewrite H.
  destruct u as [c a b]. cbn [App.authorized App.chat App.body] in *.
  subst a.
  assert (K : forall c', App.set_state (App.conversations s) c END c' = END).
  { intros c'. unfold App.set_state. destruct (c' =? c)%nat; auto. }
  destruct b as [[] | m |]; cbn; auto.
Qed.

(** X14.  A sender who is not authorized never reaches the venue.  In a
    session in which no update comes from the authorized username, whatever
    is sent (commands, signals, /yes) opens no conversation, stores no
    trade, and causes no call to the venue: the application only replies. *)
Theorem unauthorized_never_reaches_the_venue
    (RISK_FACTOR : pyfloat) (updates : list (App.update * Venue)) :
  Forall (fun uv => App.authorized (fst uv) = false) updates ->
  let r := App.run RISK_FACTOR App.initial updates in
  (forall c, App.conversations (fst r) c = END)
  /\ App.user_data_trade (fst r) = None
  /\ existsb App.is_venue_call (snd r) = false.
Proof.
  intros F. cbv zeta.
  assert (G : forall s,
             (forall c, App.conversations s c = END) ->
             (forall c, App.conversations
                          (fst (App.run RISK_FACTOR s updates)) c = END)
             /\ App.user_data_trade (fst (App.run RISK_FACTOR s updates))
                = App.user_data_trade s
             /\ existsb App.is_venue_call
                  (snd (App.run RISK_FACTOR s updates)) = false).
  { induction F as [| [u v] rest A F IH]; intros s H.
    - cbn. auto.
    - cbn [App.run]. cbn [fst] in A.
      destruct (handle_unauthorized RISK_FACTOR s u v A H) as (H1 & H2 & H3).
      destruct (App.handle RISK_FACTOR s (u, v)) as [s1 evs1].
      cbn [fst snd] in *.
      destruct (IH s1 H1) as (I1 & I2 & I3).
      destruct (App.run RISK_FACTOR s1 rest) as [s2 evs2].
      cbn [fst snd] in *.
      split; [exact I1 |]. split; [congruence |].
      rewrite existsb_app, H3, I3. reflexivity. }
  exact (G App.initial (fun _ => eq_refl)).
Qed.

Lemma unauthorized_never_reaches_the_venue_witness :
  let updates :=
    [(App.mkUpdate 7 false (App.Cmd App.trade), Scenarios.venue_up);
     (App.mkUpdate 7 false (App.Txt Scenarios.scenario_A),
      Scenarios.venue_up);
     (App.mkUpdate 7 false (App.Cmd App.yes), Scenarios.venue_up)] in
  let r := App.run RISK_FACTOR_default App.initial updates in
  (forall c, App.conversations (fst r) c = END)
  /\ App.user_data_trade (fst r) = None
  /\ existsb App.is_venue_call (snd r) = false.
Proof.
  apply (unauthorized_never_reaches_the_venue RISK_FACTOR_default).
  repeat constructor.
Defined.

(** One update in the chat [c]. *)
Lemma handle_one_chat (RISK_FACTOR : pyfloat) (c : nat) (s : App.session)
    (u : App.update) (v : Venue) :
  App.chat u = c ->
  App.pending_iff_decision c s ->
  App.pending_iff_decision c (fst (App.handle RISK_FACTOR s (u, v)))
  /\ ~ In (App.Conversation (Reply MsgNoPending))
         (snd (App.handle RISK_FACTOR s (u, v))).
Proof.
  intros <- J. unfold App.pending_iff_decision in *. unfold App.handle.
  destruct u as [c a b]. cbn [App.authorized App.chat App.body] in *.
  destruct (App.conversations s c) eqn:S.
  - (* CALCULATE *)
    destruct b as [[] | m |];
      cbn [App.dispatch App.accepts App.command_eqb App.conversation_handler
           App.first_match App.states App.fallbacks fst snd
           App.run_callback App.body App.authorized App.chat
           App.conversations App.user_data_trade cancel_handler
           events next user_trade map In];
      rewrite ?set_state_same, ?S;
      try (split; [first [exact J | reflexivity]
                  | first [tauto | intros [H | []]; discriminate H]]).
    + rewrite J. unfold calculate_trade_handler, take_trade.
      destruct (parse_signal RISK_FACTOR m) as [[t |] | e];
        cbn [events next user_trade fst snd App.conversations
             App.user_data_trade map In];
        rewrite ?set_state_same;
        try (split; [reflexivity | intros [H | []]; discriminate H]).
      pose proof (run_never_says_no_pending v t false) as N.
      destruct (run_connect v t false) as [t' evs].
      cbn [events next user_trade fst snd App.conversations
           App.user_data_trade] in *.
      rewrite ?set_state_same. split; [discriminate |].
      intros H. apply in_conversation in H.
      cbn [app] in H. destruct H as [H | H]; [discriminate H |].
      apply in_app_or in H. destruct H as [H | [H | []]];
        [exact (N H) | discriminate H].
  - (* TRADE *)
    destruct b as [[] | m |];
      cbn [App.dispatch App.accepts App.command_eqb App.conversation_handler
           App.first_match App.states App.fallbacks fst snd
           App.run_callback App.body App.authorized App.chat
           App.conversations App.user_data_trade cancel_handler
           events next user_trade map In];
      rewrite ?set_state_same, ?S;
      try (split; [first [exact J | reflexivity]
                  | first [tauto | intros [H | []]; discriminate H]]).
    + rewrite J. unfold place_trade_handler, take_trade.
      destruct (parse_signal RISK_FACTOR m) as [[t |] | e];
        cbn [events next user_trade fst snd App.conversations
             App.user_data_trade map In];
        rewrite ?set_state_same;
        try (split; [reflexivity | intros [H | []]; discriminate H]).
      pose proof (run_never_says_no_pending v t true) as N.
      destruct (run_connect v t true) as [t' evs].
      cbn [events next user_trade fst snd App.conversations
           App.user_data_trade] in *.
      rewrite ?set_state_same. split; [reflexivity |].
      intros H. apply in_conversation in H.
      cbn [app] in H. destruct H as [H | H]; [discriminate H | exact (N H)].
  - (* DECISION *)
    destruct (App.user_data_trade s) as [t |] eqn:P; [| now contradiction J].
    destruct b as [[] | m |];
      cbn [App.dispatch App.accepts App.command_eqb App.conversation_handler
           App.first_match App.states App.fallbacks fst snd
           App.run_callback App.body App.authorized App.chat
           App.conversations App.user_data_trade cancel_handler
           events next user_trade map In];
      rewrite ?set_state_same, ?S, ?P;
      try (split; [first [exact J | reflexivity]
                  | first [tauto | intros [H | []]; discriminate H]]).
    + unfold yes_handler.
      pose proof (run_never_says_no_pending v t true) as N.
      destruct (run_connect v t true) as [t' evs].
      cbn [events next user_trade fst snd App.conversations
           App.user_data_trade] in *.
      rewrite ?set_state_same. split; [reflexivity |].
      intros H. apply in_conversation in H. exact (N H).
    + unfold App.unknown_command. split; [exact J |].
      destruct (negb a); intros [H | []]; discriminate H.
  - (* END *)
    destruct b as [[] | m |];
      cbn [App.dispatch App.accepts App.command_eqb App.conversation_handler
           App.first_match App.entry_points fst snd
           App.run_callback App.body App.authorized App.chat
           App.conversations App.user_data_trade cancel_handler
           events next user_trade map In];
      rewrite ?set_state_same, ?S;
      try (split; [first [exact J | reflexivity]
                  | first [tauto | intros [H | []]; discriminate H]]).
    + unfold trade_entry. destruct (negb a);
        cbn [events next user_trade fst snd App.conversations
             App.user_data_trade map In];
        rewrite ?set_state_same;
        (split; [first [exact J | reflexivity]
                | intros [H | []]; discriminate H]).
    + unfold calculate_entry. destruct (negb a);
        cbn [events next user_trade fst snd App.conversations
             App.user_data_trade map In];
        rewrite ?set_state_same;
        (split; [first [exact J | reflexivity]
                | intros [H | []]; discriminate H]).
    + unfold App.unknown_command. split; [exact J |].
      destruct (negb a); intros [H | []]; discriminate H.
Qed.

(** X15.  While a user talks to the bot in one chat, a trade is pending
    exactly while the conversation awaits the decision.  So the text
    handlers always parse the incoming message (the trade they would reuse
    is never there), [yes_handler] always finds its trade, and the reply
    "No hay trade pendiente" of line 392 is never sent. *)
Theorem one_chat_pending_iff_decision
    (RISK_FACTOR : pyfloat) (c : nat)
    (updates : list (App.update * Venue)) :
  Forall (fun uv => App.chat (fst uv) = c) updates ->
  let r := App.run RISK_FACTOR App.initial updates in
  (App.user_data_trade (fst r) <> None
   <-> App.conversations (fst r) c = DECISION)
  /\ ~ In (App.Conversation (Reply MsgNoPending)) (snd r).
Proof.
  intros F. cbv zeta.
  assert (G : forall s,
             App.pending_iff_decision c s ->
             App.pending_iff_decision c
               (fst (App.run RISK_FACTOR s updates))
             /\ ~ In (App.Conversation (Reply MsgNoPending))
                    (snd (App.run RISK_FACTOR s updates))).
  { induction F as [| [u v] rest A F IH]; intros s J.
    - cbn. auto.
    - cbn [App.run]. cbn [fst] in A.
      destruct (handle_one_chat RISK_FACTOR c s u v A J) as (H1 & H2).
      destruct (App.handle RISK_FACTOR s (u, v)) as [s1 evs1].
      cbn [fst snd] in *.
      destruct (IH s1 H1) as (I1 & I2).
      destruct (App.run RISK_FACTOR s1 rest) as [s2 evs2].
      cbn [fst snd] in *.
      split; [exact I1 |].
      intros H. apply in_app_or in H. tauto. }
  destruct (G App.initial eq_refl) as [J N]. split; [| exact N].
  unfold App.pending_iff_decision in J.
  destruct (App.conversations
              (fst (App.run RISK_FACTOR App.initial updates)) c);
    split; intros H; try discriminate H; try reflexivity; try exact J;
    try (now contradiction H).
Qed.

Lemma one_chat_pending_iff_decision_witness :
  let updates :=
    [(App.mkUpdate 7 true (App.Cmd App.calculate), Scenarios.venue_up);
     (App.mkUpdate 7 true (App.Txt Scenarios.scenario_A),
      Scenarios.venue_up);
     (App.mkUpdate 7 true (App.Cmd App.yes), Scenarios.venue_up);
     (App.mkUpdate 7 true (App.Cmd App.yes), Scenarios.venue_up)] in
  let r := App.run RISK_FACTOR_default App.initial updates in
  (App.user_data_trade (fst r) <> None
   <-> App.conversations (fst r) 7%nat = DECISION)
  /\ ~ In (App.Conversation (Reply MsgNoPending)) (snd r).
Proof.
  apply (one_chat_pending_iff_decision RISK_FACTOR_default 7%nat).
  repeat constructor.
Defined.

(** X16.  Orders leave the application in two situations only: a text
    arrives while the conversation of its chat is in state [TRADE], or /yes
    arrives while it awaits the decision.  No other update, in no other
    state, sends an order. *)
Theorem orders_only_on_trade_text_or_yes
    (RISK_FACTOR : pyfloat) (s : App.session) (u : App.update) (v : Venue) :
  existsb App.is_order (snd (App.handle RISK_FACTOR s (u, v))) = true ->
  (App.conversations s (App.chat u) = TRADE
   /\ exists m, App.body u = App.Txt m)
  \/ (App.conversations s (App.chat u) = DECISION
      /\ App.body u = App.Cmd App.yes).
Proof.
  unfold App.handle.
  destruct u as [c a b]. cbn [App.authorized App.chat App.body] in *.
  destruct (App.conversations s c) eqn:S;
    destruct b as [[] | m |];
    cbn [App.dispatch App.accepts App.command_eqb App.conversation_handler
         App.first_match App.states App.fallbacks App.entry_points fst snd
         App.run_callback App.body App.authorized App.chat
         cancel_handler events map existsb App.is_order];
    try discriminate; eauto;
    try (unfold trade_entry; destruct (negb a); discriminate);
    try (unfold calculate_entry; destruct (negb a); discriminate);
    try (unfold App.unknown_command; destruct (negb a); discriminate).
  rewrite no_orders_no_order_event by apply calculate_handler_orders.
  discriminate.
Qed.

Lemma orders_only_on_trade_text_or_yes_witness :
  let s := App.mkSession (fun _ => TRADE) None in
  let u := App.mkUpdate 7 true (App.Txt Scenarios.two_targets) in
  (App.conversations s (App.chat u) = TRADE
   /\ exists m, App.body u = App.Txt m)
  \/ (App.conversations s (App.chat u) = DECISION
      /\ App.body u = App.Cmd App.yes).
Proof.
  apply (orders_only_on_trade_text_or_yes RISK_FACTOR_default
           (App.mkSession (fun _ => TRADE) None)
           (App.mkUpdate 7 true (App.Txt Scenarios.two_targets))
           Scenarios.venue_up).
  vm_compute. reflexivity.
Defined.
